(** * Interview session controller: media capture, timer and proctoring

    A shallow embedding of the candidate-side session controller
    (the [InterviewSession] component) and of the text encodings it relies
    on, together with the properties of its specification.

    Layout:
    - [Js]      : the few JavaScript string primitives the component uses;
    - [Base64]  : the screen-chunk encoder's clean-up and the playback
                  decoder ([atob] followed by [charCodeAt]);
    - [Session] : the component's state, its handlers and effects, and
                  the notions the properties are stated with;
    - [Scenario]: a concrete session;
    - [SessionExtra] : invariants of the session, the clock ([formatTime])
                  and the periodic check of the screen track;
    - [Api]     : the headers of a request and the uploads of the media API;
    - [Candidate], [CandidateScenario] : the page that starts the
                  interview ([CandidateStart]) and a concrete visit;
    - [Base64Facts], [SessionFacts] : the properties of the specification;
    - [SessionMore], [ApiFacts], [CandidateFacts] : further properties of
                  the code. *)

From Stdlib Require Import String Ascii Strings.Byte DecimalString DecimalPos
  NArith ZArith Bool Lia Arith Sorted List.
Import ListNotations.

Set Implicit Arguments.

(* ------------------------------------------------------------------ *)
(** ** JavaScript string primitives *)

Module Js.

(** A JavaScript string whose code units all lie below 256 (data URLs,
    base64 text and the "binary strings" returned by [atob]). *)
Definition jsstring := list ascii.

Definition lit (s : string) : jsstring := list_ascii_of_string s.

Definition code (c : ascii) : N := N_of_ascii c.

Definition in_range (lo hi c : ascii) : bool :=
  (code lo <=? code c)%N && (code c <=? code hi)%N.

(** The class [\s] of a regular expression, and the characters removed by
    [String.prototype.trim], restricted to code units below 256:
    TAB, LF, VT, FF, CR, SPACE and NBSP. *)
Definition is_space (c : ascii) : bool :=
  let n := code c in
  ((9 <=? n) && (n <=? 13) || (n =? 32) || (n =? 160))%N.

(** [s.includes(c)] for a one-character needle. *)
Definition includes (c : ascii) (s : jsstring) : bool :=
  existsb (Ascii.eqb c) s.

(** [s.split(c)] for a one-character separator: never empty. *)
Fixpoint split (c : ascii) (s : jsstring) : list jsstring :=
  match s with
  | [] => [[]]
  | x :: r =>
      if Ascii.eqb x c then [] :: split c r
      else match split c r with
           | [] => [[x]]
           | p :: ps => (x :: p) :: ps
           end
  end.

Fixpoint trimStart (s : jsstring) : jsstring :=
  match s with
  | [] => []
  | x :: r => if is_space x then trimStart r else s
  end.

Definition trim (s : jsstring) : jsstring :=
  rev (trimStart (rev (trimStart s))).

(** [s.replace(/[...]/g, '')] : delete every character of a class. *)
Definition remove (cls : ascii -> bool) (s : jsstring) : jsstring :=
  filter (fun c => negb (cls c)) s.

(** [c.repeat(n)] *)
Definition repeat_char (c : ascii) (n : nat) : jsstring := repeat c n.

End Js.

(* ------------------------------------------------------------------ *)
(** ** Errors

    [throw new Error(msg)] and promise rejection are a left injection;
    [try { body } catch { handler }] is [try_catch]. *)

Definition Exc (A : Type) : Type := (string + A)%type.

Definition ret {A} (a : A) : Exc A := inr a.
Definition throw {A} (msg : string) : Exc A := inl msg.
Definition bind {A B} (m : Exc A) (k : A -> Exc B) : Exc B :=
  match m with
  | inl e => inl e
  | inr a => k a
  end.

Notation "x <- m ;; k" := (bind m (fun x => k))
  (at level 61, m at next level, right associativity).

Definition try_catch {A} (body : Exc A) (handler : string -> A) : A :=
  match body with
  | inl e => handler e
  | inr a => a
  end.

(* ------------------------------------------------------------------ *)
(** ** Base64 *)

Module Base64.
Import Js.

(** The class [[A-Za-z0-9+/=]] of the clean-up regular expression. *)
Definition is_b64_char (c : ascii) : bool :=
  in_range "A" "Z" c || in_range "a" "z" c || in_range "0" "9" c
  || Ascii.eqb c "+" || Ascii.eqb c "/" || Ascii.eqb c "=".

(** The body of [reader.onload] in [screenRecorder.ondataavailable]:
    [result] is [reader.result], the data URL of the chunk.  The value is
    what the promise resolves to; an error is what it rejects with. *)
Definition onload_prefix_removed (result : jsstring) : jsstring :=
  if includes "," result then nth 1 (split "," result) [] else result.

Definition onload_cleaned (result : jsstring) : jsstring :=
  let base64 := onload_prefix_removed result in
  let base64 := remove is_space (trim base64) in
  remove (fun c => negb (is_b64_char c)) base64.

Definition onload (result : jsstring) : Exc jsstring :=
  let base64 := onload_cleaned result in
  if (length base64 =? 0)%nat then throw "Empty base64 string after cleaning"
  else
    let padding := (length base64 mod 4)%nat in
    let base64 :=
      if (0 <? padding)%nat then base64 ++ repeat_char "=" (4 - padding)
      else base64 in
    ret base64.

(** [new Promise(...)] around the [FileReader]: [reader.onerror] rejects,
    [reader.onload] runs the body above.  [None] is a read error. *)
Definition blobToBase64 (readerResult : option jsstring) : Exc jsstring :=
  match readerResult with
  | None => throw "Failed to read blob as base64"
  | Some result => onload result
  end.

(** *** The sextet alphabet *)

Definition b64_digit (v : N) : ascii :=
  (if v <? 26 then ascii_of_N (65 + v)
   else if v <? 52 then ascii_of_N (97 + (v - 26))
   else if v <? 62 then ascii_of_N (48 + (v - 52))
   else if v =? 62 then "+"%char else "/"%char)%N.

Definition b64_value (c : ascii) : option N :=
  (let n := code c in
   if (65 <=? n) && (n <=? 90) then Some (n - 65)
   else if (97 <=? n) && (n <=? 122) then Some (n - 97 + 26)
   else if (48 <=? n) && (n <=? 57) then Some (n - 48 + 52)
   else if n =? 43 then Some 62
   else if n =? 47 then Some 63
   else None)%N.

(** Modelled from the spec: the producer of [tts_audio_base64] is the
    backend, which is not part of the client sources.  The spec names the
    field a base64 encoding of the synthesized audio bytes; this is the
    standard encoding with padding (RFC 4648, section 4). *)
Fixpoint encode (bs : list byte) : jsstring :=
  match bs with
  | [] => []
  | [a] =>
      let a := Byte.to_N a in
      [b64_digit (a / 4)%N; b64_digit ((a mod 4) * 16)%N; "="%char; "="%char]
  | [a; b] =>
      let a := Byte.to_N a in
      let b := Byte.to_N b in
      [b64_digit (a / 4)%N; b64_digit ((a mod 4) * 16 + b / 16)%N;
       b64_digit ((b mod 16) * 4)%N; "="%char]
  | a :: b :: c :: rest =>
      let a := Byte.to_N a in
      let b := Byte.to_N b in
      let c := Byte.to_N c in
      (b64_digit (a / 4) :: b64_digit ((a mod 4) * 16 + b / 16)
       :: b64_digit ((b mod 16) * 4 + c / 64) :: b64_digit (c mod 64)
       :: encode rest)%N
  end.

(** The sextets of the encoding, without the characters that stand for
    them and without padding. *)
Fixpoint sextets (bs : list byte) : list N :=
  match bs with
  | [] => []
  | [a] =>
      let a := Byte.to_N a in
      [a / 4; (a mod 4) * 16]%N
  | [a; b] =>
      let a := Byte.to_N a in
      let b := Byte.to_N b in
      [a / 4; (a mod 4) * 16 + b / 16; (b mod 16) * 4]%N
  | a :: b :: c :: rest =>
      let a := Byte.to_N a in
      let b := Byte.to_N b in
      let c := Byte.to_N c in
      (a / 4 :: (a mod 4) * 16 + b / 16 :: (b mod 16) * 4 + c / 64
       :: c mod 64 :: sextets rest)%N
  end.

(** The characters that pad the encoding of [bs]. *)
Fixpoint padding (bs : list byte) : jsstring :=
  match bs with
  | [] => []
  | [_] => ["="; "="]%char
  | [_; _] => ["="]%char
  | _ :: _ :: _ :: rest => padding rest
  end.

(** *** [atob]

    The browser builtin, following the forgiving-base64 decode of the
    Infra standard: ASCII whitespace is removed; if the length is a
    multiple of four, one or two trailing [=] are dropped; a length of
    1 mod 4 or a character outside the alphabet is an error
    ([InvalidCharacterError], here [None]); the sextets are then packed
    into bytes, left-over bits being discarded. *)

Definition is_ascii_whitespace (c : ascii) : bool :=
  let n := code c in
  ((n =? 9) || (n =? 10) || (n =? 12) || (n =? 13) || (n =? 32))%N.

Definition is_padding_tail (r : jsstring) : bool :=
  match r with
  | [] => true
  | [c] => Ascii.eqb c "="
  | _ => false
  end.

Fixpoint strip_padding (s : jsstring) : jsstring :=
  match s with
  | [] => []
  | c :: r =>
      if Ascii.eqb c "=" && is_padding_tail r then []
      else c :: strip_padding r
  end.

Fixpoint values (s : jsstring) : option (list N) :=
  match s with
  | [] => Some []
  | c :: r =>
      match b64_value c, values r with
      | Some v, Some vs => Some (v :: vs)
      | _, _ => None
      end
  end.

Fixpoint pack (vs : list N) : jsstring :=
  match vs with
  | v1 :: v2 :: v3 :: v4 :: rest =>
      let n := (((v1 * 64 + v2) * 64 + v3) * 64 + v4)%N in
      ascii_of_N (n / 65536) :: ascii_of_N ((n / 256) mod 256)
      :: ascii_of_N (n mod 256) :: pack rest
  | [v1; v2; v3] =>
      let n := (((v1 * 64 + v2) * 64 + v3) / 4)%N in
      [ascii_of_N (n / 256); ascii_of_N (n mod 256)]
  | [v1; v2] =>
      let n := ((v1 * 64 + v2) / 16)%N in
      [ascii_of_N n]
  | _ => []
  end.

Definition atob (data : jsstring) : option jsstring :=
  let data := remove is_ascii_whitespace data in
  let data :=
    if (length data mod 4 =? 0)%nat then strip_padding data else data in
  if (length data mod 4 =? 1)%nat then None
  else match values data with
       | None => None
       | Some vs => Some (pack vs)
       end.

(** The decoding half of [playTTSAudio]: [atob], then
    [view[i] = audioData.charCodeAt(i)] for every index of a
    [Uint8Array] of the same length (a store keeps the low eight bits).
    [None] stands for the exception that the surrounding [try] logs. *)
Definition charCodeAt_store (c : ascii) : byte :=
  match Byte.of_N (code c mod 256) with
  | Some b => b
  | None => x00
  end.

Definition playTTSAudio_bytes (base64Audio : jsstring) : option (list byte) :=
  match atob base64Audio with
  | None => None
  | Some audioData => Some (map charCodeAt_store audioData)
  end.

End Base64.

(* ------------------------------------------------------------------ *)
(** ** The session controller

    React state and refs are the fields of one record; a handler is a
    function on it.  What the environment decides (the answer of the
    backend, whether the microphone is granted, what the [FileReader]
    returns, the wall clock) is an argument of the handler.  An [async]
    handler runs to completion in one step, except
    [screenRecorder.ondataavailable], which is split at its first [await]
    so that chunk handlers may overlap.

    Left out: state that is only displayed (question text and counters,
    partial transcript, final analysis, audio element, camera preview),
    audio tracks of the screen stream (they are mixed and logged, never
    tested), and the five-second liveness monitor of the screen track. *)

Module Session.
Import Js.
Local Open Scope string_scope.

Inductive RecorderState : Type := inactive | recording | paused.
Inductive ReadyState : Type := live | ended.

Record Track : Type := {
  track_id : string;
  track_readyState : ReadyState;
  track_displaySurface : option string  (* [getSettings().displaySurface] *)
}.

Record MediaStream : Type := { videoTracks : list Track }.

(** A chunk as the handler sees it before reading it: [e.data.size]. *)
Record Blob : Type := { blob_size : nat; blob_type : string }.

(** The screen [MediaRecorder]: its [state] and the [_resId] stored on it. *)
Record Recorder : Type := { rec_state : RecorderState; rec_resId : string }.

Record Alert : Type := {
  alert_type : string;
  alert_timestamp : Z;
  alert_details : option string
}.

(** An [ondataavailable] handler waiting on the [FileReader]: the
    [resId] of its closure, the [chunkIndex] it read and [e.data]. *)
Record Pending : Type := {
  p_resId : string;
  p_chunkIndex : nat;
  p_data : Blob
}.

Inductive Output : Type :=
| Post_start_interview
| Get_current_question (response_id : string)
| Post_submit_answer (response_id transcript : string)
| Post_end_interview (response_id : string)
| Get_response (response_id : string)
| Post_cheating_alert (response_id alert_type : string) (details : option string)
| Emit_start_interview (response_id : option string)
| Emit_end_interview
| Emit_save_video_chunk (response_id : string) (chunk : jsstring)
                        (file_extension : string)
| Log_sending_chunk (chunkIndex : nat)  (* "Sending chunk ${chunkIndex}" *)
| GetUserMedia_audio
| GetDisplayMedia.

Record State : Type := mkState {
  responseId : option string;  (* [useState<string | null>(null)] *)
  transcript : string;
  isRecording : bool;
  loading : bool;
  error : string;
  interviewComplete : bool;
  timeRemaining : option Z;  (* seconds; [None] is [null] *)
  socketConnected : bool;
  screenSharingStopped : bool;
  sessionInitializedRef : bool;
  socketRef : bool;  (* whether [socketRef.current] is set *)
  timerIntervalRef : option nat;  (* a handle returned by [setInterval] *)
  mediaRecorderRef : option RecorderState;  (* the microphone recorder *)
  screenRecorderRef : option Recorder;
  screenChunksRef : list Blob;
  screenStreamRef : option MediaStream;
  screenChunkIndexRef : nat;
  tabSwitchCountRef : nat;
  cheatingAlertsRef : list Alert;
  timerCleanup : bool;  (* the timer effect's last run returned a clean-up *)
  liveIntervals : list nat;  (* intervals scheduled and not cleared *)
  nextInterval : nat;  (* the next handle of [setInterval] *)
  trackOnended : option (option string);  (* [videoTrack.onended], see below *)
  pending : list Pending;  (* suspended [ondataavailable] handlers *)
  outputs : list Output  (* requests, emits, send log; oldest first *)
}.

Definition set_responseId (v : option string) (s : State) : State :=
  mkState v (transcript s) (isRecording s) (loading s) (error s)
    (interviewComplete s) (timeRemaining s) (socketConnected s)
    (screenSharingStopped s) (sessionInitializedRef s) (socketRef s)
    (timerIntervalRef s) (mediaRecorderRef s) (screenRecorderRef s)
    (screenChunksRef s) (screenStreamRef s) (screenChunkIndexRef s)
    (tabSwitchCountRef s) (cheatingAlertsRef s) (timerCleanup s)
    (liveIntervals s) (nextInterval s) (trackOnended s) (pending s)
    (outputs s).

Definition set_transcript (v : string) (s : State) : State :=
  mkState (responseId s) v (isRecording s) (loading s) (error s)
    (interviewComplete s) (timeRemaining s) (socketConnected s)
    (screenSharingStopped s) (sessionInitializedRef s) (socketRef s)
    (timerIntervalRef s) (mediaRecorderRef s) (screenRecorderRef s)
    (screenChunksRef s) (screenStreamRef s) (screenChunkIndexRef s)
    (tabSwitchCountRef s) (cheatingAlertsRef s) (timerCleanup s)
    (liveIntervals s) (nextInterval s) (trackOnended s) (pending s)
    (outputs s).

Definition set_isRecording (v : bool) (s : State) : State :=
  mkState (responseId s) (transcript s) v (loading s) (error s)
    (interviewComplete s) (timeRemaining s) (socketConnected s)
    (screenSharingStopped s) (sessionInitializedRef s) (socketRef s)
    (timerIntervalRef s) (mediaRecorderRef s) (screenRecorderRef s)
    (screenChunksRef s) (screenStreamRef s) (screenChunkIndexRef s)
    (tabSwitchCountRef s) (cheatingAlertsRef s) (timerCleanup s)
    (liveIntervals s) (nextInterval s) (trackOnended s) (pending s)
    (outputs s).

Definition set_loading (v : bool) (s : State) : State :=
  mkState (responseId s) (transcript s) (isRecording s) v (error s)
    (interviewComplete s) (timeRemaining s) (socketConnected s)
    (screenSharingStopped s) (sessionInitializedRef s) (socketRef s)
    (timerIntervalRef s) (mediaRecorderRef s) (screenRecorderRef s)
    (screenChunksRef s) (screenStreamRef s) (screenChunkIndexRef s)
    (tabSwitchCountRef s) (cheatingAlertsRef s) (timerCleanup s)
    (liveIntervals s) (nextInterval s) (trackOnended s) (pending s)
    (outputs s).

Definition set_error (v : string) (s : State) : State :=
  mkState (responseId s) (transcript s) (isRecording s) (loading s) v
    (interviewComplete s) (timeRemaining s) (socketConnected s)
    (screenSharingStopped s) (sessionInitializedRef s) (socketRef s)
    (timerIntervalRef s) (mediaRecorderRef s) (screenRecorderRef s)
    (screenChunksRef s) (screenStreamRef s) (screenChunkIndexRef s)
    (tabSwitchCountRef s) (cheatingAlertsRef s) (timerCleanup s)
    (liveIntervals s) (nextInterval s) (trackOnended s) (pending s)
    (outputs s).

Definition set_interviewComplete (v : bool) (s : State) : State :=
  mkState (responseId s) (transcript s) (isRecording s) (loading s)
    (error s) v (timeRemaining s) (socketConnected s)
    (screenSharingStopped s) (sessionInitializedRef s) (socketRef s)
    (timerIntervalRef s) (mediaRecorderRef s) (screenRecorderRef s)
    (screenChunksRef s) (screenStreamRef s) (screenChunkIndexRef s)
    (tabSwitchCountRef s) (cheatingAlertsRef s) (timerCleanup s)
    (liveIntervals s) (nextInterval s) (trackOnended s) (pending s)
    (outputs s).

Definition set_timeRemaining (v : option Z) (s : State) : State :=
  mkState (responseId s) (transcript s) (isRecording s) (loading s)
    (error s) (interviewComplete s) v (socketConnected s)
    (screenSharingStopped s) (sessionInitializedRef s) (socketRef s)
    (timerIntervalRef s) (mediaRecorderRef s) (screenRecorderRef s)
    (screenChunksRef s) (screenStreamRef s) (screenChunkIndexRef s)
    (tabSwitchCountRef s) (cheatingAlertsRef s) (timerCleanup s)
    (liveIntervals s) (nextInterval s) (trackOnended s) (pending s)
    (outputs s).

Definition set_socketConnected (v : bool) (s : State) : State :=
  mkState (responseId s) (transcript s) (isRecording s) (loading s)
    (error s) (interviewComplete s) (timeRemaining s) v
    (screenSharingStopped s) (sessionInitializedRef s) (socketRef s)
    (timerIntervalRef s) (mediaRecorderRef s) (screenRecorderRef s)
    (screenChunksRef s) (screenStreamRef s) (screenChunkIndexRef s)
    (tabSwitchCountRef s) (cheatingAlertsRef s) (timerCleanup s)
    (liveIntervals s) (nextInterval s) (trackOnended s) (pending s)
    (outputs s).

Definition set_screenSharingStopped (v : bool) (s : State) : State :=
  mkState (responseId s) (transcript s) (isRecording s) (loading s)
    (error s) (interviewComplete s) (timeRemaining s) (socketConnected s) v
    (sessionInitializedRef s) (socketRef s) (timerIntervalRef s)
    (mediaRecorderRef s) (screenRecorderRef s) (screenChunksRef s)
    (screenStreamRef s) (screenChunkIndexRef s) (tabSwitchCountRef s)
    (cheatingAlertsRef s) (timerCleanup s) (liveIntervals s)
    (nextInterval s) (trackOnended s) (pending s) (outputs s).

Definition set_sessionInitializedRef (v : bool) (s : State) : State :=
  mkState (responseId s) (transcript s) (isRecording s) (loading s)
    (error s) (interviewComplete s) (timeRemaining s) (socketConnected s)
    (screenSharingStopped s) v (socketRef s) (timerIntervalRef s)
    (mediaRecorderRef s) (screenRecorderRef s) (screenChunksRef s)
    (screenStreamRef s) (screenChunkIndexRef s) (tabSwitchCountRef s)
    (cheatingAlertsRef s) (timerCleanup s) (liveIntervals s)
    (nextInterval s) (trackOnended s) (pending s) (outputs s).

Definition set_socketRef (v : bool) (s : State) : State :=
  mkState (responseId s) (transcript s) (isRecording s) (loading s)
    (error s) (interviewComplete s) (timeRemaining s) (socketConnected s)
    (screenSharingStopped s) (sessionInitializedRef s) v
    (timerIntervalRef s) (mediaRecorderRef s) (screenRecorderRef s)
    (screenChunksRef s) (screenStreamRef s) (screenChunkIndexRef s)
    (tabSwitchCountRef s) (cheatingAlertsRef s) (timerCleanup s)
    (liveIntervals s) (nextInterval s) (trackOnended s) (pending s)
    (outputs s).

Definition set_timerIntervalRef (v : option nat) (s : State) : State :=
  mkState (responseId s) (transcript s) (isRecording s) (loading s)
    (error s) (interviewComplete s) (timeRemaining s) (socketConnected s)
    (screenSharingStopped s) (sessionInitializedRef s) (socketRef s) v
    (mediaRecorderRef s) (screenRecorderRef s) (screenChunksRef s)
    (screenStreamRef s) (screenChunkIndexRef s) (tabSwitchCountRef s)
    (cheatingAlertsRef s) (timerCleanup s) (liveIntervals s)
    (nextInterval s) (trackOnended s) (pending s) (outputs s).

Definition set_mediaRecorderRef (v : option RecorderState) (s : State) : State :=
  mkState (responseId s) (transcript s) (isRecording s) (loading s)
    (error s) (interviewComplete s) (timeRemaining s) (socketConnected s)
    (screenSharingStopped s) (sessionInitializedRef s) (socketRef s)
    (timerIntervalRef s) v (screenRecorderRef s) (screenChunksRef s)
    (screenStreamRef s) (screenChunkIndexRef s) (tabSwitchCountRef s)
    (cheatingAlertsRef s) (timerCleanup s) (liveIntervals s)
    (nextInterval s) (trackOnended s) (pending s) (outputs s).

Definition set_screenRecorderRef (v : option Recorder) (s : State) : State :=
  mkState (responseId s) (transcript s) (isRecording s) (loading s)
    (error s) (interviewComplete s) (timeRemaining s) (socketConnected s)
    (screenSharingStopped s) (sessionInitializedRef s) (socketRef s)
    (timerIntervalRef s) (mediaRecorderRef s) v (screenChunksRef s)
    (screenStreamRef s) (screenChunkIndexRef s) (tabSwitchCountRef s)
    (cheatingAlertsRef s) (timerCleanup s) (liveIntervals s)
    (nextInterval s) (trackOnended s) (pending s) (outputs s).

Definition set_screenChunksRef (v : list Blob) (s : State) : State :=
  mkState (responseId s) (transcript s) (isRecording s) (loading s)
    (error s) (interviewComplete s) (timeRemaining s) (socketConnected s)
    (screenSharingStopped s) (sessionInitializedRef s) (socketRef s)
    (timerIntervalRef s) (mediaRecorderRef s) (screenRecorderRef s) v
    (screenStreamRef s) (screenChunkIndexRef s) (tabSwitchCountRef s)
    (cheatingAlertsRef s) (timerCleanup s) (liveIntervals s)
    (nextInterval s) (trackOnended s) (pending s) (outputs s).

Definition set_screenStreamRef (v : option MediaStream) (s : State) : State :=
  mkState (responseId s) (transcript s) (isRecording s) (loading s)
    (error s) (interviewComplete s) (timeRemaining s) (socketConnected s)
    (screenSharingStopped s) (sessionInitializedRef s) (socketRef s)
    (timerIntervalRef s) (mediaRecorderRef s) (screenRecorderRef s)
    (screenChunksRef s) v (screenChunkIndexRef s) (tabSwitchCountRef s)
    (cheatingAlertsRef s) (timerCleanup s) (liveIntervals s)
    (nextInterval s) (trackOnended s) (pending s) (outputs s).

Definition set_screenChunkIndexRef (v : nat) (s : State) : State :=
  mkState (responseId s) (transcript s) (isRecording s) (loading s)
    (error s) (interviewComplete s) (timeRemaining s) (socketConnected s)
    (screenSharingStopped s) (sessionInitializedRef s) (socketRef s)
    (timerIntervalRef s) (mediaRecorderRef s) (screenRecorderRef s)
    (screenChunksRef s) (screenStreamRef s) v (tabSwitchCountRef s)
    (cheatingAlertsRef s) (timerCleanup s) (liveIntervals s)
    (nextInterval s) (trackOnended s) (pending s) (outputs s).

Definition set_tabSwitchCountRef (v : nat) (s : State) : State :=
  mkState (responseId s) (transcript s) (isRecording s) (loading s)
    (error s) (interviewComplete s) (timeRemaining s) (socketConnected s)
    (screenSharingStopped s) (sessionInitializedRef s) (socketRef s)
    (timerIntervalRef s) (mediaRecorderRef s) (screenRecorderRef s)
    (screenChunksRef s) (screenStreamRef s) (screenChunkIndexRef s) v
    (cheatingAlertsRef s) (timerCleanup s) (liveIntervals s)
    (nextInterval s) (trackOnended s) (pending s) (outputs s).

Definition set_cheatingAlertsRef (v : list Alert) (s : State) : State :=
  mkState (responseId s) (transcript s) (isRecording s) (loading s)
    (error s) (interviewComplete s) (timeRemaining s) (socketConnected s)
    (screenSharingStopped s) (sessionInitializedRef s) (socketRef s)
    (timerIntervalRef s) (mediaRecorderRef s) (screenRecorderRef s)
    (screenChunksRef s) (screenStreamRef s) (screenChunkIndexRef s)
    (tabSwitchCountRef s) v (timerCleanup s) (liveIntervals s)
    (nextInterval s) (trackOnended s) (pending s) (outputs s).

Definition set_timerCleanup (v : bool) (s : State) : State :=
  mkState (responseId s) (transcript s) (isRecording s) (loading s)
    (error s) (interviewComplete s) (timeRemaining s) (socketConnected s)
    (screenSharingStopped s) (sessionInitializedRef s) (socketRef s)
    (timerIntervalRef s) (mediaRecorderRef s) (screenRecorderRef s)
    (screenChunksRef s) (screenStreamRef s) (screenChunkIndexRef s)
    (tabSwitchCountRef s) (cheatingAlertsRef s) v (liveIntervals s)
    (nextInterval s) (trackOnended s) (pending s) (outputs s).

Definition set_liveIntervals (v : list nat) (s : State) : State :=
  mkState (responseId s) (transcript s) (isRecording s) (loading s)
    (error s) (interviewComplete s) (timeRemaining s) (socketConnected s)
    (screenSharingStopped s) (sessionInitializedRef s) (socketRef s)
    (timerIntervalRef s) (mediaRecorderRef s) (screenRecorderRef s)
    (screenChunksRef s) (screenStreamRef s) (screenChunkIndexRef s)
    (tabSwitchCountRef s) (cheatingAlertsRef s) (timerCleanup s) v
    (nextInterval s) (trackOnended s) (pending s) (outputs s).

Definition set_nextInterval (v : nat) (s : State) : State :=
  mkState (responseId s) (transcript s) (isRecording s) (loading s)
    (error s) (interviewComplete s) (timeRemaining s) (socketConnected s)
    (screenSharingStopped s) (sessionInitializedRef s) (socketRef s)
    (timerIntervalRef s) (mediaRecorderRef s) (screenRecorderRef s)
    (screenChunksRef s) (screenStreamRef s) (screenChunkIndexRef s)
    (tabSwitchCountRef s) (cheatingAlertsRef s) (timerCleanup s)
    (liveIntervals s) v (trackOnended s) (pending s) (outputs s).

Definition set_trackOnended (v : option (option string)) (s : State) : State :=
  mkState (responseId s) (transcript s) (isRecording s) (loading s)
    (error s) (interviewComplete s) (timeRemaining s) (socketConnected s)
    (screenSharingStopped s) (sessionInitializedRef s) (socketRef s)
    (timerIntervalRef s) (mediaRecorderRef s) (screenRecorderRef s)
    (screenChunksRef s) (screenStreamRef s) (screenChunkIndexRef s)
    (tabSwitchCountRef s) (cheatingAlertsRef s) (timerCleanup s)
    (liveIntervals s) (nextInterval s) v (pending s) (outputs s).

Definition set_pending (v : list Pending) (s : State) : State :=
  mkState (responseId s) (transcript s) (isRecording s) (loading s)
    (error s) (interviewComplete s) (timeRemaining s) (socketConnected s)
    (screenSharingStopped s) (sessionInitializedRef s) (socketRef s)
    (timerIntervalRef s) (mediaRecorderRef s) (screenRecorderRef s)
    (screenChunksRef s) (screenStreamRef s) (screenChunkIndexRef s)
    (tabSwitchCountRef s) (cheatingAlertsRef s) (timerCleanup s)
    (liveIntervals s) (nextInterval s) (trackOnended s) v (outputs s).

Definition set_outputs (v : list Output) (s : State) : State :=
  mkState (responseId s) (transcript s) (isRecording s) (loading s)
    (error s) (interviewComplete s) (timeRemaining s) (socketConnected s)
    (screenSharingStopped s) (sessionInitializedRef s) (socketRef s)
    (timerIntervalRef s) (mediaRecorderRef s) (screenRecorderRef s)
    (screenChunksRef s) (screenStreamRef s) (screenChunkIndexRef s)
    (tabSwitchCountRef s) (cheatingAlertsRef s) (timerCleanup s)
    (liveIntervals s) (nextInterval s) (trackOnended s) (pending s) v.

Definition init : State :=
  mkState None "" false false "" false None false false
    false false None None None [] None 0 0 []
    false [] 0 None [] [].

(** *** Small helpers *)

(** Truthiness of a [string | null] value: [null] and [''] are falsy. *)
Definition truthy (o : option string) : bool :=
  match o with
  | None => false
  | Some EmptyString => false
  | Some _ => true
  end.

Definition emit (o : Output) (s : State) : State :=
  set_outputs (outputs s ++ [o])%list s.

(** [`${n}`] for a non-negative integer. *)
Definition string_of_nat (n : nat) : string :=
  NilEmpty.string_of_uint (Nat.to_uint n).

(** [hay.includes(needle)] *)
Definition includes_string (needle hay : string) : bool :=
  match String.index 0 needle hay with
  | Some _ => true
  | None => false
  end.

Definition clearInterval (h : nat) (s : State) : State :=
  set_liveIntervals (List.remove Nat.eq_dec h (liveIntervals s)) s.

Definition setInterval (s : State) : nat * State :=
  let h := nextInterval s in
  (h, set_nextInterval (S h) (set_liveIntervals (liveIntervals s ++ [h])%list s)).

(** [if (timerIntervalRef.current) { clearInterval(...); ... = null; }] *)
Definition clearTimer (s : State) : State :=
  match timerIntervalRef s with
  | Some h => set_timerIntervalRef None (clearInterval h s)
  | None => s
  end.

(** *** What the environment answers *)

Inductive QuestionEnv : Type :=
| QFail (msg : string)     (* not ok, or the request failed *)
| QComplete                (* [complete] or [interview_complete] *)
| QNext.                   (* a question, with or without audio *)

Inductive EndEnv : Type :=
| EndFail (msg : string)   (* not ok ('Failed to end interview') or failed *)
| EndOk.

Inductive SubmitEnv : Type :=
| SubmitFail (msg : string)
| SubmitComplete           (* [complete] or [interview_completed] *)
| SubmitNext (q : QuestionEnv).

Record ScreenEnv : Type := {
  displayMedia : string + MediaStream;  (* [getDisplayMedia]: rejects or resolves *)
  recorderError : option string         (* [new MediaRecorder] throws *)
}.

Record StartData : Type := {
  response_id : option string;
  duration_minutes : option Z
}.

Inductive StartEnv : Type :=
| StartFail (msg : string)
| StartOk (data : StartData) (q : QuestionEnv) (scr : ScreenEnv).

Inductive AckOutcome : Type :=
| Saved                             (* [video_chunk_saved] with [ok] *)
| NoAck                             (* nothing within 10000 ms *)
| SocketError (msg : option string). (* an [error] event, [error.error] *)

(** [socketAt k]: whether [socketRef.current] is set and connected at the
    [k]-th test of the waiting loop, the tests being 100 ms apart. *)
Record ChunkEnv : Type := {
  readerResult : option jsstring;
  socketAt : nat -> bool;
  ack : AckOutcome
}.

Record Props : Type := {
  screenPermissionGranted : bool;
  existingScreenStream : option MediaStream
}.

Section Handlers.

(** The answer of the backend to the [n]-th [end-interview] request. *)
Variable endResponse : nat -> EndEnv.

Variable props : Props.

Definition is_end_request (o : Output) : bool :=
  match o with
  | Post_end_interview _ => true
  | _ => false
  end.

Definition end_requests (s : State) : nat :=
  List.length (filter is_end_request (outputs s)).

(** [recordCheatingAlert], with the [responseId] of the closure it is
    called from. *)
Definition recordCheatingAlert (closureResponseId : option string)
    (type : string) (details : option string) (now : Z) (s : State) : State :=
  let s :=
    set_cheatingAlertsRef
      (cheatingAlertsRef s
       ++ [{| alert_type := type; alert_timestamp := now;
              alert_details := details |}])%list s in
  match closureResponseId with
  | Some rid =>
      if truthy closureResponseId
      then emit (Post_cheating_alert rid type details) s
      else s
  | None => s
  end.

(** [stopScreenRecording]: the recorder is flushed and stopped, the
    tracks of the stream are stopped (a stopped track fires no
    [ended] event any more) and the stream is dropped. *)
Definition stopScreenRecording (s : State) : State :=
  let s :=
    match screenRecorderRef s with
    | Some r =>
        match rec_state r with
        | inactive => s
        | _ => set_screenRecorderRef
                 (Some {| rec_state := inactive; rec_resId := rec_resId r |}) s
        end
    | None => s
    end in
  match screenStreamRef s with
  | Some _ => set_trackOnended None (set_screenStreamRef None s)
  | None => s
  end.

Definition endInterviewManually (s : State) : State :=
  match responseId s with
  | Some rid =>
      if negb (truthy (responseId s)) || interviewComplete s then s
      else
        let s := clearTimer s in
        let s := set_loading true s in
        let s :=
          match screenRecorderRef s with
          | Some _ => stopScreenRecording s
          | None => s
          end in
        let s := if socketRef s then emit Emit_end_interview s else s in
        let answer := endResponse (end_requests s) in
        let s := emit (Post_end_interview rid) s in
        let s :=
          match answer with
          | EndFail msg => set_error msg s
          | EndOk =>
              let s := set_interviewComplete true s in
              emit (Get_response rid) s
          end in
        set_loading false s
  | None => s
  end.

(** The per-second callback handed to [setInterval]. *)
Definition tick (prev : option Z) : option Z :=
  match prev with
  | None => Some 0%Z
  | Some p => if (p <=? 1)%Z then Some 0%Z else Some (p - 1)%Z
  end.

(** The timer effect, dependencies
    [[timeRemaining, interviewComplete, responseId]]: the clean-up of
    its previous run, then its body. *)
Definition timerEffect_cleanup (s : State) : State :=
  if timerCleanup s then
    match timerIntervalRef s with
    | Some h => clearInterval h s
    | None => s
    end
  else s.

Definition timer_stopped (s : State) : bool :=
  match timeRemaining s with
  | None => true
  | Some t => (t <=? 0)%Z || interviewComplete s
  end.

Definition timerEffect (s : State) : State :=
  let s := timerEffect_cleanup s in
  if timer_stopped s then
    let s := clearTimer s in
    let s := set_timerCleanup false s in
    match timeRemaining s with
    | Some 0%Z =>
        if negb (interviewComplete s) && truthy (responseId s)
        then endInterviewManually s
        else s
    | _ => s
    end
  else
    let (h, s) := setInterval s in
    set_timerCleanup true (set_timerIntervalRef (Some h) s).

(** The effect with dependencies [[interviewComplete, responseId]]
    that stops the screen recording once the interview is complete. *)
Definition completeEffect (s : State) : State :=
  match screenRecorderRef s with
  | Some _ =>
      if interviewComplete s && truthy (responseId s)
      then stopScreenRecording s
      else s
  | None => s
  end.

(** [fetchCurrentQuestion]: its own [try] turns a failure into an
    error message. *)
Definition fetchCurrentQuestion (resId : string) (q : QuestionEnv)
    (s : State) : State :=
  let s := emit (Get_current_question resId) s in
  match q with
  | QFail msg => set_error msg s
  | QComplete => set_interviewComplete true s
  | QNext => s
  end.

(** *** Screen pipeline *)

Definition recorder_active (s : State) : bool :=
  match screenRecorderRef s with
  | Some r =>
      match rec_state r with
      | inactive => false
      | _ => true
      end
  | None => false
  end.

Definition same_first_track (existingTrack : Track) (s : State) : bool :=
  match screenStreamRef s with
  | Some cur =>
      match videoTracks cur with
      | t :: _ => String.eqb (track_id t) (track_id existingTrack)
      | [] => false
      end
  | None => false
  end.

(** The result of an [async] function that may throw after it has
    changed the state: the state, and the message thrown if any. *)
Definition Outcome : Type := (State * option string)%type.

(** The double quote, code 34. *)
Definition dquote : string := String (ascii_of_nat 34) EmptyString.

Definition full_screen_required : string :=
  "Full screen sharing is required. Please select " ++ dquote
  ++ "Entire Screen" ++ dquote ++ " instead of a single window or tab.".

(** [getDisplayMedia] and the validation of the new stream. *)
Definition requestDisplayStream (env : ScreenEnv) (s : State)
    : State * (string + MediaStream) :=
  let s := emit GetDisplayMedia s in
  match displayMedia env with
  | inl msg => (s, inl msg)
  | inr newStream =>
      match videoTracks newStream with
      | [] => (s, inl "Cannot read properties of undefined (reading 'getSettings')")
      | videoTrack :: _ =>
          match track_displaySurface videoTrack with
          | Some surface =>
              if String.eqb surface "monitor" then (s, inr newStream)
              else (s, inl full_screen_required)
          | None => (s, inr newStream)
          end
      end
  end.

(** [startScreenRecording(resId, useExistingStream)], called from a
    closure whose [responseId] is [closureResponseId].  [None] for the
    stream to use means that the function returns early. *)
Definition existingDisplayStream (useExistingStream : option MediaStream)
    (s : State) : option (option MediaStream) :=
  match useExistingStream with
  | Some existing =>
      match videoTracks existing with
      | existingTrack :: _ =>
          match track_readyState existingTrack with
          | ended => Some None
          | live =>
              if same_first_track existingTrack s then None
              else Some (Some existing)
          end
      | [] => Some None
      end
  | None => Some None
  end.

Definition startRecorder (closureResponseId : option string)
    (resId : string) (env : ScreenEnv) (finalStream : MediaStream)
    (s : State) : Outcome :=
  let s := set_screenStreamRef (Some finalStream) s in
  match videoTracks finalStream with
  | [] => (s, Some "No video track found in screen stream. Please ensure screen sharing is enabled.")
  | videoTrack :: _ =>
      match track_readyState videoTrack with
      | ended => (s, Some "Screen sharing track has ended. Please restart screen sharing.")
      | live =>
          let s := set_trackOnended (Some closureResponseId) s in
          match recorderError env with
          | Some msg => (s, Some msg)
          | None =>
              let s := set_screenRecorderRef
                         (Some {| rec_state := recording; rec_resId := resId |}) s in
              let s := set_screenChunksRef [] s in
              let s := set_screenChunkIndexRef 0 s in
              (s, None)
          end
      end
  end.

Definition startScreenRecording (closureResponseId : option string)
    (resId : string) (useExistingStream : option MediaStream)
    (env : ScreenEnv) (s : State) : Outcome :=
  if recorder_active s then (s, None)
  else
    match existingDisplayStream useExistingStream s with
    | None => (s, None)
    | Some (Some displayStream) =>
        startRecorder closureResponseId resId env displayStream s
    | Some None =>
        match requestDisplayStream env s with
        | (s, inl msg) => (s, Some msg)
        | (s, inr displayStream) =>
            startRecorder closureResponseId resId env displayStream s
        end
    end.

Definition stopped_message : string :=
  "⚠️ Screen sharing was stopped! Please restart screen sharing to continue the interview.".

(** [videoTrack.onended], installed by [startScreenRecording]. *)
Definition videoTrack_onended (closureResponseId : option string)
    (now : Z) (s : State) : State :=
  let s := recordCheatingAlert closureResponseId "screen_sharing_stopped"
             (Some "User stopped screen sharing") now s in
  let s := set_screenSharingStopped true s in
  let s := stopScreenRecording s in
  set_error stopped_message s.

Definition restartScreenSharing (env : ScreenEnv) (s : State) : State :=
  match responseId s with
  | Some rid =>
      if negb (truthy (responseId s)) then s
      else
        let s := set_error EmptyString s in
        match startScreenRecording (responseId s) rid None env s with
        | (s, None) => set_screenSharingStopped false s
        | (s, Some errorMessage) => set_error errorMessage s
        end
  | None => s
  end.

(** *** Microphone recording and answers *)

Definition startRecording (micGranted : bool) (s : State) : State :=
  if negb (socketRef s) || negb (socketConnected s)
  then set_error "Socket not connected. Please wait..." s
  else
    let s := emit GetUserMedia_audio s in
    if micGranted then
      let s := set_mediaRecorderRef (Some recording) s in
      let s := set_isRecording true s in
      set_transcript EmptyString s
    else set_error "Could not access microphone. Please check permissions." s.

Definition stopRecording (s : State) : State :=
  match mediaRecorderRef s with
  | Some inactive => s
  | Some _ => set_isRecording false (set_mediaRecorderRef (Some inactive) s)
  | None => s
  end.

Definition cannot_record : string :=
  "⚠️ Cannot record: Screen sharing is required. Please restart screen sharing to continue.".

Definition cannot_submit : string :=
  "⚠️ Cannot submit: Screen sharing is required. Please restart screen sharing to continue.".

Definition toggleRecording (micGranted : bool) (s : State) : State :=
  if screenSharingStopped s then set_error cannot_record s
  else if isRecording s then stopRecording s
  else startRecording micGranted s.

(** [!transcript.trim()] *)
Definition blank (t : string) : bool :=
  match trim (lit t) with
  | [] => true
  | _ => false
  end.

Definition submitAnswer (env : SubmitEnv) (s : State) : State :=
  match responseId s with
  | Some rid =>
      if negb (truthy (responseId s)) || blank (transcript s)
         || String.eqb (transcript s) "Recording..."
      then set_error "Please record an answer first" s
      else if screenSharingStopped s then set_error cannot_submit s
      else
        let s := set_loading true s in
        let s := if isRecording s then stopRecording s else s in
        let s := emit (Post_submit_answer rid (transcript s)) s in
        let s :=
          match env with
          | SubmitFail msg => set_error msg s
          | SubmitComplete => set_interviewComplete true s
          | SubmitNext q =>
              let s := set_transcript EmptyString s in
              let s := fetchCurrentQuestion rid q s in
              if socketRef s && socketConnected s
              then emit (Emit_start_interview (Some rid)) s
              else s
          end in
        set_loading false s
  | None => set_error "Please record an answer first" s
  end.

(** *** Session start (the mount effect) *)

(** The [catch] around the screen start in [startSession]: validation
    messages are only logged. *)
Definition is_validation_message (errorMessage : string) : bool :=
  includes_string "Full screen sharing" errorMessage
  || includes_string "enable audio" errorMessage.

Definition startSession (env : StartEnv) (s : State) : State :=
  if sessionInitializedRef s then s
  else
    let s := set_loading true s in
    let s := emit Post_start_interview s in
    let s :=
      match env with
      | StartFail msg => set_error msg s
      | StartOk data q scr =>
          let s := set_sessionInitializedRef true s in
          let s := set_responseId (response_id data) s in
          let s :=
            match duration_minutes data with
            | Some minutes =>
                if (0 <? minutes)%Z
                then set_timeRemaining (Some (minutes * 60)%Z) s
                else s
            | None => s
            end in
          let s := set_socketRef true s in
          match response_id data with
          | Some rid =>
              if truthy (response_id data) then
                let s := fetchCurrentQuestion rid q s in
                if screenPermissionGranted props && negb (recorder_active s)
                then
                  (* the closure of the first render: [responseId] is null *)
                  match startScreenRecording None rid
                          (existingScreenStream props) scr s with
                  | (s, None) => s
                  | (s, Some errorMessage) =>
                      if is_validation_message errorMessage then s
                      else set_error errorMessage s
                  end
                else s
              else s
          | None => s
          end
      end in
    set_loading false s.

(** *** Integrity monitor *)

Definition tab_warning (count : nat) : string :=
  "⚠️ Warning: You switched tabs. This is being monitored. (Count: "
  ++ string_of_nat count ++ ")".

Definition tab_terminated : string :=
  "Interview terminated: Multiple tab switches detected. This indicates suspicious activity.".

Definition handleVisibilityChange (hidden : bool) (now : Z) (s : State)
    : State :=
  if hidden then
    let s := set_tabSwitchCountRef (S (tabSwitchCountRef s)) s in
    let count := tabSwitchCountRef s in
    let s := recordCheatingAlert (responseId s) "tab_switch"
               (Some ("Tab switched (count: " ++ string_of_nat count ++ ")"))
               now s in
    let s := set_error (tab_warning count) s in
    if (3 <=? count)%nat then endInterviewManually (set_error tab_terminated s)
    else s
  else s.

Definition handleBlur (now : Z) (s : State) : State :=
  recordCheatingAlert (responseId s) "window_blur"
    (Some "Window lost focus") now s.

(** The listeners are registered by an effect with dependencies
    [[responseId, interviewComplete]] that returns early when there is
    no [responseId] or the interview is complete. *)
Definition monitoring (s : State) : bool :=
  truthy (responseId s) && negb (interviewComplete s).

(** *** Screen chunks *)

Definition maxWait : Z := 5000.
Definition pollInterval : Z := 100.

(** The loop that waits for the socket: [k] tests have been made,
    [sleeps] more fit before [maxWait].  The result is whether the
    socket is connected when the loop is left. *)
Fixpoint waitForSocket (sleeps k : nat) (socketAt : nat -> bool) : bool :=
  if socketAt k then true
  else
    match sleeps with
    | 0 => false
    | S sleeps' => waitForSocket sleeps' (S k) socketAt
    end.

Definition socketReady (env : ChunkEnv) : bool :=
  waitForSocket (Z.to_nat (maxWait / pollInterval)) 0 (socketAt env).

(** [screenRecorder.ondataavailable] up to its first [await]. *)
Definition ondataavailable (resId : string) (data : option Blob)
    (s : State) : State :=
  match data with
  | Some d =>
      if (0 <? blob_size d)%nat then
        let s := set_screenChunksRef (screenChunksRef s ++ [d])%list s in
        let chunkIndex := screenChunkIndexRef s in
        set_pending
          (pending s
           ++ [{| p_resId := resId; p_chunkIndex := chunkIndex;
                  p_data := d |}])%list s
      else s
  | None => s
  end.

Definition ack_error_message (msg : option string) : string :=
  match msg with
  | Some m => if truthy msg then m else "Failed to save video chunk"
  | None => "Failed to save video chunk"
  end.

(** The body of the [try] of the handler, from the [FileReader] on. *)
Definition sendChunk (p : Pending) (env : ChunkEnv) (s : State) : Outcome :=
  match Base64.blobToBase64 (readerResult env) with
  | inl err => (s, Some err)
  | inr base64Chunk =>
      if socketReady env then
        let s := emit (Log_sending_chunk (p_chunkIndex p)) s in
        let s := emit (Emit_save_video_chunk (p_resId p) base64Chunk "mp4") s in
        match ack env with
        | Saved =>
            (set_screenChunkIndexRef (S (screenChunkIndexRef s)) s, None)
        | NoAck =>
            (s, Some "Timeout waiting for video_chunk_saved confirmation")
        | SocketError msg => (s, Some (ack_error_message msg))
        end
      else (s, Some "Socket not connected, cannot send video chunk")
  end.

(** The rest of the handler: the [try] with its [catch], which logs
    the error and lets the recording go on.  The second component is
    the exception that leaves the handler. *)
Definition ondataavailable_resume (p : Pending) (env : ChunkEnv)
    (s : State) : Outcome :=
  match sendChunk p env s with
  | (s, Some err) => (s, None)
  | (s, None) => (s, None)
  end.

(** *** Events *)

Inductive Event : Type :=
| Mount (env : StartEnv)
| SocketConnect
| SocketDisconnect
| PartialTranscript (text : string) (is_final : bool)
| TranscriptResult (text : string)
| TimerTick
| VisibilityChange (hidden : bool) (now : Z)
| WindowBlur (now : Z)
| ToggleRecording (micGranted : bool)
| SubmitAnswer (env : SubmitEnv)
| EndInterview
| RestartScreenSharing (env : ScreenEnv)
| ScreenTrackEnded (now : Z)
| DataAvailable (data : option Blob)
| ChunkResume (k : nat) (env : ChunkEnv).

Definition appendTranscript (text : string) (s : State) : State :=
  let prev := transcript s in
  set_transcript
    ((if truthy (Some prev) then prev ++ " " else EmptyString) ++ text) s.

Fixpoint remove_nth {A} (k : nat) (l : list A) : list A :=
  match k, l with
  | _, [] => []
  | 0, _ :: r => r
  | S k', x :: r => x :: remove_nth k' r
  end.

(** What an event runs, before React renders again. *)
Definition handle (ev : Event) (s : State) : State :=
  match ev with
  | Mount env => startSession env s
  | SocketConnect =>
      if socketRef s
      then emit (Emit_start_interview (responseId s))
             (set_socketConnected true s)
      else s
  | SocketDisconnect =>
      if socketRef s then set_socketConnected false s else s
  | PartialTranscript text is_final =>
      if socketRef s then
        if is_final then appendTranscript text s else s
      else s
  | TranscriptResult text =>
      if socketRef s then appendTranscript text s else s
  | TimerTick =>
      match liveIntervals s with
      | [] => s
      | _ :: _ => set_timeRemaining (tick (timeRemaining s)) s
      end
  | VisibilityChange hidden now =>
      if monitoring s then handleVisibilityChange hidden now s else s
  | WindowBlur now =>
      if monitoring s then handleBlur now s else s
  | ToggleRecording micGranted => toggleRecording micGranted s
  | SubmitAnswer env => submitAnswer env s
  | EndInterview => endInterviewManually s
  | RestartScreenSharing env => restartScreenSharing env s
  | ScreenTrackEnded now =>
      match trackOnended s with
      | Some closureResponseId => videoTrack_onended closureResponseId now s
      | None => s
      end
  | DataAvailable data =>
      match screenRecorderRef s with
      | Some r => ondataavailable (rec_resId r) data s
      | None => s
      end
  | ChunkResume k env =>
      match nth_error (pending s) k with
      | Some p =>
          fst (ondataavailable_resume p env
                 (set_pending (remove_nth k (pending s)) s))
      | None => s
      end
  end.

(** *** Rendering: effects whose dependencies changed run again *)

Definition option_eqb {A} (eqb : A -> A -> bool) (x y : option A) : bool :=
  match x, y with
  | Some a, Some b => eqb a b
  | None, None => true
  | _, _ => false
  end.

Definition same_timer_deps (a b : State) : bool :=
  option_eqb Z.eqb (timeRemaining a) (timeRemaining b)
  && Bool.eqb (interviewComplete a) (interviewComplete b)
  && option_eqb String.eqb (responseId a) (responseId b).

Definition same_complete_deps (a b : State) : bool :=
  Bool.eqb (interviewComplete a) (interviewComplete b)
  && option_eqb String.eqb (responseId a) (responseId b).

(** One render: [before] is the state of the previous render. *)
Definition render (before s : State) : State :=
  let s1 := if same_timer_deps before s then s else timerEffect s in
  if same_complete_deps before s then s1 else completeEffect s1.

(** An effect can change the state once more (the timer effect ends
    the interview), which renders again; see [settle_stable]. *)
Definition settle (before s : State) : State :=
  let s1 := render before s in
  render s s1.

Definition step (s : State) (ev : Event) : State :=
  settle s (handle ev s).

Definition run (s : State) (evs : list Event) : State :=
  fold_left step evs s.

End Handlers.

(** *** Notions used to state the properties *)

(** The state in which [endInterviewManually] sends its request. *)
Definition before_end_request (s : State) : State :=
  let s := set_loading true (clearTimer s) in
  let s :=
    match screenRecorderRef s with
    | Some _ => stopScreenRecording s
    | None => s
    end in
  if socketRef s then emit Emit_end_interview s else s.

(** Whether the event is a restart of screen sharing that succeeds in
    state [s]: there is a [responseId] and [startScreenRecording] does
    not throw. *)
Definition restart_succeeds (s : State) (ev : Event) : bool :=
  match ev with
  | RestartScreenSharing env =>
      match responseId s with
      | Some rid =>
          truthy (responseId s)
          && match snd (startScreenRecording (responseId s) rid None env
                          (set_error EmptyString s)) with
             | None => true
             | Some _ => false
             end
      | None => false
      end
  | _ => false
  end.

(** No event of the list is a restart that succeeds where it occurs. *)
Fixpoint no_restart (endResponse : nat -> EndEnv) (props : Props)
    (s : State) (evs : list Event) : bool :=
  match evs with
  | [] => true
  | ev :: rest =>
      negb (restart_succeeds s ev)
      && no_restart endResponse props (step endResponse props s ev) rest
  end.

Definition tab_switch_alert (count : nat) (now : Z) : Alert :=
  {| alert_type := "tab_switch";
     alert_timestamp := now;
     alert_details :=
       Some ("Tab switched (count: " ++ string_of_nat count ++ ")") |}.

Definition screen_stopped_alert (now : Z) : Alert :=
  {| alert_type := "screen_sharing_stopped";
     alert_timestamp := now;
     alert_details := Some "User stopped screen sharing" |}.

(** The countdown runs: [t] seconds remain, the interview goes on, and
    the one live interval is the one [timerIntervalRef] holds. *)
Record counting (s : State) (t : Z) : Prop := {
  counting_time : timeRemaining s = Some t;
  counting_going : interviewComplete s = false;
  counting_session : truthy (responseId s) = true;
  counting_ref : exists h, timerIntervalRef s = Some h /\ liveIntervals s = [h];
  counting_cleanup : timerCleanup s = true
}.

(** The fields that starting the screen recording leaves alone, and
    the number of requests to end the interview. *)
Record screen_frame (s s' : State) : Prop := {
  frame_responseId : responseId s' = responseId s;
  frame_interviewComplete : interviewComplete s' = interviewComplete s;
  frame_timeRemaining : timeRemaining s' = timeRemaining s;
  frame_timerCleanup : timerCleanup s' = timerCleanup s;
  frame_timerIntervalRef : timerIntervalRef s' = timerIntervalRef s;
  frame_liveIntervals : liveIntervals s' = liveIntervals s;
  frame_nextInterval : nextInterval s' = nextInterval s;
  frame_end_requests :
    filter is_end_request (outputs s') = filter is_end_request (outputs s)
}.

Definition is_complete (q : QuestionEnv) : bool :=
  match q with
  | QComplete => true
  | _ => false
  end.

(** *** Screen chunks: what is sent, and under which number *)

(** The numbers of the send log, oldest first. *)
Definition sent_number (o : Output) : list nat :=
  match o with
  | Log_sending_chunk chunkIndex => [chunkIndex]
  | _ => []
  end.

Definition sent_numbers (s : State) : list nat :=
  flat_map sent_number (outputs s).

(** The upload of a chunk fails: the socket is still down when the wait
    ends, no acknowledgement comes in time, or an error is answered. *)
Definition upload_fails (env : ChunkEnv) : bool :=
  negb (socketReady env)
  || match ack env with
     | Saved => false
     | NoAck => true
     | SocketError _ => true
     end.


Definition readable (env : ChunkEnv) : bool :=
  match Base64.blobToBase64 (readerResult env) with
  | inr _ => true
  | inl _ => false
  end.




(** [timeRemaining] is [null] or a number that is not negative. *)
Definition time_not_negative (s : State) : Prop :=
  match timeRemaining s with
  | Some t => (0 <= t)%Z
  | None => True
  end.

(** The fields that neither [endInterviewManually] nor an effect
    writes. *)
Record untouched (s s' : State) : Prop := {
  same_responseId : responseId s' = responseId s;
  same_transcript : transcript s' = transcript s;
  same_isRecording : isRecording s' = isRecording s;
  same_timeRemaining : timeRemaining s' = timeRemaining s;
  same_screenSharingStopped : screenSharingStopped s' = screenSharingStopped s;
  same_mediaRecorderRef : mediaRecorderRef s' = mediaRecorderRef s;
  same_screenChunksRef : screenChunksRef s' = screenChunksRef s;
  same_screenChunkIndexRef : screenChunkIndexRef s' = screenChunkIndexRef s;
  same_tabSwitchCountRef : tabSwitchCountRef s' = tabSwitchCountRef s;
  same_cheatingAlertsRef : cheatingAlertsRef s' = cheatingAlertsRef s;
  same_pending : pending s' = pending s
}.

End Session.

(* ------------------------------------------------------------------ *)
(** ** A concrete session

    A backend that accepts every request, a candidate who shares the
    whole screen before the interview starts, and a session of ten
    minutes: the inputs at which the properties below are exercised. *)

Module Scenario.
Import Js Session.
Local Open Scope string_scope.

Definition backend : nat -> EndEnv := fun _ => EndOk.

Definition screen : MediaStream :=
  {| videoTracks :=
       [{| track_id := "screen-1"; track_readyState := live;
           track_displaySurface := Some "monitor" |}] |}.

Definition props : Props :=
  {| screenPermissionGranted := true; existingScreenStream := Some screen |}.

Definition share : ScreenEnv :=
  {| displayMedia := inr screen; recorderError := None |}.

Definition start (minutes : Z) : Event :=
  Mount (StartOk {| response_id := Some "resp-1";
                    duration_minutes := Some minutes |} QNext share).

(** The session after its start, with the socket connected. *)
Definition started : State :=
  run backend props init [start 10; SocketConnect].

Definition chunk : Blob := {| blob_size := 2048; blob_type := "video/mp4" |}.

Definition dataUrl : jsstring := lit "data:video/mp4;base64,GkXfo6NChoEB".

(** The chunk is read and emitted; the acknowledgement is [ack]. *)
Definition upload (ack : AckOutcome) : ChunkEnv :=
  {| readerResult := Some dataUrl; socketAt := fun _ => true; ack := ack |}.


(** The session once the interview has been ended. *)
Definition ended_session : State :=
  run backend props started [EndInterview].

End Scenario.

(* ------------------------------------------------------------------ *)
(** ** Further notions of the session controller

    Invariants of the component and the parts of it that the session
    record does not hold: the clock shown to the candidate and the
    periodic check of the screen track. *)

Module SessionExtra.
Import Js Session.
Local Open Scope string_scope.

(** *** Invariants *)

(** The timer reference and the scheduled intervals agree: the interval
    the reference holds is the only one scheduled. *)
Definition timer_ok (s : State) : Prop :=
  match timerIntervalRef s with
  | Some h => liveIntervals s = [h] /\ timerCleanup s = true
  | None => liveIntervals s = []
  end.

Definition is_tab_switch (a : Alert) : bool :=
  String.eqb (alert_type a) "tab_switch".

(** The counter of tab switches is the number of [tab_switch] entries of
    the alert log. *)
Definition tab_count_ok (s : State) : Prop :=
  tabSwitchCountRef s = length (filter is_tab_switch (cheatingAlertsRef s)).

Definition blur_alert (now : Z) : Alert :=
  {| alert_type := "window_blur";
     alert_timestamp := now;
     alert_details := Some "Window lost focus" |}.

(** The alerts an event adds to the log in state [s]. *)
Definition new_alerts (ev : Event) (s : State) : list Alert :=
  match ev with
  | VisibilityChange true now =>
      if monitoring s
      then [tab_switch_alert (S (tabSwitchCountRef s)) now]
      else []
  | WindowBlur now => if monitoring s then [blur_alert now] else []
  | ScreenTrackEnded now =>
      match trackOnended s with
      | Some _ => [screen_stopped_alert now]
      | None => []
      end
  | _ => []
  end.

(** The timer's three fields are the same in both states. *)
Definition timer_same (s s' : State) : Prop :=
  timerIntervalRef s' = timerIntervalRef s
  /\ liveIntervals s' = liveIntervals s
  /\ timerCleanup s' = timerCleanup s.

(** The timer is in order, and cancelled once the interview is
    complete. *)
Definition timer_settled (s : State) : Prop :=
  timer_ok s /\ (interviewComplete s = true -> liveIntervals s = []).

(** Before the session has started there is no [responseId]. *)
Definition fresh_ok (s : State) : Prop :=
  sessionInitializedRef s = false -> responseId s = None.

(** The countdown stands still at [t]: no interval is scheduled and the
    reference is empty, in a session that has started. *)
Record frozen (s : State) (t : Z) : Prop := {
  frozen_time : timeRemaining s = Some t;
  frozen_live : liveIntervals s = [];
  frozen_ref : timerIntervalRef s = None;
  frozen_started : sessionInitializedRef s = true
}.

(** *** Requests *)

(** The log of requests grows from [s] to [s'] by entries that all
    satisfy [P]. *)
Definition extends (P : Output -> Prop) (s s' : State) : Prop :=
  exists extra,
    outputs s' = (outputs s ++ extra)%list /\ Forall P extra.




Definition not_restart (ev : Event) : bool :=
  match ev with
  | RestartScreenSharing _ => false
  | _ => true
  end.

(** The handler on the screen track, if any, is the one installed by
    the session start: the [responseId] of its closure is [null]. *)
Definition first_onended (s : State) : Prop :=
  trackOnended s = None \/ trackOnended s = Some None.

(** The session identifier a request carries, if any. *)
Definition carried (o : Output) : option string :=
  match o with
  | Get_current_question r => Some r
  | Post_submit_answer r _ => Some r
  | Post_end_interview r => Some r
  | Get_response r => Some r
  | Post_cheating_alert r _ _ => Some r
  | Emit_start_interview r => r
  | Emit_save_video_chunk r _ _ => Some r
  | _ => None
  end.

(** A request that names a session names the session [rid]. *)
Definition carries (rid : option string) (o : Output) : Prop :=
  forall r, carried o = Some r -> rid = Some r.

(** The identifiers kept outside the state variable (on the recorder,
    in the suspended chunk handlers and in the closure of the handler on
    the screen track) are [rid]. *)
Definition refs_ok (rid : option string) (s : State) : Prop :=
  (forall r, screenRecorderRef s = Some r -> rid = Some (rec_resId r))
  /\ Forall (fun p => rid = Some (p_resId p)) (pending s)
  /\ (forall c, trackOnended s = Some (Some c) -> rid = Some c).

Definition ids_ok (s : State) : Prop :=
  Forall (carries (responseId s)) (outputs s)
  /\ refs_ok (responseId s) s
  /\ fresh_ok s.

(** What [endInterviewManually] sends. *)
Definition end_traffic (rid : option string) (o : Output) : Prop :=
  o = Emit_end_interview
  \/ exists r, rid = Some r /\ (o = Post_end_interview r \/ o = Get_response r).

(** From [a] to [b] the requests sent name the session [rid], which is
    the [responseId] of [b], and so do the identifiers [b] keeps. *)
Definition sends_for (rid : option string) (a b : State) : Prop :=
  extends (carries rid) a b /\ refs_ok rid b /\ responseId b = rid.

(** Two states with the same requests and the same identifiers. *)
Definition same_ids (b b' : State) : Prop :=
  outputs b' = outputs b
  /\ screenRecorderRef b' = screenRecorderRef b
  /\ pending b' = pending b
  /\ trackOnended b' = trackOnended b
  /\ responseId b' = responseId b.

(** *** The transcript *)

(** The text a socket message adds to the transcript: a partial
    transcript only when it is final. *)
Definition heard (ev : Event) : list string :=
  match ev with
  | PartialTranscript text true => [text]
  | TranscriptResult text => [text]
  | _ => []
  end.

Definition is_transcript_message (ev : Event) : bool :=
  match ev with
  | PartialTranscript _ _ => true
  | TranscriptResult _ => true
  | _ => false
  end.

(** A list of texts without its leading empty ones. *)
Fixpoint drop_empty (texts : list string) : list string :=
  match texts with
  | EmptyString :: rest => drop_empty rest
  | _ => texts
  end.

(** *** The clock *)

(** [n.toString()] for an integer. *)
Definition number_toString (n : Z) : string :=
  NilZero.string_of_int (Z.to_int n).

(** [str.padStart(targetLength, pad)] for a one-character [pad]. *)
Definition padStart (targetLength : nat) (pad : ascii) (str : string)
    : string :=
  string_of_list_ascii (repeat pad (targetLength - String.length str))
  ++ str.

(** [Number.MAX_SAFE_INTEGER]: up to it a number holds every integer
    exactly, [Math.floor(seconds / 60)] is the integer quotient, and
    [toString] writes plain decimal digits. *)
Definition max_safe_integer : Z := 9007199254740991.

(** [formatTime] on a whole number of seconds, which is what
    [timeRemaining] holds when the duration is a whole number of
    minutes: [Math.floor] rounds down and [%] takes the sign of the
    dividend.  A number with a fraction is outside this function: its
    seconds are written with the fraction ([formatTime(0.6)] is
    [00:0.6]). *)
Definition formatTime (seconds : Z) : string :=
  let mins := (seconds / 60)%Z in
  let secs := Z.rem seconds 60 in
  padStart 2 "0" (number_toString mins) ++ ":"
  ++ padStart 2 "0" (number_toString secs).

(** *** The periodic check of the screen track *)

Record Monitor : Type := {
  lastScreenActivityRef : Z;            (* a reading of [Date.now()] *)
  screenCheckIntervalRef : option nat
}.

Definition readyState_eqb (a b : ReadyState) : bool :=
  match a, b with
  | live, live => true
  | ended, ended => true
  | _, _ => false
  end.

(** The callback that [startScreenActivityMonitoring] schedules every
    five seconds.  [closureComplete] and [closureResponseId] are the
    [interviewComplete] and the [responseId] of the render whose
    closure scheduled it; [readyState] is what the first video track of
    the stream reports when the callback runs; [now1], [now2] and
    [now3] are the readings of [Date.now()] the callback makes, in
    order (the last one inside [recordCheatingAlert]). *)
Definition screenCheck (closureComplete : bool)
    (closureResponseId : option string) (readyState : ReadyState)
    (now1 now2 now3 : Z) (m : Monitor) (s : State) : Monitor * State :=
  let cleared :=
    match screenCheckIntervalRef m with
    | Some _ => {| lastScreenActivityRef := lastScreenActivityRef m;
                   screenCheckIntervalRef := None |}
    | None => m
    end in
  match screenStreamRef s with
  | None => (cleared, s)
  | Some stream =>
      if closureComplete then (cleared, s)
      else
        match videoTracks stream with
        | [] => (m, s)
        | videoTrack :: _ =>
            if readyState_eqb readyState ended then
              (m, recordCheatingAlert closureResponseId
                    "screen_track_inactive" (Some "Screen track has ended")
                    now3 s)
            else
              let m :=
                if readyState_eqb readyState live
                then {| lastScreenActivityRef := now1;
                        screenCheckIntervalRef := screenCheckIntervalRef m |}
                else m in
              let now := now2 in
              let timeSinceActivity := (now - lastScreenActivityRef m)%Z in
              if (30000 <? timeSinceActivity)%Z then
                (m, recordCheatingAlert closureResponseId "screen_pause"
                      (Some ("Screen paused for "
                             ++ number_toString (timeSinceActivity / 1000)
                             ++ "s"))
                      now3 s)
              else (m, s)
        end
  end.

(** *** What happens to the component *)

(** The microphone recorder stops on its own (its stream ends, or the
    recorder fails): the browser makes it [inactive] and calls
    [onstop], which stops the tracks of the stream and sets no state of
    the component. *)
Definition microphoneStopped (s : State) : State :=
  match mediaRecorderRef s with
  | Some recording => set_mediaRecorderRef (Some inactive) s
  | Some paused => set_mediaRecorderRef (Some inactive) s
  | Some inactive => s
  | None => s
  end.

(** Besides the events of [Event], the five-second check of the screen
    track runs, with the closure and the readings of [screenCheck] and
    the two references of the monitor as they are at that moment, and
    the microphone recorder stops on its own.  Neither sets a state
    variable, so React does not render after them. *)
Inductive Occurrence : Type :=
| Handled (ev : Event)
| ScreenChecked (closureComplete : bool) (closureResponseId : option string)
    (readyState : ReadyState) (now1 now2 now3 : Z) (m : Monitor)
| MicrophoneStopped.

(** The types of alert the component records. *)
Definition alert_types : list string :=
  ["tab_switch"; "window_blur"; "screen_sharing_stopped";
   "screen_track_inactive"; "screen_pause"].

(** The microphone recorder and [isRecording]: a recorder that records
    is shown as recording, and what is shown as recording is a recorder
    that records or one that has stopped. *)
Definition mic_ok (s : State) : Prop :=
  (mediaRecorderRef s = Some recording -> isRecording s = true)
  /\ (isRecording s = true ->
      mediaRecorderRef s = Some recording
      \/ mediaRecorderRef s = Some inactive).

(** What can happen to [isRecording] and the microphone recorder from
    [s] to [x]: nothing; a recording is started; the recorder is stopped
    by the component; the recorder stops on its own. *)
Definition mic_moves (s x : State) : Prop :=
  (isRecording x = isRecording s /\ mediaRecorderRef x = mediaRecorderRef s)
  \/ (isRecording s = false /\ isRecording x = true
      /\ mediaRecorderRef x = Some recording)
  \/ (isRecording s = true /\ mediaRecorderRef s <> Some inactive
      /\ isRecording x = false /\ mediaRecorderRef x = Some inactive)
  \/ (isRecording x = isRecording s /\ mediaRecorderRef s <> Some inactive
      /\ mediaRecorderRef x = Some inactive).

(** The recorder has stopped and [isRecording] is still set. *)
Definition mic_stuck (s : State) : Prop :=
  isRecording s = true /\ mediaRecorderRef s = Some inactive.

Section Occurrences.

Variable endResponse : nat -> EndEnv.
Variable props : Props.

Definition occur (s : State) (o : Occurrence) : State :=
  match o with
  | Handled ev => step endResponse props s ev
  | ScreenChecked closureComplete closureResponseId readyState
      now1 now2 now3 m =>
      snd (screenCheck closureComplete closureResponseId readyState
             now1 now2 now3 m s)
  | MicrophoneStopped => microphoneStopped s
  end.

Definition occurs (s : State) (os : list Occurrence) : State :=
  fold_left occur os s.

(** *** The start, one wait at a time *)







End Occurrences.

End SessionExtra.

(* ------------------------------------------------------------------ *)
(** ** The request helpers

    The headers object every request is built from, and the three
    uploads of the media API. *)

Module Api.
Import Js.
Local Open Scope string_scope.

(** The value of a property of a headers object: a string, or, when an
    array of pairs has been spread, the array that was one of its
    entries. *)
Inductive HeaderValue : Type :=
| Text (value : string)
| Items (items : list string).

(** A plain object used as a map from property names to values, each
    name once.  Only [lookup] is used to read it, so the order of the
    names does not matter. *)
Definition Headers : Type := list (string * HeaderValue).

(** [obj[k]]; property names are compared as they are written. *)
Fixpoint lookup (k : string) (obj : Headers) : option HeaderValue :=
  match obj with
  | [] => None
  | (k', v) :: rest => if String.eqb k' k then Some v else lookup k rest
  end.

(** [obj[k] = v] *)
Fixpoint assign (k : string) (v : HeaderValue) (obj : Headers) : Headers :=
  match obj with
  | [] => [(k, v)]
  | (k', v') :: rest =>
      if String.eqb k' k then (k, v) :: rest
      else (k', v') :: assign k v rest
  end.

(** [{ ...a, ...b }], where [b] lists the own enumerable properties of
    the value that is spread. *)
Definition spread (a b : Headers) : Headers :=
  fold_left (fun acc kv => assign (fst kv) (snd kv) acc) b a.

(** The object with the properties [entries], written in this order. *)
Definition literal (entries : Headers) : Headers := spread [] entries.

(** The three shapes of [HeadersInit]. *)
Inductive HeadersInit : Type :=
| PlainObject (entries : list (string * string))
| HeadersInstance (entries : list (string * string))
| PairArray (pairs : list (list string)).

(** The own enumerable properties that a spread copies: those of a
    plain object; none for a [Headers] instance, which keeps its
    entries in an internal list; the indices of an array. *)
Definition own_properties (h : HeadersInit) : Headers :=
  match h with
  | PlainObject entries => map (fun kv => (fst kv, Text (snd kv))) entries
  | HeadersInstance _ => []
  | PairArray pairs =>
      combine (map Session.string_of_nat (seq 0 (length pairs)))
              (map Items pairs)
  end.

Record RequestInit : Type := {
  method : option string;
  headers : option HeadersInit
}.

(** The [detail] of the body of a response, a JSON value: a number is
    given by the text [String] writes for it, an array by the texts
    [join] writes for its items. *)
Inductive Detail : Type :=
| DNull
| DBool (b : bool)
| DNumber (text : string)
| DString (s : string)
| DArray (items : list string)
| DObject.

(** The body of a response as [response.json()] gives it. *)
Inductive Body : Type :=
| BodyNull
| BodyObject (detail : option Detail)  (* [detail] is missing or has a value *)
| BodyOther.                           (* a string, number, boolean or array *)

(** Truthiness of a JSON value. *)
Definition detail_truthy (d : Detail) : bool :=
  match d with
  | DNull => false
  | DBool b => b
  | DNumber text => negb (String.eqb text "0")
  | DString s => negb (String.eqb s "")
  | DArray _ => true
  | DObject => true
  end.

(** [String(d)], the message of [new Error(d)]. *)
Definition detail_text (d : Detail) : string :=
  match d with
  | DNull => "null"
  | DBool true => "true"
  | DBool false => "false"
  | DNumber text => text
  | DString s => s
  | DArray items => String.concat "," items
  | DObject => "[object Object]"
  end.

(** What [fetch] resolves with: [ok], and [json()], which rejects
    ([None]) or gives the body. *)
Record Response : Type := {
  ok : bool;
  json : option Body
}.

Section Api.

(** [import.meta.env.VITE_API_KEY || ''] *)
Variable API_KEY : string.

Definition getApiHeaders (includeContentType : bool) : Headers :=
  let headers : Headers := [] in
  let headers :=
    if includeContentType
    then assign "Content-Type" (Text "application/json") headers
    else headers in
  if Session.truthy (Some API_KEY)
  then assign "x-api-key" (Text API_KEY)
         (assign "API_KEY" (Text API_KEY) headers)
  else headers.

(** The [headers] that [fetchWithAuth] hands to [fetch]. *)
Definition fetchWithAuth (options : RequestInit) : Headers :=
  let includeContentType :=
    negb (Session.option_eqb String.eqb (method options) (Some "GET")) in
  spread (getApiHeaders includeContentType)
    (match headers options with
     | Some given => own_properties given
     | None => []
     end).

(** [throw new Error(error.detail || fallback)], where [error] is the
    body of the response or, when it cannot be read,
    [{ detail: unreadable }].  Reading [detail] of [null] throws. *)
Definition throw_failure (unreadable fallback : string) (response : Response)
    : Exc unit :=
  let error :=
    match json response with
    | Some body => body
    | None => BodyObject (Some (DString unreadable))
    end in
  match error with
  | BodyNull => throw "Cannot read properties of null (reading 'detail')"
  | BodyObject (Some d) =>
      if detail_truthy d then throw (detail_text d) else throw fallback
  | BodyObject None => throw fallback
  | BodyOther => throw fallback
  end.

(** The three uploads; [answer] is what [fetch] does: it rejects with a
    message or resolves with a response. *)
Definition uploadCandidateImage (answer : string + Response) : Exc unit :=
  response <- answer ;;
  if negb (ok response)
  then throw_failure "Failed to upload image"
         "Failed to upload candidate image" response
  else ret tt.

Definition uploadScreenRecordingChunk (answer : string + Response)
    : Exc unit :=
  response <- answer ;;
  if negb (ok response)
  then throw_failure "Failed to upload chunk"
         "Failed to upload recording chunk" response
  else ret tt.

Definition finalizeScreenRecording (answer : string + Response) : Exc unit :=
  response <- answer ;;
  if negb (ok response)
  then throw_failure "Failed to finalize recording"
         "Failed to finalize screen recording" response
  else ret tt.

End Api.

End Api.

(* ------------------------------------------------------------------ *)
(** ** The page that starts the interview

    [CandidateStart]: the status of the interview is checked, the
    candidate gives a name and an email, takes a photo and shares the
    screen, and the start button renders [InterviewSession] with the
    stream.  As for the session, a handler that awaits runs in one step
    and the environment decides what the awaited call answers.  A
    handler runs only when the control that triggers it is on the page
    and enabled. *)

Module Candidate.
Import Js.
Local Open Scope string_scope.

(** The stream of [getDisplayMedia]: its video tracks and the number of
    its audio tracks. *)
Record DisplayStream : Type := {
  stream : Session.MediaStream;
  audioTracks : nat
}.

(** An entry of the list of interviews. *)
Record Interview : Type := {
  id : string;
  candidate_link : option string;
  is_open : option bool
}.

Inductive StatusEnv : Type :=
| StatusThrows                                  (* the request or the body fails *)
| StatusNotOk
| StatusOk (interviews : option (list Interview)). (* [responseData?.interviews] *)

Record StartResponse : Type := {
  res_ok : bool;
  detail : option string;
  response_id : option string
}.

(** The answer to [start-interview], and whether the upload of the
    photo that follows succeeds. *)
Inductive StartEnv : Type :=
| StartThrows
| StartAnswer (res : StartResponse) (photoOk : bool).

Inductive Output : Type :=
| Fetch_list_interviews
| Camera_requested
| Camera_tracks_stopped
| Display_requested
| Display_tracks_stopped
| Fetch_start_interview (interview_id candidate_name candidate_email : string)
| Fetch_upload_candidate_image (response_id filename : string).

Record State : Type := mkState {
  name : string;
  email : string;
  started : bool;
  isOpen : option bool;  (* [useState<boolean | null>(null)] *)
  loadingStatus : bool;
  statusError : string;
  accessError : string;
  actualInterviewId : string;
  responseId : option string;
  cameraStream : bool;  (* whether a camera stream is held *)
  capturedBlob : option Session.Blob;
  uploadingPhoto : bool;
  photoUploaded : bool;
  cameraReady : bool;
  screenPermissionGranted : bool;
  screenShareStream : option DisplayStream;
  statusPending : bool;  (* [checkInterviewStatus] has not settled *)
  outputs : list Output  (* requests and track stops; oldest first *)
}.

Definition set_name (v : string) (s : State) : State :=
  mkState v (email s) (started s) (isOpen s) (loadingStatus s)
    (statusError s) (accessError s) (actualInterviewId s) (responseId s)
    (cameraStream s) (capturedBlob s) (uploadingPhoto s) (photoUploaded s)
    (cameraReady s) (screenPermissionGranted s) (screenShareStream s)
    (statusPending s) (outputs s).

Definition set_email (v : string) (s : State) : State :=
  mkState (name s) v (started s) (isOpen s) (loadingStatus s)
    (statusError s) (accessError s) (actualInterviewId s) (responseId s)
    (cameraStream s) (capturedBlob s) (uploadingPhoto s) (photoUploaded s)
    (cameraReady s) (screenPermissionGranted s) (screenShareStream s)
    (statusPending s) (outputs s).

Definition set_started (v : bool) (s : State) : State :=
  mkState (name s) (email s) v (isOpen s) (loadingStatus s) (statusError s)
    (accessError s) (actualInterviewId s) (responseId s) (cameraStream s)
    (capturedBlob s) (uploadingPhoto s) (photoUploaded s) (cameraReady s)
    (screenPermissionGranted s) (screenShareStream s) (statusPending s)
    (outputs s).

Definition set_isOpen (v : option bool) (s : State) : State :=
  mkState (name s) (email s) (started s) v (loadingStatus s)
    (statusError s) (accessError s) (actualInterviewId s) (responseId s)
    (cameraStream s) (capturedBlob s) (uploadingPhoto s) (photoUploaded s)
    (cameraReady s) (screenPermissionGranted s) (screenShareStream s)
    (statusPending s) (outputs s).

Definition set_loadingStatus (v : bool) (s : State) : State :=
  mkState (name s) (email s) (started s) (isOpen s) v (statusError s)
    (accessError s) (actualInterviewId s) (responseId s) (cameraStream s)
    (capturedBlob s) (uploadingPhoto s) (photoUploaded s) (cameraReady s)
    (screenPermissionGranted s) (screenShareStream s) (statusPending s)
    (outputs s).

Definition set_statusError (v : string) (s : State) : State :=
  mkState (name s) (email s) (started s) (isOpen s) (loadingStatus s) v
    (accessError s) (actualInterviewId s) (responseId s) (cameraStream s)
    (capturedBlob s) (uploadingPhoto s) (photoUploaded s) (cameraReady s)
    (screenPermissionGranted s) (screenShareStream s) (statusPending s)
    (outputs s).

Definition set_accessError (v : string) (s : State) : State :=
  mkState (name s) (email s) (started s) (isOpen s) (loadingStatus s)
    (statusError s) v (actualInterviewId s) (responseId s) (cameraStream s)
    (capturedBlob s) (uploadingPhoto s) (photoUploaded s) (cameraReady s)
    (screenPermissionGranted s) (screenShareStream s) (statusPending s)
    (outputs s).

Definition set_actualInterviewId (v : string) (s : State) : State :=
  mkState (name s) (email s) (started s) (isOpen s) (loadingStatus s)
    (statusError s) (accessError s) v (responseId s) (cameraStream s)
    (capturedBlob s) (uploadingPhoto s) (photoUploaded s) (cameraReady s)
    (screenPermissionGranted s) (screenShareStream s) (statusPending s)
    (outputs s).

Definition set_responseId (v : option string) (s : State) : State :=
  mkState (name s) (email s) (started s) (isOpen s) (loadingStatus s)
    (statusError s) (accessError s) (actualInterviewId s) v
    (cameraStream s) (capturedBlob s) (uploadingPhoto s) (photoUploaded s)
    (cameraReady s) (screenPermissionGranted s) (screenShareStream s)
    (statusPending s) (outputs s).

Definition set_cameraStream (v : bool) (s : State) : State :=
  mkState (name s) (email s) (started s) (isOpen s) (loadingStatus s)
    (statusError s) (accessError s) (actualInterviewId s) (responseId s) v
    (capturedBlob s) (uploadingPhoto s) (photoUploaded s) (cameraReady s)
    (screenPermissionGranted s) (screenShareStream s) (statusPending s)
    (outputs s).

Definition set_capturedBlob (v : option Session.Blob) (s : State) : State :=
  mkState (name s) (email s) (started s) (isOpen s) (loadingStatus s)
    (statusError s) (accessError s) (actualInterviewId s) (responseId s)
    (cameraStream s) v (uploadingPhoto s) (photoUploaded s) (cameraReady s)
    (screenPermissionGranted s) (screenShareStream s) (statusPending s)
    (outputs s).

Definition set_uploadingPhoto (v : bool) (s : State) : State :=
  mkState (name s) (email s) (started s) (isOpen s) (loadingStatus s)
    (statusError s) (accessError s) (actualInterviewId s) (responseId s)
    (cameraStream s) (capturedBlob s) v (photoUploaded s) (cameraReady s)
    (screenPermissionGranted s) (screenShareStream s) (statusPending s)
    (outputs s).

Definition set_photoUploaded (v : bool) (s : State) : State :=
  mkState (name s) (email s) (started s) (isOpen s) (loadingStatus s)
    (statusError s) (accessError s) (actualInterviewId s) (responseId s)
    (cameraStream s) (capturedBlob s) (uploadingPhoto s) v (cameraReady s)
    (screenPermissionGranted s) (screenShareStream s) (statusPending s)
    (outputs s).

Definition set_cameraReady (v : bool) (s : State) : State :=
  mkState (name s) (email s) (started s) (isOpen s) (loadingStatus s)
    (statusError s) (accessError s) (actualInterviewId s) (responseId s)
    (cameraStream s) (capturedBlob s) (uploadingPhoto s) (photoUploaded s)
    v (screenPermissionGranted s) (screenShareStream s) (statusPending s)
    (outputs s).

Definition set_screenPermissionGranted (v : bool) (s : State) : State :=
  mkState (name s) (email s) (started s) (isOpen s) (loadingStatus s)
    (statusError s) (accessError s) (actualInterviewId s) (responseId s)
    (cameraStream s) (capturedBlob s) (uploadingPhoto s) (photoUploaded s)
    (cameraReady s) v (screenShareStream s) (statusPending s) (outputs s).

Definition set_screenShareStream (v : option DisplayStream) (s : State) : State :=
  mkState (name s) (email s) (started s) (isOpen s) (loadingStatus s)
    (statusError s) (accessError s) (actualInterviewId s) (responseId s)
    (cameraStream s) (capturedBlob s) (uploadingPhoto s) (photoUploaded s)
    (cameraReady s) (screenPermissionGranted s) v (statusPending s)
    (outputs s).

Definition set_statusPending (v : bool) (s : State) : State :=
  mkState (name s) (email s) (started s) (isOpen s) (loadingStatus s)
    (statusError s) (accessError s) (actualInterviewId s) (responseId s)
    (cameraStream s) (capturedBlob s) (uploadingPhoto s) (photoUploaded s)
    (cameraReady s) (screenPermissionGranted s) (screenShareStream s) v
    (outputs s).

Definition set_outputs (v : list Output) (s : State) : State :=
  mkState (name s) (email s) (started s) (isOpen s) (loadingStatus s)
    (statusError s) (accessError s) (actualInterviewId s) (responseId s)
    (cameraStream s) (capturedBlob s) (uploadingPhoto s) (photoUploaded s)
    (cameraReady s) (screenPermissionGranted s) (screenShareStream s)
    (statusPending s) v.

Definition init : State :=
  mkState "" "" false None true "" "" "" None false None false false false
    false None true [].

Definition emit (o : Output) (s : State) : State :=
  set_outputs (outputs s ++ [o])%list s.

(** [t.trim()] *)
Definition trim_string (t : string) : string :=
  string_of_list_ascii (trim (lit t)).

Definition enable_audio : string :=
  "Please enable audio while sharing your screen. When sharing, make sure to check the "
  ++ Session.dquote ++ "Share audio" ++ Session.dquote ++ " or "
  ++ Session.dquote ++ "Share system audio" ++ Session.dquote
  ++ " option in the browser dialog.".

Definition permission_denied : string :=
  "Screen recording permission denied. Screen recording is required to proceed.".

(** [track.stop()] on every track of the stream. *)
Definition stopTracks (d : DisplayStream) : DisplayStream :=
  {| stream :=
       {| Session.videoTracks :=
            map (fun t =>
                   {| Session.track_id := Session.track_id t;
                      Session.track_readyState := Session.ended;
                      Session.track_displaySurface :=
                        Session.track_displaySurface t |})
                (Session.videoTracks (stream d)) |};
     audioTracks := audioTracks d |}.

Section Handlers.

Variable interviewId : string.

Definition matches (i : Interview) : bool :=
  String.eqb (id i) interviewId
  || match candidate_link i with
     | Some link => Session.includes_string interviewId link
     | None => false
     end.

Definition checkInterviewStatus (env : StatusEnv) (s : State) : State :=
  let s := emit Fetch_list_interviews s in
  let s :=
    match env with
    | StatusOk interviews =>
        let data :=
          match interviews with
          | Some l => find matches l
          | None => None
          end in
        match data with
        | Some d =>
            let s :=
              set_isOpen
                (Some (negb (Session.option_eqb Bool.eqb (is_open d)
                               (Some false)))) s in
            set_actualInterviewId (id d) s
        | None => set_statusError "Interview not found" s
        end
    | StatusNotOk => set_statusError "Failed to load interview details" s
    | StatusThrows => set_statusError "Failed to check interview status" s
    end in
  set_statusPending false (set_loadingStatus false s).

Definition startCamera (granted : bool) (s : State) : State :=
  let s := emit Camera_requested s in
  if granted then set_cameraStream true s
  else set_statusError
         "Camera permission denied or unavailable. Please enable camera access."
         s.

(** [capturePhoto]: [videoWidth] and [videoHeight] of the video
    element, whether the canvas gives a context, and the blob that
    [toBlob] hands to its callback.  The button that calls it is
    rendered next to the video element, so [videoRef.current] is set. *)
Definition capturePhoto (videoWidth videoHeight : nat) (ctx : bool)
    (blob : option Session.Blob) (s : State) : State :=
  if negb (cameraReady s)
  then set_accessError
         "Camera not ready yet. Please wait a moment and try again." s
  else
    let w := if (videoWidth =? 0)%nat then 640 else videoWidth in
    let h := if (videoHeight =? 0)%nat then 480 else videoHeight in
    if (w =? 0)%nat || (h =? 0)%nat then s
    else if negb ctx then s
    else
      match blob with
      | Some b => set_capturedBlob (Some b) s
      | None => s
      end.

(** The button that closes the camera. *)
Definition closeCamera (s : State) : State :=
  let s := emit Camera_tracks_stopped s in
  set_cameraReady false (set_cameraStream false s).

(** The button that discards the photo. *)
Definition retake (s : State) : State := set_capturedBlob None s.

Definition uploadPhoto (uploadOk : bool) (s : State) : State :=
  match capturedBlob s with
  | None => set_accessError "Please capture a photo first." s
  | Some _ =>
      match responseId s with
      | Some rid =>
          if negb (Session.truthy (responseId s))
          then set_accessError
                 "Photo will be uploaded when you start the interview." s
          else
            let s := set_uploadingPhoto true s in
            let s := emit (Fetch_upload_candidate_image rid "candidate.jpg") s in
            let s :=
              if uploadOk then
                let s := set_photoUploaded true s in
                if cameraStream s
                then set_cameraStream false (emit Camera_tracks_stopped s)
                else s
              else set_accessError "Failed to upload photo. Please try again." s in
            set_uploadingPhoto false s
      | None =>
          set_accessError
            "Photo will be uploaded when you start the interview." s
      end
  end.

(** [requestScreenPermission]: [getDisplayMedia] rejects ([None]) or
    gives a stream.  A stream without a video track makes
    [videoTrack.getSettings()] throw, which the [catch] reports like a
    refusal. *)
Definition requestScreenPermission (env : option DisplayStream)
    (s : State) : State :=
  let s := emit Display_requested s in
  match env with
  | None => set_accessError permission_denied s
  | Some displayStream =>
      match Session.videoTracks (stream displayStream) with
      | [] => set_accessError permission_denied s
      | videoTrack :: _ =>
          if negb (Session.option_eqb String.eqb
                     (Session.track_displaySurface videoTrack)
                     (Some "monitor"))
          then set_accessError Session.full_screen_required
                 (emit Display_tracks_stopped s)
          else if (audioTracks displayStream =? 0)%nat
          then set_accessError enable_audio (emit Display_tracks_stopped s)
          else
            set_screenPermissionGranted true
              (set_screenShareStream (Some displayStream) s)
      end
  end.

Definition start_failed : string :=
  "Failed to start interview. Please contact HR if you believe this is an error.".

Definition handleStart (env : StartEnv) (s : State) : State :=
  if Session.blank (name s) || Session.blank (email s)
  then set_accessError "Please provide both name and email" s
  else
    match capturedBlob s with
    | None =>
        set_accessError
          "Please capture your photo before starting the interview." s
    | Some _ =>
        if negb (screenPermissionGranted s)
        then set_accessError
               "Please grant screen recording permission before starting the interview."
               s
        else
          let s := set_accessError "" s in
          let s := set_loadingStatus true s in
          let s :=
            emit (Fetch_start_interview
                    (if Session.truthy (Some (actualInterviewId s))
                     then actualInterviewId s else interviewId)
                    (trim_string (name s)) (trim_string (email s))) s in
          match env with
          | StartThrows =>
              set_loadingStatus false
                (set_accessError "Network error. Please try again." s)
          | StartAnswer res photoOk =>
              if negb (res_ok res) then
                set_loadingStatus false
                  (set_accessError
                     (match detail res with
                      | Some d =>
                          if Session.truthy (detail res) then d
                          else start_failed
                      | None => start_failed
                      end) s)
              else
                let s :=
                  match response_id res with
                  | Some rid =>
                      if Session.truthy (response_id res) then
                        let s := set_responseId (Some rid) s in
                        let s :=
                          emit (Fetch_upload_candidate_image rid
                                  "candidate.jpg") s in
                        if photoOk then set_photoUploaded true s else s
                      else s
                  | None => s
                  end in
                set_started true s
          end
    end.

(** *** What is on the page *)

Inductive Screen : Type :=
| ShowSession     (* [InterviewSession] is rendered *)
| ShowLoading
| ShowClosed      (* "Interview Closed", with [statusError] if any *)
| ShowForm.

Definition screen (s : State) : Screen :=
  if started s then ShowSession
  else if loadingStatus s then ShowLoading
  else if Session.truthy (Some (statusError s))
          || Session.option_eqb Bool.eqb (isOpen s) (Some false)
  then ShowClosed
  else ShowForm.

Definition form_shown (s : State) : bool :=
  match screen s with
  | ShowForm => true
  | _ => false
  end.

Definition is_some {A} (o : option A) : bool :=
  match o with
  | Some _ => true
  | None => false
  end.

Inductive Event : Type :=
| StatusChecked (env : StatusEnv)
| SetName (value : string)
| SetEmail (value : string)
| EnableCamera (granted : bool)
| VideoReady (ready : bool)
| Capture (videoWidth videoHeight : nat) (ctx : bool)
          (blob : option Session.Blob)
| CloseCamera
| Retake
| UploadPhoto (uploadOk : bool)
| GrantScreenAccess (env : option DisplayStream)
| Start (env : StartEnv).

(** Whether the event can happen: the status check settles once; a
    control must be rendered and not disabled; the video element, which
    is rendered while the camera is on and no photo is taken, reports
    whether it has a picture. *)
Definition enabled (ev : Event) (s : State) : bool :=
  match ev with
  | StatusChecked _ => statusPending s
  | SetName _ => form_shown s
  | SetEmail _ => form_shown s
  | EnableCamera _ =>
      form_shown s && negb (cameraStream s)
      && negb (is_some (capturedBlob s)) && negb (photoUploaded s)
  | VideoReady _ =>
      form_shown s && cameraStream s && negb (is_some (capturedBlob s))
  | Capture _ _ _ _ =>
      form_shown s && cameraStream s && negb (is_some (capturedBlob s))
      && cameraReady s
  | CloseCamera =>
      form_shown s && cameraStream s && negb (is_some (capturedBlob s))
  | Retake =>
      form_shown s && is_some (capturedBlob s) && negb (photoUploaded s)
  | UploadPhoto _ =>
      form_shown s && is_some (capturedBlob s) && negb (photoUploaded s)
      && negb (uploadingPhoto s || negb (Session.truthy (responseId s)))
  | GrantScreenAccess _ => form_shown s && negb (screenPermissionGranted s)
  | Start _ =>
      form_shown s
      && negb (Session.blank (name s) || Session.blank (email s)
               || loadingStatus s || negb (is_some (capturedBlob s))
               || negb (screenPermissionGranted s))
  end.

Definition handle (ev : Event) (s : State) : State :=
  match ev with
  | StatusChecked env => checkInterviewStatus env s
  | SetName value => set_name value s
  | SetEmail value => set_email value s
  | EnableCamera granted => startCamera granted s
  | VideoReady ready => if ready then set_cameraReady true s else s
  | Capture videoWidth videoHeight ctx blob =>
      capturePhoto videoWidth videoHeight ctx blob s
  | CloseCamera => closeCamera s
  | Retake => retake s
  | UploadPhoto uploadOk => uploadPhoto uploadOk s
  | GrantScreenAccess env => requestScreenPermission env s
  | Start env => handleStart env s
  end.

(** *** The effect that stops the streams

    Its dependencies are [[cameraStream, screenShareStream, started]]
    and it only returns a clean-up.  React runs the clean-up of the
    previous run, with the values of that run, whenever a dependency
    has changed. *)

Definition same_stream_deps (a b : State) : bool :=
  Bool.eqb (cameraStream a) (cameraStream b)
  && Bool.eqb (is_some (screenShareStream a)) (is_some (screenShareStream b))
  && Bool.eqb (started a) (started b).

(** The clean-up, with the values of the render [before]; the stream it
    stops is the object the state holds. *)
Definition streamCleanup (before s : State) : State :=
  let s := if cameraStream before then emit Camera_tracks_stopped s else s in
  match screenShareStream before with
  | Some _ =>
      if negb (started before) then
        emit Display_tracks_stopped
          (set_screenShareStream (option_map stopTracks (screenShareStream s)) s)
      else s
  | None => s
  end.

Definition render (before s : State) : State :=
  if same_stream_deps before s then s else streamCleanup before s.

Definition step (s : State) (ev : Event) : State :=
  if enabled ev s then render s (handle ev s) else s.

Definition run (s : State) (evs : list Event) : State :=
  fold_left step evs s.

(** The props of [InterviewSession] when it is rendered. *)
Definition sessionProps (s : State) : Session.Props :=
  {| Session.screenPermissionGranted := screenPermissionGranted s;
     Session.existingScreenStream := option_map stream (screenShareStream s) |}.

End Handlers.

(** *** Notions used to state the properties *)

Definition is_start_request (o : Output) : bool :=
  match o with
  | Fetch_start_interview _ _ _ => true
  | _ => false
  end.

Definition is_photo_upload (o : Output) : bool :=
  match o with
  | Fetch_upload_candidate_image _ _ => true
  | _ => false
  end.

(** Every video track of the stream has ended. *)
Definition all_ended (d : DisplayStream) : Prop :=
  Forall (fun t => Session.track_readyState t = Session.ended)
    (Session.videoTracks (stream d)).

(** *** The invariants of the page *)

(** While the status check is pending, nothing has happened. *)
Definition pending_ok (s : State) : Prop :=
  statusPending s = true ->
  loadingStatus s = true /\ started s = false /\ outputs s = []
  /\ isOpen s = None.

(** A closed interview has not been started. *)
Definition closed_ok (s : State) : Prop :=
  isOpen s = Some false ->
  started s = false /\ filter is_start_request (outputs s) = [].

(** Before the start there is no [responseId] and no photo has been
    sent; at most one is ever sent. *)
Definition photo_ok (s : State) : Prop :=
  (started s = false ->
   responseId s = None /\ filter is_photo_upload (outputs s) = [])
  /\ length (filter is_photo_upload (outputs s)) <= 1.

(** The stream held once the permission is granted passed both tests
    of [requestScreenPermission]. *)
Definition granted_ok (s : State) : Prop :=
  screenPermissionGranted s = true ->
  exists d t rest,
    screenShareStream s = Some d
    /\ Session.videoTracks (stream d) = t :: rest
    /\ Session.track_displaySurface t = Some "monitor"
    /\ 0 < audioTracks d.

(** What holds once [InterviewSession] is rendered. *)
Definition started_ok (s : State) : Prop :=
  started s = true ->
  statusPending s = false
  /\ screenPermissionGranted s = true
  /\ capturedBlob s <> None
  /\ exists d, screenShareStream s = Some d /\ all_ended d.

Definition named (o : Output) : Prop :=
  match o with
  | Fetch_start_interview _ candidate_name candidate_email =>
      candidate_name <> EmptyString /\ candidate_email <> EmptyString
  | _ => True
  end.

Unset Implicit Arguments.

Record page_ok (s : State) : Prop := {
  page_pending : pending_ok s;
  page_closed : closed_ok s;
  page_photo : photo_ok s;
  page_granted : granted_ok s;
  page_started : started_ok s;
  page_named : Forall named (outputs s)
}.

Set Implicit Arguments.

End Candidate.

(** A visit of an open interview in which every step succeeds. *)

Module CandidateScenario.
Import Candidate.
Local Open Scope string_scope.

Definition interview (open : bool) : Interview :=
  {| id := "iv-1";
     candidate_link := Some "https://interviews.example/i/iv-1";
     is_open := Some open |}.

Definition photo : Session.Blob :=
  {| Session.blob_size := 1024; Session.blob_type := "image/jpeg" |}.

Definition shared : DisplayStream :=
  {| stream := Scenario.screen; audioTracks := 1 |}.

Definition visit : list Event :=
  [StatusChecked (StatusOk (Some [interview true]));
   SetName "Ada"; SetEmail "ada@example.com";
   EnableCamera true; VideoReady true;
   Capture 1280 720 true (Some photo);
   GrantScreenAccess (Some shared);
   Start (StartAnswer {| res_ok := true; detail := None;
                         response_id := Some "resp-1" |} true)].

End CandidateScenario.

(* ------------------------------------------------------------------ *)
(** * Properties *)

(** ** Lists *)

Lemma list_ind3 (A : Type) (P : list A -> Prop) :
  P [] ->
  (forall a, P [a]) ->
  (forall a b, P [a; b]) ->
  (forall a b c r, P r -> P (a :: b :: c :: r)) ->
  forall l, P l.
Proof.
  intros H0 H1 H2 H3.
  fix IH 1.
  intros [|a [|b [|c r]]];
    [exact H0 | apply H1 | apply H2 | apply H3, IH].
Qed.

Lemma filter_id (A : Type) (f : A -> bool) (l : list A) :
  Forall (fun x => f x = true) l -> filter f l = l.
Proof.
  induction 1 as [|x l Hx _ IH]; simpl; [reflexivity|].
  now rewrite Hx, IH.
Qed.

Lemma filter_rev (A : Type) (f : A -> bool) (l : list A) :
  filter f (rev l) = rev (filter f l).
Proof.
  induction l as [|x l IH]; simpl; [reflexivity|].
  rewrite filter_app, IH; simpl.
  destruct (f x); simpl; [reflexivity|apply app_nil_r].
Qed.

Lemma filter_filter_implied (A : Type) (f g : A -> bool) (l : list A) :
  (forall x, f x = true -> g x = true) ->
  filter f (filter g l) = filter f l.
Proof.
  intros Hfg.
  induction l as [|x l IH]; simpl; [reflexivity|].
  destruct (g x) eqn:Hg; simpl.
  - now rewrite IH.
  - destruct (f x) eqn:Hf; [|exact IH].
    apply Hfg in Hf. congruence.
Qed.

(** A check over the numbers below a bound is a finite check. *)
Lemma N_bounded_check (f : N -> bool) (bound : nat) :
  forallb f (map N.of_nat (seq 0 bound)) = true ->
  forall v, (v < N.of_nat bound)%N -> f v = true.
Proof.
  intros Hall v Hv.
  rewrite forallb_forall in Hall.
  apply Hall, in_map_iff.
  exists (N.to_nat v). split; [apply N2Nat.id|].
  apply in_seq. lia.
Qed.

(** A check over all characters is a finite check. *)
Lemma ascii_check (f : ascii -> bool) :
  forallb (fun n => f (ascii_of_N n)) (map N.of_nat (seq 0 256)) = true ->
  forall c, f c = true.
Proof.
  intros Hall c.
  rewrite <- (ascii_N_embedding c).
  apply (N_bounded_check (fun n => f (ascii_of_N n)) 256 Hall).
  apply (N_ascii_bounded c).
Qed.

(* ------------------------------------------------------------------ *)
(** ** Base64: the playback round trip and the chunk encoder *)

Module Base64Facts.
Import Js Base64.

Local Open Scope N_scope.

(** *** The alphabet *)

Lemma digit_value v : v < 64 -> b64_value (b64_digit v) = Some v.
Proof.
  intros Hv.
  apply (N_bounded_check
           (fun v => match b64_value (b64_digit v) with
                     | Some w => N.eqb w v
                     | None => false
                     end) 64) in Hv; [|vm_compute; reflexivity].
  destruct (b64_value (b64_digit v)); [|discriminate].
  apply N.eqb_eq in Hv. now subst.
Qed.

Lemma value_not_pad c v : b64_value c = Some v -> Ascii.eqb c "=" = false.
Proof.
  intros Hc.
  destruct (Ascii.eqb c "=") eqn:E; [|reflexivity].
  apply Ascii.eqb_eq in E. subst c. discriminate.
Qed.

Lemma value_not_whitespace c :
  match b64_value c with
  | Some _ => negb (is_ascii_whitespace c)
  | None => true
  end = true.
Proof.
  revert c. apply ascii_check. vm_compute. reflexivity.
Qed.

Lemma digit_not_pad v : v < 64 -> Ascii.eqb (b64_digit v) "=" = false.
Proof.
  intros Hv. eapply value_not_pad, digit_value, Hv.
Qed.

Lemma digit_not_whitespace v :
  v < 64 -> is_ascii_whitespace (b64_digit v) = false.
Proof.
  intros Hv.
  pose proof (value_not_whitespace (b64_digit v)) as H.
  rewrite (digit_value Hv) in H.
  now apply negb_true_iff in H.
Qed.

(** *** Sextets of bytes *)

Lemma byte_bound (b : byte) : Byte.to_N b < 256.
Proof.
  pose proof (Byte.to_N_bounded b). lia.
Qed.

Lemma div_small a k : 0 < k -> a < 64 * k -> a / k < 64.
Proof.
  intros Hk Ha. apply N.Div0.div_lt_upper_bound. lia.
Qed.

Lemma sextets_bounded bs : Forall (fun v => v < 64) (sextets bs).
Proof.
  induction bs as [|a|a b|a b c r IH] using list_ind3; simpl.
  - constructor.
  - pose proof (byte_bound a). pose proof (N.mod_lt (Byte.to_N a) 4).
    repeat constructor; [apply div_small; lia | lia].
  - pose proof (byte_bound a). pose proof (byte_bound b).
    pose proof (N.mod_lt (Byte.to_N a) 4).
    pose proof (N.mod_lt (Byte.to_N b) 16).
    assert (Byte.to_N b / 16 < 16) by (apply N.Div0.div_lt_upper_bound; lia).
    repeat constructor; [apply div_small; lia | lia | lia].
  - pose proof (byte_bound a). pose proof (byte_bound b).
    pose proof (byte_bound c).
    pose proof (N.mod_lt (Byte.to_N a) 4).
    pose proof (N.mod_lt (Byte.to_N b) 16).
    pose proof (N.mod_lt (Byte.to_N c) 64).
    assert (Byte.to_N b / 16 < 16) by (apply N.Div0.div_lt_upper_bound; lia).
    assert (Byte.to_N c / 64 < 4) by (apply N.Div0.div_lt_upper_bound; lia).
    repeat constructor; try (apply div_small; lia); try lia.
    exact IH.
Qed.

Lemma encode_split bs :
  encode bs = (map b64_digit (sextets bs) ++ padding bs)%list.
Proof.
  induction bs as [|a|a b|a b c r IH] using list_ind3;
    cbn [encode sextets padding map app]; try reflexivity.
  now rewrite IH.
Qed.

Lemma padding_no_whitespace bs :
  Forall (fun c => negb (is_ascii_whitespace c) = true) (padding bs).
Proof.
  induction bs as [|a|a b|a b c r IH] using list_ind3; simpl;
    repeat constructor; exact IH.
Qed.

Lemma encode_no_whitespace bs :
  remove is_ascii_whitespace (encode bs) = encode bs.
Proof.
  unfold remove. apply filter_id.
  rewrite encode_split. apply Forall_app. split.
  - apply Forall_map.
    eapply Forall_impl; [|apply sextets_bounded].
    intros v Hv. cbv beta. now rewrite digit_not_whitespace.
  - apply padding_no_whitespace.
Qed.

Lemma mod4_step (n : nat) : (S (S (S (S n))) mod 4 = n mod 4)%nat.
Proof.
  replace (S (S (S (S n)))) with (n + 1 * 4)%nat by lia.
  apply Nat.Div0.mod_add.
Qed.

Lemma encode_length bs : (length (encode bs) mod 4 = 0)%nat.
Proof.
  induction bs as [|a|a b|a b c r IH] using list_ind3;
    cbn [encode length]; try reflexivity.
  now rewrite mod4_step.
Qed.

Lemma sextets_length bs : (length (sextets bs) mod 4 =? 1)%nat = false.
Proof.
  induction bs as [|a|a b|a b c r IH] using list_ind3;
    cbn [sextets length]; try reflexivity.
  now rewrite mod4_step.
Qed.

Lemma strip_padding_padding bs : strip_padding (padding bs) = [].
Proof.
  induction bs as [|a|a b|a b c r IH] using list_ind3; simpl;
    try reflexivity.
  exact IH.
Qed.

Lemma strip_padding_digits vs tail :
  Forall (fun v => v < 64) vs ->
  strip_padding (map b64_digit vs ++ tail)
  = (map b64_digit vs ++ strip_padding tail)%list.
Proof.
  induction 1 as [|v vs Hv _ IH]; [reflexivity|].
  cbn [map app strip_padding].
  now rewrite (digit_not_pad Hv), IH.
Qed.

Lemma encode_strip_padding bs :
  strip_padding (encode bs) = map b64_digit (sextets bs).
Proof.
  rewrite encode_split, strip_padding_digits by apply sextets_bounded.
  rewrite strip_padding_padding. apply app_nil_r.
Qed.

Lemma values_digits vs :
  Forall (fun v => v < 64) vs -> values (map b64_digit vs) = Some vs.
Proof.
  induction 1 as [|v vs Hv _ IH]; [reflexivity|].
  cbn [map values].
  now rewrite (digit_value Hv), IH.
Qed.

(** *** Packing sextets into bytes *)

Lemma store_byte (b : byte) : charCodeAt_store (ascii_of_N (Byte.to_N b)) = b.
Proof.
  destruct b; vm_compute; reflexivity.
Qed.

Lemma unpack3 a b c :
  a < 256 -> b < 256 -> c < 256 ->
  let n := (((a / 4 * 64 + (a mod 4 * 16 + b / 16)) * 64
             + (b mod 16 * 4 + c / 64)) * 64 + c mod 64) in
  n / 65536 = a /\ (n / 256) mod 256 = b /\ n mod 256 = c.
Proof.
  intros Ha Hb Hc n.
  assert (Hn : n = a * 65536 + b * 256 + c).
  { subst n.
    pose proof (N.div_mod a 4). pose proof (N.mod_lt a 4).
    pose proof (N.div_mod b 16). pose proof (N.mod_lt b 16).
    pose proof (N.div_mod c 64). pose proof (N.mod_lt c 64).
    lia. }
  rewrite Hn. repeat split.
  - symmetry. apply N.div_unique with (r := b * 256 + c); lia.
  - assert (Hq : (a * 65536 + b * 256 + c) / 256 = a * 256 + b).
    { symmetry. apply N.div_unique with (r := c); lia. }
    rewrite Hq. symmetry. apply N.mod_unique with (q := a); lia.
  - symmetry. apply N.mod_unique with (q := a * 256 + b); lia.
Qed.

Lemma unpack2 a b :
  a < 256 -> b < 256 ->
  let n := ((a / 4 * 64 + (a mod 4 * 16 + b / 16)) * 64 + b mod 16 * 4) / 4 in
  n / 256 = a /\ n mod 256 = b.
Proof.
  intros Ha Hb n.
  assert (Hn : n = a * 256 + b).
  { subst n. symmetry. apply N.div_unique with (r := 0); [lia|].
    pose proof (N.div_mod a 4). pose proof (N.mod_lt a 4).
    pose proof (N.div_mod b 16). pose proof (N.mod_lt b 16).
    lia. }
  rewrite Hn. split.
  - symmetry. apply N.div_unique with (r := b); lia.
  - symmetry. apply N.mod_unique with (q := a); lia.
Qed.

Lemma unpack1 a : a < 256 -> (a / 4 * 64 + a mod 4 * 16) / 16 = a.
Proof.
  intros Ha. symmetry. apply N.div_unique with (r := 0); [lia|].
  pose proof (N.div_mod a 4). pose proof (N.mod_lt a 4). lia.
Qed.

Lemma pack_sextets bs : map charCodeAt_store (pack (sextets bs)) = bs.
Proof.
  induction bs as [|a|a b|a b c r IH] using list_ind3.
  - reflexivity.
  - cbn [sextets pack map].
    rewrite (unpack1 (byte_bound a)). now rewrite store_byte.
  - cbn [sextets pack map].
    destruct (unpack2 (byte_bound a) (byte_bound b)) as [H1 H2].
    cbv zeta in H1, H2. rewrite H1, H2. now rewrite !store_byte.
  - cbn [sextets pack map].
    destruct (unpack3 (byte_bound a) (byte_bound b) (byte_bound c))
      as (H1 & H2 & H3).
    cbv zeta in H1, H2, H3. rewrite H1, H2, H3, IH.
    now rewrite !store_byte.
Qed.

Lemma atob_encode bs : atob (encode bs) = Some (pack (sextets bs)).
Proof.
  unfold atob.
  rewrite encode_no_whitespace, encode_length. cbn [Nat.eqb].
  rewrite encode_strip_padding, length_map, sextets_length.
  now rewrite values_digits by apply sextets_bounded.
Qed.

(** C9.  Round trip of synthesized audio: the bytes encoded in base64
    and decoded by the playback path, [atob] followed by
    [charCodeAt] into a [Uint8Array], are the bytes encoded. *)
Theorem playback_round_trip (bs : list byte) :
  playTTSAudio_bytes (encode bs) = Some bs.
Proof.
  unfold playTTSAudio_bytes.
  now rewrite atob_encode, pack_sextets.
Qed.

(** *** The chunk encoder *)

Local Open Scope nat_scope.

Lemma space_not_b64 c : is_b64_char c = true -> negb (is_space c) = true.
Proof.
  revert c.
  assert (H : forall c, implb (is_b64_char c) (negb (is_space c)) = true)
    by (apply ascii_check; vm_compute; reflexivity).
  intros c Hc. specialize (H c). now rewrite Hc in H.
Qed.

Lemma filter_b64_trimStart s :
  filter is_b64_char (trimStart s) = filter is_b64_char s.
Proof.
  induction s as [|x r IH]; [reflexivity|].
  cbn [trimStart]. destruct (is_space x) eqn:Hx; [|reflexivity].
  rewrite IH. cbn [filter].
  destruct (is_b64_char x) eqn:Hb; [|reflexivity].
  apply space_not_b64 in Hb. rewrite Hx in Hb. discriminate.
Qed.

Lemma filter_b64_trim s : filter is_b64_char (trim s) = filter is_b64_char s.
Proof.
  unfold trim.
  rewrite filter_rev, filter_b64_trimStart, filter_rev, rev_involutive.
  apply filter_b64_trimStart.
Qed.

(** The two replacements and the trim keep exactly the characters of the
    alphabet, in their order. *)
Lemma onload_cleaned_filter result :
  onload_cleaned result = filter is_b64_char (onload_prefix_removed result).
Proof.
  unfold onload_cleaned, remove.
  rewrite (filter_ext (fun c => negb (negb (is_b64_char c))) is_b64_char)
    by (intros c; apply negb_involutive).
  rewrite filter_filter_implied by apply space_not_b64.
  apply filter_b64_trim.
Qed.

Lemma pad_is_b64 k : Forall (fun c => is_b64_char c = true) (repeat_char "=" k).
Proof.
  induction k; simpl; constructor; [reflexivity | assumption].
Qed.

Lemma padded_length n : 0 < n mod 4 -> (n + (4 - n mod 4)) mod 4 = 0.
Proof.
  intros Hpos.
  pose proof (Nat.div_mod_eq n 4) as Hn.
  pose proof (Nat.mod_upper_bound n 4) as Hlt.
  replace (n + (4 - n mod 4)) with (0 + (n / 4 + 1) * 4) by lia.
  apply Nat.Div0.mod_add.
Qed.

(** [result.split(',')[1]] is the text between the first and the second
    comma.  For a chunk whose type lists two codecs that text is the end
    of the type, and the payload is lost; what is produced still has the
    shape stated below. *)
Lemma onload_type_with_comma :
  onload (lit "data:video/mp4;codecs=avc1,mp4a;base64,GkXfo6NChoEB")
  = inr (lit "mp4abase64==").
Proof. reflexivity. Qed.

(** C8.  The string the chunk encoder hands over for emission contains
    only characters of the base64 alphabet, is not empty, has a length
    that is a multiple of four, and is the chunk's text with every
    character outside the alphabet removed, followed by at most three
    padding characters. *)
Theorem screen_chunk_base64 (readerResult : option jsstring)
    (base64 : jsstring) :
  blobToBase64 readerResult = inr base64 ->
  Forall (fun c => is_b64_char c = true) base64
  /\ base64 <> []
  /\ length base64 mod 4 = 0
  /\ exists result k,
       readerResult = Some result /\ k < 4
       /\ base64 = (filter is_b64_char (onload_prefix_removed result)
                    ++ repeat_char "=" k)%list.
Proof.
  destruct readerResult as [result|]; [|discriminate].
  unfold blobToBase64, onload.
  rewrite onload_cleaned_filter.
  set (clean := filter is_b64_char (onload_prefix_removed result)).
  assert (Hclean : Forall (fun c => is_b64_char c = true) clean).
  { apply Forall_forall. intros c Hc. now apply filter_In in Hc. }
  destruct (length clean =? 0) eqn:Hlen; [discriminate|].
  apply Nat.eqb_neq in Hlen.
  assert (Hne : clean <> []) by (intros E; now rewrite E in Hlen).
  destruct (0 <? length clean mod 4) eqn:Hpad; intros [= <-].
  - apply Nat.ltb_lt in Hpad. repeat split.
    + apply Forall_app. split; [exact Hclean | apply pad_is_b64].
    + intros E. apply app_eq_nil in E. now destruct E.
    + unfold repeat_char. rewrite length_app, repeat_length.
      now apply padded_length.
    + exists result, (4 - length clean mod 4).
      repeat split. lia.
  - apply Nat.ltb_ge in Hpad. repeat split; try assumption.
    + lia.
    + exists result, 0. repeat split; [lia|].
      simpl. now rewrite app_nil_r.
Qed.

Lemma screen_chunk_base64_witness :
  blobToBase64 (Some (lit "data:video/mp4;base64,GkXf o6NC
hg=="))
  = inr (lit "GkXfo6NChg==")
  /\ Forall (fun c => is_b64_char c = true) (lit "GkXfo6NChg==").
Proof.
  split; [reflexivity|].
  apply (@screen_chunk_base64
           (Some (lit "data:video/mp4;base64,GkXf o6NC
hg==")) (lit "GkXfo6NChg==")).
  reflexivity.
Defined.

End Base64Facts.

(* ------------------------------------------------------------------ *)
(** ** The session controller *)

Module SessionFacts.
Import Js Session.

(** Case analysis on an innermost test of the goal. *)
Ltac split_test :=
  match goal with
  | |- context [match ?x with _ => _ end] =>
      lazymatch x with
      | context [match _ with _ => _ end] => fail
      | _ => destruct x eqn:?
      end
  end.

(** Goals of the form [field (handler s) = field s]. *)
Ltac frame :=
  intros; repeat first [reflexivity | assumption | progress cbn | split_test].

Section Facts.

Variable endResponse : nat -> EndEnv.
Variable props : Props.

Local Abbreviation endInterviewManually := (endInterviewManually endResponse).
Local Abbreviation timerEffect := (timerEffect endResponse).
Local Abbreviation render := (render endResponse).
Local Abbreviation settle := (settle endResponse).
Local Abbreviation handle := (handle endResponse props).
Local Abbreviation step := (step endResponse props).
Local Abbreviation run := (run endResponse props).

(** *** Rendering *)

Lemma option_eqb_refl (A : Type) (eqb : A -> A -> bool) (x : option A) :
  (forall a, eqb a a = true) -> option_eqb eqb x x = true.
Proof.
  intros H. destruct x; simpl; auto.
Qed.

Lemma same_timer_deps_refl s : same_timer_deps s s = true.
Proof.
  unfold same_timer_deps.
  rewrite !option_eqb_refl, Bool.eqb_reflx; auto using Z.eqb_refl, String.eqb_refl.
Qed.

Lemma same_complete_deps_refl s : same_complete_deps s s = true.
Proof.
  unfold same_complete_deps.
  rewrite option_eqb_refl, Bool.eqb_reflx; auto using String.eqb_refl.
Qed.

Lemma render_same s : render s s = s.
Proof.
  unfold Session.render.
  now rewrite same_timer_deps_refl, same_complete_deps_refl.
Qed.

Lemma settle_same s : settle s s = s.
Proof.
  unfold Session.settle. now rewrite !render_same.
Qed.

(** *** What ending the interview and the effects leave alone *)

Lemma untouched_refl s : untouched s s.
Proof. now constructor. Qed.

Lemma untouched_trans s1 s2 s3 :
  untouched s1 s2 -> untouched s2 s3 -> untouched s1 s3.
Proof.
  intros [] []. constructor; congruence.
Qed.

Ltac untouched_by_cases :=
  repeat (first [ apply untouched_refl
                | split_test
                | constructor; reflexivity ]).

Lemma stopScreenRecording_untouched s : untouched s (stopScreenRecording s).
Proof.
  unfold stopScreenRecording. untouched_by_cases.
Qed.

Lemma endInterviewManually_untouched s :
  untouched s (endInterviewManually s).
Proof.
  unfold Session.endInterviewManually, clearTimer, stopScreenRecording.
  untouched_by_cases.
Qed.

Lemma timerEffect_untouched s : untouched s (timerEffect s).
Proof.
  unfold Session.timerEffect.
  destruct (timer_stopped (timerEffect_cleanup s)) eqn:Hstop.
  - assert (H : untouched s
                  (set_timerCleanup false (clearTimer (timerEffect_cleanup s)))).
    { unfold clearTimer, timerEffect_cleanup. untouched_by_cases. }
    repeat split_test; try exact H.
    eapply untouched_trans; [exact H|apply endInterviewManually_untouched].
  - unfold setInterval, timerEffect_cleanup. untouched_by_cases.
Qed.

Lemma completeEffect_untouched s : untouched s (completeEffect s).
Proof.
  unfold completeEffect.
  repeat split_test; try apply untouched_refl.
  apply stopScreenRecording_untouched.
Qed.

Lemma render_untouched before s : untouched s (render before s).
Proof.
  unfold Session.render.
  repeat split_test; try apply untouched_refl;
    try apply timerEffect_untouched; try apply completeEffect_untouched.
  eapply untouched_trans;
    [apply timerEffect_untouched|apply completeEffect_untouched].
Qed.

Lemma settle_untouched before s : untouched s (settle before s).
Proof.
  unfold Session.settle.
  eapply untouched_trans; apply render_untouched.
Qed.

(** *** Requests to end the interview *)

Lemma end_requests_emit o s :
  end_requests (emit o s)
  = end_requests s + (if is_end_request o then 1 else 0).
Proof.
  unfold end_requests, emit.
  destruct s; cbn. rewrite filter_app, length_app. cbn.
  now destruct (is_end_request o).
Qed.

Lemma end_requests_outputs s s' :
  outputs s' = outputs s -> end_requests s' = end_requests s.
Proof.
  unfold end_requests. now intros ->.
Qed.

Lemma clearTimer_outputs s : outputs (clearTimer s) = outputs s.
Proof. unfold clearTimer. frame. Qed.

Lemma stopScreenRecording_outputs s :
  outputs (stopScreenRecording s) = outputs s.
Proof. unfold stopScreenRecording. frame. Qed.

Lemma stopScreenRecording_complete s :
  interviewComplete (stopScreenRecording s) = interviewComplete s.
Proof. unfold stopScreenRecording. frame. Qed.

Lemma before_end_request_requests s :
  end_requests (before_end_request s) = end_requests s.
Proof.
  unfold before_end_request.
  assert (H : forall x, outputs x = outputs s ->
            (end_requests (if socketRef x then emit Emit_end_interview x else x)
             = end_requests s)).
  { intros x Hx. destruct (socketRef x).
    - rewrite end_requests_emit. cbn.
      rewrite (end_requests_outputs _ _ Hx). lia.
    - now apply end_requests_outputs. }
  destruct (screenRecorderRef (set_loading true (clearTimer s))); apply H.
  - rewrite stopScreenRecording_outputs. cbn. apply clearTimer_outputs.
  - cbn. apply clearTimer_outputs.
Qed.

Lemma endInterviewManually_active s rid :
  responseId s = Some rid -> truthy (Some rid) = true ->
  interviewComplete s = false ->
  endInterviewManually s
  = set_loading false
      (let s1 := before_end_request s in
       let s2 := emit (Post_end_interview rid) s1 in
       match endResponse (end_requests s1) with
       | EndFail msg => set_error msg s2
       | EndOk => emit (Get_response rid) (set_interviewComplete true s2)
       end).
Proof.
  intros Hr Ht Hc.
  unfold Session.endInterviewManually, before_end_request.
  rewrite Hr, Ht, Hc. reflexivity.
Qed.

(** *** Renders that run no effect, or only after completion *)

Lemma same_timer_deps_intro s x :
  timeRemaining x = timeRemaining s ->
  interviewComplete x = interviewComplete s ->
  responseId x = responseId s ->
  same_timer_deps s x = true.
Proof.
  intros H1 H2 H3. unfold same_timer_deps.
  rewrite H1, H2, H3. apply same_timer_deps_refl.
Qed.

Lemma same_timer_complete_deps s x :
  same_timer_deps s x = true -> same_complete_deps s x = true.
Proof.
  unfold same_timer_deps, same_complete_deps.
  intros H. apply andb_true_iff in H as [H H3].
  apply andb_true_iff in H as [_ H2].
  now rewrite H2, H3.
Qed.

Lemma settle_render_same s x :
  timeRemaining x = timeRemaining s ->
  interviewComplete x = interviewComplete s ->
  responseId x = responseId s ->
  render s x = x.
Proof.
  intros H1 H2 H3. unfold Session.render.
  rewrite (same_timer_deps_intro _ _ H1 H2 H3).
  now rewrite (same_timer_complete_deps _ _ (same_timer_deps_intro _ _ H1 H2 H3)).
Qed.

Lemma settle_same_deps s x : same_timer_deps s x = true -> settle s x = x.
Proof.
  intros H. unfold Session.settle, Session.render.
  rewrite H, (same_timer_complete_deps _ _ H).
  now rewrite same_timer_deps_refl, same_complete_deps_refl.
Qed.

Lemma timerEffect_complete x :
  interviewComplete x = true ->
  outputs (timerEffect x) = outputs x
  /\ interviewComplete (timerEffect x) = true.
Proof.
  intros Hc. unfold Session.timerEffect.
  assert (Hc1 : interviewComplete (timerEffect_cleanup x) = true)
    by (unfold timerEffect_cleanup; rewrite <- Hc; frame).
  assert (Ho1 : outputs (timerEffect_cleanup x) = outputs x)
    by (unfold timerEffect_cleanup; frame).
  assert (Hs : timer_stopped (timerEffect_cleanup x) = true).
  { unfold timer_stopped. rewrite Hc1.
    destruct (timeRemaining (timerEffect_cleanup x)); auto using orb_true_r. }
  rewrite Hs.
  set (y := set_timerCleanup false (clearTimer (timerEffect_cleanup x))).
  assert (Hcy : interviewComplete y = true)
    by (subst y; rewrite <- Hc1; unfold clearTimer; frame).
  assert (Hoy : outputs y = outputs x)
    by (subst y; rewrite <- Ho1; unfold clearTimer; frame).
  rewrite Hcy. cbn [negb andb].
  destruct (timeRemaining y) as [[| |]|]; auto.
Qed.

Lemma completeEffect_outputs x :
  outputs (completeEffect x) = outputs x
  /\ interviewComplete (completeEffect x) = interviewComplete x.
Proof.
  unfold completeEffect.
  repeat split_test; auto using stopScreenRecording_outputs,
                                stopScreenRecording_complete.
Qed.

Lemma render_complete before x :
  interviewComplete x = true ->
  outputs (render before x) = outputs x
  /\ interviewComplete (render before x) = true.
Proof.
  intros Hc. unfold Session.render.
  destruct (timerEffect_complete x Hc) as [Ho1 Hc1].
  destruct (completeEffect_outputs x) as [Ho2 Hc2].
  destruct (completeEffect_outputs (timerEffect x)) as [Ho3 Hc3].
  repeat split_test; split; congruence.
Qed.

Lemma settle_complete before x :
  interviewComplete x = true ->
  outputs (settle before x) = outputs x
  /\ interviewComplete (settle before x) = true.
Proof.
  intros Hc. unfold Session.settle.
  destruct (render_complete before x Hc) as [Ho1 Hc1].
  destruct (render_complete x _ Hc1) as [Ho2 Hc2].
  split; congruence.
Qed.

(** Two renders are enough: a third one finds the dependencies of
    every effect unchanged. *)
Lemma settle_stable before x :
  render (render before x) (settle before x) = settle before x.
Proof.
  unfold Session.settle.
  set (r1 := render before x).
  pose proof (render_untouched before x) as Hu1. fold r1 in Hu1.
  pose proof (render_untouched x r1) as Hu2.
  destruct (interviewComplete r1) eqn:H1.
  - destruct (render_complete x r1 H1) as [_ H2].
    apply settle_render_same.
    + apply (same_timeRemaining Hu2).
    + now rewrite H2, H1.
    + apply (same_responseId Hu2).
  - assert (Hx : interviewComplete x = false).
    { destruct (interviewComplete x) eqn:Hx; [|reflexivity].
      destruct (render_complete before x Hx) as [_ H]. fold r1 in H.
      congruence. }
    rewrite (@settle_render_same x r1); [apply render_same| | |].
    + apply (same_timeRemaining Hu1).
    + now rewrite H1, Hx.
    + apply (same_responseId Hu1).
Qed.

(** What a call that passes the guard of [endInterviewManually] does
    to the fields the properties below speak of. *)
Lemma endInterviewManually_request s rid :
  responseId s = Some rid -> truthy (Some rid) = true ->
  interviewComplete s = false ->
  let s' := endInterviewManually s in
  end_requests s' = S (end_requests s)
  /\ In (Post_end_interview rid) (outputs s')
  /\ interviewComplete s'
     = match endResponse (end_requests s) with
       | EndOk => true
       | EndFail _ => false
       end.
Proof.
  intros Hr Ht Hc s'. subst s'.
  rewrite (endInterviewManually_active _ Hr Ht Hc). cbv zeta.
  pose proof (before_end_request_requests s) as Hn.
  assert (Hcb : interviewComplete (before_end_request s) = false).
  { rewrite <- Hc. unfold before_end_request, clearTimer, stopScreenRecording.
    frame. }
  rewrite Hn.
  destruct (endResponse (end_requests s)); cbn.
  - repeat split.
    + change (end_requests (emit (Post_end_interview rid) (before_end_request s))
              = S (end_requests s)).
      rewrite end_requests_emit, Hn. cbn. lia.
    + apply in_or_app. right. now left.
    + exact Hcb.
  - repeat split.
    + change (end_requests
                (emit (Get_response rid)
                   (emit (Post_end_interview rid) (before_end_request s)))
              = S (end_requests s)).
      rewrite !end_requests_emit, Hn. cbn. lia.
    + apply in_or_app. left. apply in_or_app. right. now left.
Qed.

(** *** C5: ending twice *)

(** C5.  Ending the interview when it is already complete changes
    nothing: the state, and with it the list of backend calls, is the
    one before the call. *)
Theorem end_when_complete_is_noop (s : State) :
  interviewComplete s = true ->
  endInterviewManually s = s /\ step s EndInterview = s.
Proof.
  intros Hc.
  assert (He : endInterviewManually s = s).
  { unfold Session.endInterviewManually.
    destruct (responseId s); [|reflexivity].
    now rewrite Hc, orb_true_r. }
  split; [exact He|].
  unfold Session.step. cbn [Session.handle].
  rewrite He. apply settle_same.
Qed.

(** *** C4: tab switches *)

Lemma monitoring_inv s :
  monitoring s = true ->
  exists rid, responseId s = Some rid /\ truthy (Some rid) = true
              /\ interviewComplete s = false.
Proof.
  unfold monitoring. intros H.
  apply andb_true_iff in H as [Ht Hc].
  apply negb_true_iff in Hc.
  destruct (responseId s) as [rid|] eqn:Hr; [|discriminate].
  now exists rid.
Qed.

(** C4.  While the monitor listens, a transition to hidden adds one to
    the tab-switch counter and appends a [tab_switch] alert; if the
    counter is then 3 (or more) the interview is ended through
    [endInterviewManually], which sends its request to the backend and
    completes the session when the backend accepts; below 3 no such
    request is sent. *)
Theorem tab_switch_policy (s : State) (now : Z) :
  monitoring s = true ->
  let s' := step s (VisibilityChange true now) in
  let count := S (tabSwitchCountRef s) in
  tabSwitchCountRef s' = count
  /\ cheatingAlertsRef s'
     = (cheatingAlertsRef s ++ [tab_switch_alert count now])%list
  /\ (3 <= count ->
      end_requests s' = S (end_requests s)
      /\ interviewComplete s'
         = match endResponse (end_requests s) with
           | EndOk => true
           | EndFail _ => false
           end)
  /\ (count < 3 ->
      end_requests s' = end_requests s /\ interviewComplete s' = false).
Proof.
  intros Hm s' count.
  destruct (monitoring_inv _ Hm) as (rid & Hr & Ht & Hc).
  set (s3 := set_error (tab_warning count)
               (recordCheatingAlert (responseId s) "tab_switch"
                  (alert_details (tab_switch_alert count now)) now
                  (set_tabSwitchCountRef count s))).
  assert (Hh : handle (VisibilityChange true now) s
               = if (3 <=? count)%nat
                 then endInterviewManually (set_error tab_terminated s3)
                 else s3).
  { cbn [Session.handle]. rewrite Hm. reflexivity. }
  assert (H3 : responseId s3 = Some rid /\ interviewComplete s3 = false
               /\ timeRemaining s3 = timeRemaining s
               /\ tabSwitchCountRef s3 = count
               /\ cheatingAlertsRef s3
                  = (cheatingAlertsRef s ++ [tab_switch_alert count now])%list
               /\ end_requests s3 = end_requests s).
  { subst s3. unfold recordCheatingAlert. rewrite Hr, Ht.
    repeat split; try assumption.
    change (end_requests
              (emit (Post_cheating_alert rid "tab_switch"
                       (alert_details (tab_switch_alert count now)))
                 (set_cheatingAlertsRef
                    (cheatingAlertsRef (set_tabSwitchCountRef count s)
                     ++ [tab_switch_alert count now])%list
                    (set_tabSwitchCountRef count s)))
            = end_requests s).
    rewrite end_requests_emit. cbn. unfold end_requests. cbn. lia. }
  destruct H3 as (Hr3 & Hc3 & Ht3 & Hn3 & Ha3 & He3).
  subst s'. unfold Session.step. rewrite Hh.
  destruct (3 <=? count)%nat eqn:Hcount.
  - apply Nat.leb_le in Hcount.
    set (y := set_error tab_terminated s3).
    destruct (@endInterviewManually_request y rid Hr3 Ht Hc3)
      as (Hreq & _ & Hdone).
    pose proof (endInterviewManually_untouched y) as Hu.
    pose proof (settle_untouched s (endInterviewManually y)) as Hv.
    change (end_requests y) with (end_requests s3) in Hreq, Hdone.
    rewrite He3 in Hreq, Hdone.
    split; [rewrite (same_tabSwitchCountRef Hv), (same_tabSwitchCountRef Hu);
            exact Hn3|].
    split; [rewrite (same_cheatingAlertsRef Hv), (same_cheatingAlertsRef Hu);
            exact Ha3|].
    split; [|lia].
    intros _.
    destruct (endResponse (end_requests s)) eqn:Hresp.
    + rewrite settle_same_deps; [now split|].
      apply same_timer_deps_intro.
      * rewrite (same_timeRemaining Hu). exact Ht3.
      * now rewrite Hdone, Hc.
      * rewrite (same_responseId Hu), Hr. exact Hr3.
    + destruct (settle_complete s _ Hdone) as [Ho Hcomp].
      split; [|exact Hcomp].
      rewrite (end_requests_outputs _ _ Ho). exact Hreq.
  - apply Nat.leb_gt in Hcount.
    rewrite settle_same_deps
      by (apply same_timer_deps_intro; congruence).
    repeat split; try assumption; lia.
Qed.

(** *** C3: screen sharing stopped *)

Local Abbreviation no_restart := (no_restart endResponse props).

Lemma startScreenRecording_flag c rid ex env s :
  screenSharingStopped (fst (startScreenRecording c rid ex env s))
  = screenSharingStopped s.
Proof.
  unfold startScreenRecording, startRecorder, requestDisplayStream,
    existingDisplayStream.
  frame.
Qed.

Lemma startSession_flag env s :
  screenSharingStopped (startSession props env s) = screenSharingStopped s.
Proof.
  unfold startSession.
  destruct (sessionInitializedRef s); [reflexivity|].
  destruct env as [msg|data q scr]; [reflexivity|].
  cbn [screenSharingStopped set_loading].
  destruct (response_id data) as [rid|] eqn:Hrid; [|frame].
  destruct (truthy (Some rid)); [|frame].
  match goal with
  | |- context [startScreenRecording ?c ?r ?e ?v ?x] =>
      pose proof (startScreenRecording_flag c r e v x) as H;
      destruct (startScreenRecording c r e v x) as [y [m|]]
  end; cbn [fst] in H.
  - destruct (screenPermissionGranted props && _);
      [destruct (is_validation_message m)|]; cbn; try rewrite H;
      unfold fetchCurrentQuestion; frame.
  - destruct (screenPermissionGranted props && _);
      cbn; try rewrite H; unfold fetchCurrentQuestion; frame.
Qed.

Lemma restartScreenSharing_flag env s :
  screenSharingStopped s = true ->
  restart_succeeds s (RestartScreenSharing env) = false ->
  screenSharingStopped (restartScreenSharing env s) = true.
Proof.
  intros Hf Hr. unfold restartScreenSharing. cbn [restart_succeeds] in Hr.
  destruct (responseId s) as [rid|] eqn:Hrid; [|exact Hf].
  destruct (truthy (Some rid)); [|exact Hf].
  cbn [negb andb] in *.
  change (responseId (set_error EmptyString s)) with (responseId s).
  rewrite Hrid in *.
  pose proof (startScreenRecording_flag (Some rid) rid None env
                (set_error EmptyString s)) as H.
  destruct (startScreenRecording (Some rid) rid None env
              (set_error EmptyString s)) as [y [m|]];
    cbn [fst snd] in *; [|discriminate].
  cbn. now rewrite H.
Qed.

Lemma handle_flag ev s :
  screenSharingStopped s = true ->
  restart_succeeds s ev = false ->
  screenSharingStopped (handle ev s) = true.
Proof.
  intros Hf Hr.
  destruct ev; cbn [Session.handle].
  - now rewrite startSession_flag.
  - rewrite <- Hf. frame.
  - rewrite <- Hf. frame.
  - rewrite <- Hf. unfold appendTranscript. frame.
  - rewrite <- Hf. unfold appendTranscript. frame.
  - rewrite <- Hf. frame.
  - destruct (monitoring s); [|exact Hf].
    unfold Session.handleVisibilityChange.
    destruct hidden; [|exact Hf].
    rewrite <- Hf.
    destruct (3 <=? _)%nat;
      [rewrite (same_screenSharingStopped (endInterviewManually_untouched _))|];
      unfold recordCheatingAlert; frame.
  - rewrite <- Hf. unfold handleBlur, recordCheatingAlert. frame.
  - unfold toggleRecording. now rewrite Hf.
  - unfold submitAnswer. rewrite Hf. frame.
  - now rewrite (same_screenSharingStopped (endInterviewManually_untouched _)).
  - now apply restartScreenSharing_flag.
  - destruct (trackOnended s); [|exact Hf].
    unfold videoTrack_onended, stopScreenRecording, recordCheatingAlert.
    frame.
  - rewrite <- Hf. unfold ondataavailable. frame.
  - rewrite <- Hf.
    unfold ondataavailable_resume, sendChunk. frame.
Qed.

Lemma step_flag ev s :
  screenSharingStopped s = true ->
  restart_succeeds s ev = false ->
  screenSharingStopped (step s ev) = true.
Proof.
  intros Hf Hr. unfold Session.step.
  rewrite (same_screenSharingStopped (settle_untouched _ _)).
  now apply handle_flag.
Qed.

Lemma run_flag evs s :
  screenSharingStopped s = true ->
  no_restart s evs = true ->
  screenSharingStopped (run s evs) = true.
Proof.
  revert s. induction evs as [|ev evs IH]; intros s Hf Hn; [exact Hf|].
  cbn [Session.no_restart] in Hn.
  apply andb_true_iff in Hn as [Hr Hn]. apply negb_true_iff in Hr.
  cbn [Session.run fold_left]. apply IH; [|exact Hn].
  now apply step_flag.
Qed.

Lemma step_only_error ev s msg :
  handle ev s = set_error msg s -> step s ev = set_error msg s.
Proof.
  intros H. unfold Session.step. rewrite H.
  apply settle_same_deps. now apply same_timer_deps_intro.
Qed.

(** C3.  When the screen track ends while its handler is installed, an
    alert [screen_sharing_stopped] is appended and [screenSharingStopped]
    is set.  As long as no restart of screen sharing succeeds, the flag
    stays set, and [toggleRecording] and [submitAnswer] only set an
    error message: no request is sent and no recording is started.  A
    restart that succeeds clears the flag. *)
Theorem screen_sharing_stopped_blocks (s : State) (c : option string)
    (now : Z) (evs : list Event) :
  trackOnended s = Some c ->
  let s1 := step s (ScreenTrackEnded now) in
  no_restart s1 evs = true ->
  let s2 := run s1 evs in
  cheatingAlertsRef s1
  = (cheatingAlertsRef s ++ [screen_stopped_alert now])%list
  /\ screenSharingStopped s1 = true
  /\ screenSharingStopped s2 = true
  /\ (forall mic,
        step s2 (ToggleRecording mic) = set_error cannot_record s2)
  /\ (forall env,
        step s2 (SubmitAnswer env) = set_error cannot_submit s2
        \/ step s2 (SubmitAnswer env)
           = set_error "Please record an answer first" s2)
  /\ (forall ev,
        restart_succeeds s2 ev = true ->
        screenSharingStopped (step s2 ev) = false).
Proof.
  intros Hc s1 Hn s2.
  assert (H1 : cheatingAlertsRef s1
               = (cheatingAlertsRef s ++ [screen_stopped_alert now])%list
               /\ screenSharingStopped s1 = true).
  { subst s1. unfold Session.step. cbn [Session.handle]. rewrite Hc.
    rewrite (same_cheatingAlertsRef (settle_untouched _ _)).
    rewrite (same_screenSharingStopped (settle_untouched _ _)).
    unfold videoTrack_onended, stopScreenRecording, recordCheatingAlert.
    split; frame. }
  destruct H1 as [Ha Hf1].
  assert (Hf2 : screenSharingStopped s2 = true) by now apply run_flag.
  repeat split; try assumption.
  - intros mic. apply step_only_error.
    cbn [Session.handle]. unfold toggleRecording. now rewrite Hf2.
  - intros env.
    assert (H : handle (SubmitAnswer env) s2 = set_error cannot_submit s2
                \/ handle (SubmitAnswer env) s2
                   = set_error "Please record an answer first" s2).
    { cbn [Session.handle]. unfold submitAnswer. rewrite Hf2.
      destruct (responseId s2); [|now right].
      destruct (_ || _); [now right|now left]. }
    destruct H as [H|H]; [left|right]; now apply step_only_error.
  - intros ev Hr. unfold Session.step.
    rewrite (same_screenSharingStopped (settle_untouched _ _)).
    destruct ev; try discriminate.
    cbn [Session.handle restart_succeeds] in *.
    unfold restartScreenSharing.
    destruct (responseId s2) as [rid|] eqn:Hrid; [|discriminate].
    apply andb_true_iff in Hr as [Ht Hs]. rewrite Ht. cbn [negb].
    change (responseId (set_error EmptyString s2)) with (responseId s2).
    rewrite Hrid in *.
    destruct (startScreenRecording (Some rid) rid None env
                (set_error EmptyString s2)) as [y [m|]];
      cbn [snd] in Hs; [discriminate|reflexivity].
Qed.

(** *** C10: the remaining time is never negative *)

Lemma tick_spec :
  tick None = Some 0%Z
  /\ (forall p, (p <= 1)%Z -> tick (Some p) = Some 0%Z)
  /\ (forall p, (1 < p)%Z -> tick (Some p) = Some (p - 1)%Z).
Proof.
  repeat split; intros p Hp; unfold tick.
  - apply Z.leb_le in Hp. now rewrite Hp.
  - apply Z.leb_gt in Hp. now rewrite Hp.
Qed.

Lemma tick_not_negative prev :
  match tick prev with
  | Some t => (0 <= t)%Z
  | None => True
  end.
Proof.
  destruct prev as [p|]; cbn; [|lia].
  destruct (p <=? 1)%Z eqn:Hp; [lia|].
  apply Z.leb_gt in Hp. lia.
Qed.

Lemma startScreenRecording_timeRemaining c rid ex env s :
  timeRemaining (fst (startScreenRecording c rid ex env s))
  = timeRemaining s.
Proof.
  unfold startScreenRecording, startRecorder, requestDisplayStream,
    existingDisplayStream.
  frame.
Qed.

Lemma startSession_timeRemaining env s :
  timeRemaining (startSession props env s) = timeRemaining s
  \/ exists minutes,
       (0 < minutes)%Z
       /\ timeRemaining (startSession props env s) = Some (minutes * 60)%Z.
Proof.
  unfold startSession.
  destruct (sessionInitializedRef s); [now left|].
  destruct env as [msg|data q scr]; [now left|].
  cbn [timeRemaining set_loading].
  match goal with
  | |- context [match response_id data with
                | Some rid => @?f rid
                | None => ?g
                end] =>
      assert (Hf : timeRemaining
                     (match response_id data with
                      | Some rid => f rid
                      | None => g
                      end) = timeRemaining g)
  end.
  { destruct (response_id data) as [rid|]; [|reflexivity].
    destruct (truthy (Some rid)); [|reflexivity].
    destruct (screenPermissionGranted props && _);
      [|unfold fetchCurrentQuestion; frame].
    match goal with
    | |- context [startScreenRecording ?c ?r ?e ?v ?x] =>
        pose proof (startScreenRecording_timeRemaining c r e v x) as H;
        destruct (startScreenRecording c r e v x) as [y [m|]]
    end; cbn [fst] in H;
      [destruct (is_validation_message m)|]; cbn; rewrite H;
      unfold fetchCurrentQuestion; frame. }
  rewrite Hf.
  destruct (duration_minutes data) as [minutes|]; [|now left].
  destruct (0 <? minutes)%Z eqn:Hpos; [|now left].
  right. exists minutes. split; [now apply Z.ltb_lt|reflexivity].
Qed.

Lemma handle_time_not_negative ev s :
  time_not_negative s -> time_not_negative (handle ev s).
Proof.
  unfold time_not_negative. intros Hs.
  assert (Hsame : forall x, timeRemaining x = timeRemaining s ->
            match timeRemaining x with
            | Some t => (0 <= t)%Z
            | None => True
            end) by (intros x ->; exact Hs).
  destruct ev; cbn [Session.handle].
  - destruct (startSession_timeRemaining env s) as [H|(m & Hm & H)].
    + now apply Hsame.
    + rewrite H. lia.
  - apply Hsame. frame.
  - apply Hsame. frame.
  - apply Hsame. unfold appendTranscript. frame.
  - apply Hsame. unfold appendTranscript. frame.
  - destruct (liveIntervals s); [exact Hs|].
    apply tick_not_negative.
  - apply Hsame.
    destruct (monitoring s); [|reflexivity].
    unfold Session.handleVisibilityChange.
    destruct hidden; [|reflexivity].
    destruct (3 <=? _)%nat;
      [rewrite (same_timeRemaining (endInterviewManually_untouched _))|];
      unfold recordCheatingAlert; frame.
  - apply Hsame. unfold handleBlur, recordCheatingAlert. frame.
  - apply Hsame. unfold toggleRecording, startRecording, stopRecording. frame.
  - apply Hsame.
    unfold submitAnswer, stopRecording, fetchCurrentQuestion. frame.
  - apply Hsame.
    now rewrite (same_timeRemaining (endInterviewManually_untouched _)).
  - apply Hsame. unfold restartScreenSharing.
    destruct (responseId s) as [rid|]; [|reflexivity].
    destruct (negb _); [reflexivity|].
    match goal with
    | |- context [startScreenRecording ?c ?r ?e ?v ?x] =>
        pose proof (startScreenRecording_timeRemaining c r e v x) as H;
        destruct (startScreenRecording c r e v x) as [y [m|]]
    end; cbn [fst] in H; cbn; now rewrite H.
  - apply Hsame. destruct (trackOnended s); [|reflexivity].
    unfold videoTrack_onended, stopScreenRecording, recordCheatingAlert.
    frame.
  - apply Hsame. unfold ondataavailable. frame.
  - apply Hsame. unfold ondataavailable_resume, sendChunk. frame.
Qed.

Lemma step_time_not_negative ev s :
  time_not_negative s -> time_not_negative (step s ev).
Proof.
  intros Hs. unfold Session.step, time_not_negative.
  rewrite (same_timeRemaining (settle_untouched _ _)).
  now apply handle_time_not_negative.
Qed.

(** C10.  The per-second update maps [null] and every value up to 1 to
    0 and any other value to its predecessor; in every state the
    component reaches from its initial state, whatever events occur
    and whatever the environment answers, [timeRemaining] is [null]
    or not negative. *)
Theorem timeRemaining_never_negative (evs : list Event) :
  (tick None = Some 0%Z
   /\ (forall p, (p <= 1)%Z -> tick (Some p) = Some 0%Z)
   /\ (forall p, (1 < p)%Z -> tick (Some p) = Some (p - 1)%Z))
  /\ time_not_negative (run init evs).
Proof.
  split; [exact tick_spec|].
  assert (H : forall s, time_not_negative s -> time_not_negative (run s evs)).
  { induction evs as [|ev evs' IH]; intros s Hs; [exact Hs|].
    cbn [Session.run fold_left]. apply IH.
    now apply step_time_not_negative. }
  apply H. exact I.
Qed.

(** *** C6 and C7: the countdown *)



Lemma tick_idle s : liveIntervals s = [] -> step s TimerTick = s.
Proof.
  intros Hl. unfold Session.step. cbn [Session.handle].
  rewrite Hl. apply settle_same.
Qed.




Lemma screen_frame_emit o s :
  is_end_request o = false -> screen_frame s (emit o s).
Proof.
  intros Ho. constructor; try reflexivity.
  unfold emit. cbn. rewrite filter_app. cbn. rewrite Ho. apply app_nil_r.
Qed.

Lemma screen_frame_trans s1 s2 s3 :
  screen_frame s1 s2 -> screen_frame s2 s3 -> screen_frame s1 s3.
Proof.
  intros [] []. constructor; congruence.
Qed.

Lemma startRecorder_frame c rid env stream s :
  screen_frame s (fst (startRecorder c rid env stream s)).
Proof.
  unfold startRecorder.
  repeat first [ split_test | constructor; reflexivity ].
Qed.

Lemma startScreenRecording_frame c rid ex env s :
  screen_frame s (fst (startScreenRecording c rid ex env s)).
Proof.
  assert (Hrefl : screen_frame s s) by (constructor; reflexivity).
  assert (He : screen_frame s (emit GetDisplayMedia s))
    by now apply screen_frame_emit.
  unfold startScreenRecording.
  destruct (recorder_active s); [exact Hrefl|].
  destruct (existingDisplayStream ex s) as [[d|]|];
    [apply startRecorder_frame| |exact Hrefl].
  unfold requestDisplayStream.
  repeat first [ exact He | split_test ];
    (eapply screen_frame_trans; [exact He|apply startRecorder_frame]).
Qed.

Lemma fetchCurrentQuestion_frame rid q s :
  responseId (fetchCurrentQuestion rid q s) = responseId s
  /\ interviewComplete (fetchCurrentQuestion rid q s)
     = (is_complete q || interviewComplete s)
  /\ timeRemaining (fetchCurrentQuestion rid q s) = timeRemaining s
  /\ timerCleanup (fetchCurrentQuestion rid q s) = timerCleanup s
  /\ timerIntervalRef (fetchCurrentQuestion rid q s) = timerIntervalRef s
  /\ liveIntervals (fetchCurrentQuestion rid q s) = liveIntervals s
  /\ nextInterval (fetchCurrentQuestion rid q s) = nextInterval s
  /\ filter is_end_request (outputs (fetchCurrentQuestion rid q s))
     = filter is_end_request (outputs s).
Proof.
  assert (Ho : filter is_end_request (outputs s ++ [Get_current_question rid])
               = filter is_end_request (outputs s))
    by (rewrite filter_app; apply app_nil_r).
  unfold fetchCurrentQuestion. destruct q; cbn; repeat split; assumption.
Qed.



Lemma timerEffect_disabled x :
  timerCleanup x = false -> timerIntervalRef x = None ->
  timeRemaining x = None ->
  timerEffect x = x.
Proof.
  intros Hc Hr Ht.
  destruct x; cbn in *; subst.
  unfold Session.timerEffect, timerEffect_cleanup, timer_stopped, clearTimer.
  reflexivity.
Qed.









Lemma run_app s evs1 evs2 :
  run s (evs1 ++ evs2) = run (run s evs1) evs2.
Proof.
  unfold Session.run. apply fold_left_app.
Qed.

Lemma run_ticks_idle s n :
  liveIntervals s = [] -> run s (repeat TimerTick n) = s.
Proof.
  intros Hl. induction n as [|n IH]; [reflexivity|].
  cbn [repeat Session.run fold_left].
  rewrite (tick_idle _ Hl). exact IH.
Qed.





(** The mount effect writes neither the timer's fields nor a request
    to end the interview. *)
Lemma startSession_timer_frame env s :
  let x := startSession props env s in
  timerCleanup x = timerCleanup s
  /\ timerIntervalRef x = timerIntervalRef s
  /\ liveIntervals x = liveIntervals s
  /\ filter is_end_request (outputs x) = filter is_end_request (outputs s).
Proof.
  assert (Hemit : forall o y, is_end_request o = false ->
            filter is_end_request (outputs y ++ [o])
            = filter is_end_request (outputs y))
    by (intros o y Ho; rewrite filter_app; cbn; rewrite Ho; apply app_nil_r).
  unfold startSession.
  destruct (sessionInitializedRef s); [now repeat split|].
  destruct env as [msg|data q scr];
    [cbn; repeat split; now apply Hemit|].
  cbn [timerCleanup timerIntervalRef liveIntervals outputs set_loading].
  set (s1 := set_socketRef true _).
  assert (H1 : timerCleanup s1 = timerCleanup s
               /\ timerIntervalRef s1 = timerIntervalRef s
               /\ liveIntervals s1 = liveIntervals s
               /\ filter is_end_request (outputs s1)
                  = filter is_end_request (outputs s)).
  { subst s1.
    destruct (duration_minutes data) as [m|]; [destruct (0 <? m)%Z|];
      cbn; repeat split; now apply Hemit. }
  destruct H1 as (Hcl & Hrf & Hl & Ho).
  destruct (response_id data) as [rid|]; [|now repeat split].
  destruct (truthy (Some rid)); [|now repeat split].
  destruct (fetchCurrentQuestion_frame rid q s1)
    as (_ & _ & _ & Gcl & Grf & Gl & _ & Go).
  set (s2 := fetchCurrentQuestion rid q s1) in *.
  assert (H2 : forall y, screen_frame s2 y ->
            timerCleanup y = timerCleanup s
            /\ timerIntervalRef y = timerIntervalRef s
            /\ liveIntervals y = liveIntervals s
            /\ filter is_end_request (outputs y)
               = filter is_end_request (outputs s))
    by (intros y []; repeat split; congruence).
  assert (Hrefl : screen_frame s2 s2) by (constructor; reflexivity).
  destruct (screenPermissionGranted props && negb (recorder_active s2));
    [|now apply H2].
  pose proof (startScreenRecording_frame None rid
                (existingScreenStream props) scr s2) as Hf.
  destruct (startScreenRecording None rid (existingScreenStream props)
              scr s2) as [y [m|]]; cbn [fst] in Hf; [|now apply H2].
  destruct (is_validation_message m); [now apply H2|].
  destruct Hf.
  apply (H2 (set_error m y)). constructor; assumption.
Qed.

Lemma render_disabled before x :
  timerCleanup x = false -> timerIntervalRef x = None ->
  timeRemaining x = None ->
  timeRemaining (render before x) = None
  /\ timerCleanup (render before x) = false
  /\ timerIntervalRef (render before x) = None
  /\ liveIntervals (render before x) = liveIntervals x
  /\ outputs (render before x) = outputs x.
Proof.
  intros Hc Hr Ht. unfold Session.render.
  rewrite (timerEffect_disabled _ Hc Hr Ht).
  assert (H : timeRemaining (completeEffect x) = None
              /\ timerCleanup (completeEffect x) = false
              /\ timerIntervalRef (completeEffect x) = None
              /\ liveIntervals (completeEffect x) = liveIntervals x
              /\ outputs (completeEffect x) = outputs x).
  { rewrite <- Hc, <- Hr, <- Ht.
    unfold completeEffect, stopScreenRecording. repeat split; frame. }
  destruct (same_timer_deps before x), (same_complete_deps before x);
    try exact H; now repeat split.
Qed.

(** C7, as the code has it.  A session started with
    [duration_minutes = 0] has no timer: [timeRemaining] stays [null],
    no interval is scheduled, ticks change nothing, and the timer does
    not end the interview. *)
Theorem zero_duration_timer_disabled (rid : option string)
    (q : QuestionEnv) (scr : ScreenEnv) (n : nat) :
  let s0 := step init
              (Mount (StartOk {| response_id := rid;
                                 duration_minutes := Some 0%Z |} q scr)) in
  timeRemaining s0 = None
  /\ liveIntervals s0 = []
  /\ end_requests s0 = 0
  /\ run s0 (repeat TimerTick n) = s0.
Proof.
  intros s0.
  set (env := StartOk {| response_id := rid;
                         duration_minutes := Some 0%Z |} q scr) in *.
  destruct (startSession_timer_frame env init) as (Hcl & Hrf & Hl & Ho).
  cbv zeta in *. cbn [init timerCleanup timerIntervalRef liveIntervals
                        outputs filter] in Hcl, Hrf, Hl, Ho.
  assert (Ht : timeRemaining (startSession props env init) = None).
  { destruct (startSession_timeRemaining env init) as [H|(m & Hm & H)];
      [exact H|].
    exfalso. revert H. subst env.
    unfold startSession. cbn [sessionInitializedRef init duration_minutes].
    cbn [Z.ltb Z.compare].
    match goal with
    | |- timeRemaining (set_loading false ?b) = _ -> _ =>
        assert (Hb : timeRemaining b = None)
    end.
    { destruct rid as [r|]; [|reflexivity].
      cbn [response_id]. destruct (truthy (Some r)); [|reflexivity].
      destruct (screenPermissionGranted props && _);
        [|unfold fetchCurrentQuestion; frame].
      match goal with
      | |- context [startScreenRecording ?c ?r ?e ?v ?x] =>
          pose proof (startScreenRecording_timeRemaining c r e v x) as H;
          destruct (startScreenRecording c r e v x) as [y [msg|]]
      end; cbn [fst] in H;
        [destruct (is_validation_message msg)|]; cbn; rewrite H;
        unfold fetchCurrentQuestion; frame. }
    cbn [timeRemaining set_loading]. rewrite Hb. discriminate. }
  set (x := startSession props env init) in *.
  destruct (@render_disabled init x Hcl Hrf Ht) as (R1 & R2 & R3 & R4 & R5).
  destruct (@render_disabled x (render init x) R2 R3 R1)
    as (Q1 & Q2 & Q3 & Q4 & Q5).
  assert (Hl0 : liveIntervals s0 = []).
  { subst s0. unfold Session.step, Session.settle. cbn [Session.handle].
    fold x. now rewrite Q4, R4. }
  repeat split.
  - subst s0. unfold Session.step, Session.settle. cbn [Session.handle].
    fold x. exact Q1.
  - exact Hl0.
  - subst s0. unfold Session.step, Session.settle, end_requests.
    cbn [Session.handle]. fold x. now rewrite Q5, R5, Ho.
  - apply run_ticks_idle. exact Hl0.
Qed.

(** *** C1 and C2: screen chunks *)

Lemma waitForSocket_true sleeps k socketAt :
  waitForSocket sleeps k socketAt = true
  <-> exists j, k <= j <= k + sleeps /\ socketAt j = true.
Proof.
  revert k. induction sleeps as [|n IH]; intros k; cbn [waitForSocket].
  - destruct (socketAt k) eqn:Hk.
    + split; [intros _; exists k; split; [lia|exact Hk]|reflexivity].
    + split; [discriminate|].
      intros (j & Hj & Hs). replace j with k in Hs by lia. congruence.
  - destruct (socketAt k) eqn:Hk.
    + split; [intros _; exists k; split; [lia|exact Hk]|reflexivity].
    + rewrite IH. split; intros (j & Hj & Hs).
      * exists j. split; [lia|exact Hs].
      * exists j. split; [|exact Hs].
        destruct (Nat.eq_dec j k) as [->|]; [congruence|lia].
Qed.

(** The wait ends after at most fifty sleeps of 100 ms: the socket is
    ready if and only if one of the tests 0 to 50 finds it
    connected. *)
Lemma socketReady_spec env :
  socketReady env = true <-> exists j, j <= 50 /\ socketAt env j = true.
Proof.
  unfold socketReady. rewrite waitForSocket_true.
  change (Z.to_nat (maxWait / pollInterval)) with 50.
  split; intros (j & Hj & Hs); exists j; (split; [lia|exact Hs]).
Qed.

Lemma sendChunk_fails p env s :
  upload_fails env = true ->
  exists err, snd (sendChunk p env s) = Some err
              /\ fst (sendChunk p env s)
                 = set_outputs (outputs (fst (sendChunk p env s))) s.
Proof.
  unfold upload_fails, sendChunk. intros Hf.
  destruct (Base64.blobToBase64 (readerResult env)) as [e|b];
    [exists e; now destruct s|].
  destruct (socketReady env); cbn [negb orb] in Hf;
    [|eexists; now destruct s].
  destruct (ack env); [discriminate| |]; eexists; now destruct s.
Qed.

(** What a handler emits is what the encoder produced, sent as [mp4]
    under the [resId] of the recorder. *)
Lemma emitted_chunk_is_encoded p env s :
  outputs (fst (ondataavailable_resume p env s)) = outputs s
  \/ exists base64Chunk,
       Base64.blobToBase64 (readerResult env) = inr base64Chunk
       /\ outputs (fst (ondataavailable_resume p env s))
          = (outputs s
             ++ [Log_sending_chunk (p_chunkIndex p);
                 Emit_save_video_chunk (p_resId p) base64Chunk "mp4"])%list.
Proof.
  unfold ondataavailable_resume, sendChunk.
  destruct (Base64.blobToBase64 (readerResult env)) as [e|b]; [now left|].
  destruct (socketReady env); [|now left].
  right. exists b. split; [reflexivity|].
  destruct (ack env); cbn; now rewrite <- app_assoc.
Qed.

Lemma step_chunk_resume s k p env :
  nth_error (pending s) k = Some p ->
  step s (ChunkResume k env)
  = fst (ondataavailable_resume p env
           (set_pending (remove_nth k (pending s)) s)).
Proof.
  intros Hp. unfold Session.step. cbn [Session.handle]. rewrite Hp.
  apply settle_same_deps.
  unfold ondataavailable_resume, sendChunk.
  apply same_timer_deps_intro; frame.
Qed.

Lemma step_data_available s r d :
  screenRecorderRef s = Some r -> 0 < blob_size d ->
  step s (DataAvailable (Some d))
  = set_pending
      (pending s
       ++ [{| p_resId := rec_resId r;
              p_chunkIndex := screenChunkIndexRef s;
              p_data := d |}])%list
      (set_screenChunksRef (screenChunksRef s ++ [d])%list s).
Proof.
  intros Hr Hd. unfold Session.step. cbn [Session.handle]. rewrite Hr.
  unfold ondataavailable. apply Nat.ltb_lt in Hd. rewrite Hd.
  apply settle_same_deps. now apply same_timer_deps_intro.
Qed.

(** C2.  When the upload of a chunk fails (the socket is still down
    after the wait of at most five seconds, no acknowledgement within
    ten seconds, or an error is answered), the error stays inside the
    handler: no exception leaves it, and besides the send log nothing
    of the state changes.  The recorder, the stream and the session go
    on as they were, and the next chunk is collected and handled. *)
Theorem chunk_upload_failure_contained (s : State) (k : nat) (p : Pending)
    (env : ChunkEnv) (r : Recorder) (d : Blob) :
  upload_fails env = true ->
  nth_error (pending s) k = Some p ->
  screenRecorderRef s = Some r ->
  0 < blob_size d ->
  let waiting := set_pending (remove_nth k (pending s)) s in
  let s' := step s (ChunkResume k env) in
  let s'' := step s' (DataAvailable (Some d)) in
  snd (ondataavailable_resume p env waiting) = None
  /\ s' = set_outputs (outputs s') waiting
  /\ screenRecorderRef s' = Some r
  /\ screenStreamRef s' = screenStreamRef s
  /\ interviewComplete s' = interviewComplete s
  /\ screenChunkIndexRef s' = screenChunkIndexRef s
  /\ screenChunksRef s'' = (screenChunksRef s ++ [d])%list
  /\ pending s''
     = (remove_nth k (pending s)
        ++ [{| p_resId := rec_resId r;
               p_chunkIndex := screenChunkIndexRef s;
               p_data := d |}])%list.
Proof.
  intros Hf Hp Hr Hd waiting s' s''.
  assert (Hs' : s' = fst (ondataavailable_resume p env waiting))
    by now apply step_chunk_resume.
  destruct (@sendChunk_fails p env waiting Hf) as (err & Herr & Heq).
  assert (Hres : ondataavailable_resume p env waiting
                 = (fst (sendChunk p env waiting), None)).
  { unfold ondataavailable_resume.
    destruct (sendChunk p env waiting) as [y [e|]]; [reflexivity|].
    discriminate. }
  rewrite Hres in Hs'. cbn [fst] in Hs'.
  assert (Hs'_eq : s' = set_outputs (outputs s') waiting)
    by (rewrite Hs'; exact Heq).
  assert (Hrec : screenRecorderRef s' = Some r)
    by (rewrite Hs'_eq; exact Hr).
  split; [now rewrite Hres|].
  split; [exact Hs'_eq|].
  split; [exact Hrec|].
  split; [now rewrite Hs'_eq|].
  split; [now rewrite Hs'_eq|].
  split; [now rewrite Hs'_eq|].
  subst s''. rewrite (@step_data_available s' r d Hrec Hd).
  rewrite Hs'_eq. split; reflexivity.
Qed.

Lemma sent_numbers_emit o s :
  sent_numbers (emit o s) = (sent_numbers s ++ sent_number o)%list.
Proof.
  unfold sent_numbers, emit. destruct s; cbn.
  rewrite flat_map_app. cbn. now rewrite app_nil_r.
Qed.






(** Whatever the order of the chunk events, the counter moves only
    when a handler ends, and then by at most one. *)
Lemma chunk_counter_step s ev :
  (exists d, ev = DataAvailable d) \/ (exists k env, ev = ChunkResume k env) ->
  screenChunkIndexRef s <= screenChunkIndexRef (step s ev)
  <= S (screenChunkIndexRef s).
Proof.
  intros Hev. unfold Session.step.
  rewrite (same_screenChunkIndexRef (settle_untouched _ _)).
  destruct Hev as [(d & ->)|(k & env & ->)]; cbn [Session.handle].
  - assert (H : screenChunkIndexRef
                  (match screenRecorderRef s with
                   | Some r => ondataavailable (rec_resId r) d s
                   | None => s
                   end) = screenChunkIndexRef s)
      by (unfold ondataavailable; frame).
    rewrite H. lia.
  - destruct (nth_error (pending s) k) as [p|]; [|lia].
    unfold ondataavailable_resume, sendChunk.
    repeat first [ split_test | progress cbn | lia ].
Qed.

(** The same holds when handlers overlap: a handler sends its chunk under
    the number it read when it began, and only an acknowledgement moves
    the counter. *)
Lemma chunk_resume_numbers s k p env :
  nth_error (pending s) k = Some p ->
  let s' := step s (ChunkResume k env) in
  sent_numbers s'
  = (sent_numbers s
     ++ (if readable env && socketReady env then [p_chunkIndex p] else []))%list
  /\ screenChunkIndexRef s'
     = (if readable env && socketReady env
           && match ack env with Saved => true | _ => false end
        then S (screenChunkIndexRef s) else screenChunkIndexRef s)
  /\ pending s' = remove_nth k (pending s).
Proof.
  intros Hp s'. subst s'.
  rewrite (@step_chunk_resume s k p env Hp).
  unfold ondataavailable_resume, sendChunk, readable.
  destruct (Base64.blobToBase64 (readerResult env)) as [e|b];
    [cbn; rewrite app_nil_r; now repeat split|].
  destruct (socketReady env);
    [|cbn; rewrite app_nil_r; now repeat split].
  cbn [andb].
  destruct (ack env); cbn [fst]; repeat split;
    unfold sent_numbers; cbn; rewrite !flat_map_app; cbn;
    now rewrite app_nil_r.
Qed.


End Facts.

(** *** The properties at the concrete session *)

Import Scenario.

Lemma end_when_complete_is_noop_witness :
  endInterviewManually backend ended_session = ended_session.
Proof.
  apply (proj1 (@end_when_complete_is_noop backend props ended_session
                  eq_refl)).
Defined.

Lemma tab_switch_policy_witness :
  tabSwitchCountRef (step backend props started (VisibilityChange true 1000))
  = 1.
Proof.
  apply (proj1 (@tab_switch_policy backend props started 1000%Z eq_refl)).
Defined.

Lemma screen_sharing_stopped_blocks_witness :
  screenSharingStopped
    (run backend props
       (step backend props started (ScreenTrackEnded 5000))
       [ToggleRecording true; SubmitAnswer SubmitComplete])
  = true.
Proof.
  apply (proj1 (proj2 (proj2
           (@screen_sharing_stopped_blocks backend props started None 5000%Z
              [ToggleRecording true; SubmitAnswer SubmitComplete]
              eq_refl eq_refl)))).
Defined.


Lemma chunk_upload_failure_contained_witness :
  snd (ondataavailable_resume
         {| p_resId := "resp-1"%string; p_chunkIndex := 0; p_data := chunk |}
         (upload NoAck)
         (set_pending
            (remove_nth 0
               (pending (step backend props started
                           (DataAvailable (Some chunk)))))
            (step backend props started (DataAvailable (Some chunk)))))
  = None.
Proof.
  apply (proj1
           (@chunk_upload_failure_contained backend props
              (step backend props started (DataAvailable (Some chunk))) 0
              {| p_resId := "resp-1"%string; p_chunkIndex := 0;
                 p_data := chunk |}
              (upload NoAck)
              {| rec_state := recording; rec_resId := "resp-1"%string |}
              chunk eq_refl eq_refl eq_refl (Nat.lt_0_succ 2047))).
Defined.


(** *** Where the specification and the code part *)


(** Two handlers that overlap read the same number, and the number after
    their acknowledgements is skipped. *)
Lemma overlapping_handlers_skip_a_number :
  sent_numbers
    (run backend props started
       [DataAvailable (Some chunk); DataAvailable (Some chunk);
        ChunkResume 0 (upload Saved); ChunkResume 0 (upload Saved);
        DataAvailable (Some chunk); ChunkResume 0 (upload Saved)])
  = [0; 0; 2].
Proof.
  vm_compute. reflexivity.
Qed.


(** C7, as stated, fails: with a duration of 0 the timer is off and the
    interview is not ended, neither at once nor by later ticks. *)
Lemma zero_duration_does_not_end_interview :
  let s0 := step backend props init (start 0) in
  timeRemaining s0 = None
  /\ interviewComplete s0 = false
  /\ end_requests s0 = 0
  /\ end_requests (run backend props s0 (repeat TimerTick 3)) = 0.
Proof.
  vm_compute. repeat split.
Qed.

End SessionFacts.

(* ------------------------------------------------------------------ *)
(** ** The session controller: invariants and further behaviour *)

Module SessionMore.
Import Js Session SessionExtra SessionFacts.

Unset Implicit Arguments.

Section More.

Variable endResponse : nat -> EndEnv.
Variable props : Props.

Local Abbreviation endInterviewManually := (endInterviewManually endResponse).
Local Abbreviation timerEffect := (timerEffect endResponse).
Local Abbreviation render := (render endResponse).
Local Abbreviation settle := (settle endResponse).
Local Abbreviation handle := (handle endResponse props).
Local Abbreviation step := (step endResponse props).
Local Abbreviation run := (run endResponse props).
Local Abbreviation end_untouched :=
  (endInterviewManually_untouched endResponse).
Local Abbreviation settle_untouched := (settle_untouched endResponse).
Local Abbreviation occur := (occur endResponse props).
Local Abbreviation occurs := (occurs endResponse props).

Lemma run_cons s ev evs : run s (ev :: evs) = run (step s ev) evs.
Proof. reflexivity. Qed.

Lemma run_snoc s evs ev : run s (evs ++ [ev]) = step (run s evs) ev.
Proof.
  unfold Session.run. now rewrite fold_left_app.
Qed.

(** A property that every event preserves holds after every run. *)
Lemma run_invariant (P : State -> Prop) :
  (forall s ev, P s -> P (step s ev)) ->
  forall evs s, P s -> P (run s evs).
Proof.
  intros Hstep evs. induction evs as [|ev evs IH]; intros s Hs; [exact Hs|].
  rewrite run_cons. apply IH, Hstep, Hs.
Qed.

(** *** The alert log *)

Lemma startScreenRecording_alerts c rid ex env s :
  cheatingAlertsRef (fst (startScreenRecording c rid ex env s))
  = cheatingAlertsRef s
  /\ tabSwitchCountRef (fst (startScreenRecording c rid ex env s))
     = tabSwitchCountRef s.
Proof.
  unfold startScreenRecording, startRecorder, requestDisplayStream,
    existingDisplayStream.
  split; frame.
Qed.

Lemma startSession_alerts env s :
  cheatingAlertsRef (startSession props env s) = cheatingAlertsRef s
  /\ tabSwitchCountRef (startSession props env s) = tabSwitchCountRef s.
Proof.
  unfold startSession.
  destruct (sessionInitializedRef s); [now split|].
  destruct env as [msg|data q scr]; [now split|].
  cbn [cheatingAlertsRef tabSwitchCountRef set_loading].
  destruct (response_id data) as [rid|] eqn:Hrid; [|split; frame].
  destruct (truthy (Some rid)); [|split; frame].
  match goal with
  | |- context [startScreenRecording ?c ?r ?e ?v ?x] =>
      destruct (startScreenRecording_alerts c r e v x) as [H1 H2];
      destruct (startScreenRecording c r e v x) as [y [m|]]
  end; cbn [fst] in H1, H2.
  - destruct (screenPermissionGranted props && _);
      [destruct (is_validation_message m)|]; cbn; rewrite ?H1, ?H2;
      unfold fetchCurrentQuestion; split; frame.
  - destruct (screenPermissionGranted props && _);
      cbn; rewrite ?H1, ?H2; unfold fetchCurrentQuestion; split; frame.
Qed.

(** What an event does to the alert log and to the tab-switch counter,
    before React renders again. *)
Lemma handle_alerts ev s :
  cheatingAlertsRef (handle ev s)
  = (cheatingAlertsRef s ++ new_alerts ev s)%list
  /\ tabSwitchCountRef (handle ev s)
     = tabSwitchCountRef s + length (filter is_tab_switch (new_alerts ev s)).
Proof.
  assert (Hsame : forall x,
            cheatingAlertsRef x = cheatingAlertsRef s ->
            tabSwitchCountRef x = tabSwitchCountRef s ->
            cheatingAlertsRef x = (cheatingAlertsRef s ++ [])%list
            /\ tabSwitchCountRef x = tabSwitchCountRef s + 0)
    by (intros x -> ->; rewrite app_nil_r; split; [reflexivity|lia]).
  destruct ev; cbn [Session.handle new_alerts filter length].
  - destruct (startSession_alerts env s). now apply Hsame.
  - apply Hsame; frame.
  - apply Hsame; frame.
  - apply Hsame; unfold appendTranscript; frame.
  - apply Hsame; unfold appendTranscript; frame.
  - apply Hsame; frame.
  - destruct (monitoring s); [|destruct hidden; now apply Hsame].
    unfold Session.handleVisibilityChange.
    destruct hidden; [|now apply Hsame].
    cbn [filter is_tab_switch tab_switch_alert alert_type String.eqb
         Ascii.eqb Bool.eqb length].
    destruct (3 <=? _)%nat.
    + rewrite (same_cheatingAlertsRef (end_untouched _)),
        (same_tabSwitchCountRef (end_untouched _)).
      unfold recordCheatingAlert. split; [frame|frame; lia].
    + unfold recordCheatingAlert. split; [frame|frame; lia].
  - destruct (monitoring s); [|now apply Hsame].
    unfold handleBlur, recordCheatingAlert. split; [frame|frame; lia].
  - apply Hsame; unfold toggleRecording, startRecording, stopRecording; frame.
  - apply Hsame;
      unfold submitAnswer, stopRecording, fetchCurrentQuestion; frame.
  - apply Hsame.
    + apply (same_cheatingAlertsRef (end_untouched _)).
    + apply (same_tabSwitchCountRef (end_untouched _)).
  - unfold restartScreenSharing.
    destruct (responseId s) as [rid|]; [|now apply Hsame].
    destruct (negb _); [now apply Hsame|].
    match goal with
    | |- context [startScreenRecording ?c ?r ?e ?v ?x] =>
        destruct (startScreenRecording_alerts c r e v x) as [H1 H2];
        destruct (startScreenRecording c r e v x) as [y [m|]]
    end; cbn [fst] in H1, H2; apply Hsame; cbn; assumption.
  - destruct (trackOnended s); [|now apply Hsame].
    unfold videoTrack_onended, stopScreenRecording, recordCheatingAlert.
    split; [frame|frame; lia].
  - apply Hsame; unfold ondataavailable; frame.
  - apply Hsame; unfold ondataavailable_resume, sendChunk; frame.
Qed.

Lemma step_alerts ev s :
  cheatingAlertsRef (step s ev)
  = (cheatingAlertsRef s ++ new_alerts ev s)%list
  /\ tabSwitchCountRef (step s ev)
     = tabSwitchCountRef s + length (filter is_tab_switch (new_alerts ev s)).
Proof.
  unfold Session.step.
  rewrite (same_cheatingAlertsRef (settle_untouched _ _)),
    (same_tabSwitchCountRef (settle_untouched _ _)).
  apply handle_alerts.
Qed.

Lemma recordCheatingAlert_alerts rid type details now s :
  cheatingAlertsRef (recordCheatingAlert rid type details now s)
  = (cheatingAlertsRef s
     ++ [{| alert_type := type; alert_timestamp := now;
            alert_details := details |}])%list.
Proof.
  unfold recordCheatingAlert. frame.
Qed.

(** What one run of the periodic check adds to the log. *)
Lemma screenCheck_alerts c rid rs now1 now2 now3 m s :
  exists added,
    cheatingAlertsRef (snd (screenCheck c rid rs now1 now2 now3 m s))
    = (cheatingAlertsRef s ++ added)%list
    /\ length added <= 1
    /\ Forall (fun a =>
                 (alert_type a = "screen_track_inactive"%string
                  \/ alert_type a = "screen_pause"%string)
                 /\ alert_timestamp a = now3) added.
Proof.
  assert (Hnone : forall x : State,
             cheatingAlertsRef x = cheatingAlertsRef s ->
             exists added,
               cheatingAlertsRef x = (cheatingAlertsRef s ++ added)%list
               /\ length added <= 1
               /\ Forall (fun a =>
                            (alert_type a = "screen_track_inactive"%string
                             \/ alert_type a = "screen_pause"%string)
                            /\ alert_timestamp a = now3) added).
  { intros x Hx. exists []. rewrite app_nil_r.
    split; [exact Hx|split; [cbn; lia|constructor]]. }
  unfold screenCheck.
  destruct (screenStreamRef s) as [stream|]; [|now apply Hnone].
  destruct c; [now apply Hnone|].
  destruct (videoTracks stream) as [|videoTrack rest]; [now apply Hnone|].
  destruct (readyState_eqb rs ended).
  - eexists. cbn [snd]. rewrite recordCheatingAlert_alerts.
    split; [reflexivity|]. split; [cbn; lia|].
    constructor; [|constructor]. cbn. split; [now left|reflexivity].
  - cbv zeta.
    match goal with
    | |- context [if ?c then _ else _] => destruct c
    end; cbn [snd]; [|now apply Hnone].
    eexists. rewrite recordCheatingAlert_alerts.
    split; [reflexivity|]. split; [cbn; lia|].
    constructor; [|constructor]. cbn. split; [now right|reflexivity].
Qed.

Lemma new_alerts_types ev s :
  length (new_alerts ev s) <= 1
  /\ Forall (fun a => In (alert_type a) alert_types) (new_alerts ev s).
Proof.
  unfold alert_types.
  destruct ev; cbn; try (split; [lia|constructor]).
  - destruct hidden, (monitoring s); cbn;
      (split; [lia|repeat constructor]).
  - destruct (monitoring s); cbn; (split; [lia|]);
      [constructor; [cbn; tauto|constructor]|constructor].
  - destruct (trackOnended s); cbn; (split; [lia|]);
      [constructor; [cbn; tauto|constructor]|constructor].
Qed.

(** Whatever happens, the log grows by at most one alert of a known
    type. *)
Lemma occur_alerts o s :
  exists added,
    cheatingAlertsRef (occur s o) = (cheatingAlertsRef s ++ added)%list
    /\ length added <= 1
    /\ Forall (fun a => In (alert_type a) alert_types) added
    /\ (forall ev, o = Handled ev -> added = new_alerts ev s)
    /\ (forall c rid rs now1 now2 now3 m,
           o = ScreenChecked c rid rs now1 now2 now3 m ->
           Forall (fun a =>
                     (alert_type a = "screen_track_inactive"%string
                      \/ alert_type a = "screen_pause"%string)
                     /\ alert_timestamp a = now3) added)
    /\ (o = MicrophoneStopped -> added = []).
Proof.
  destruct o as [ev|c rid rs now1 now2 now3 m|]; cbn [SessionExtra.occur].
  - exists (new_alerts ev s).
    destruct (new_alerts_types ev s) as [Hl Ht].
    split; [apply step_alerts|]. split; [exact Hl|]. split; [exact Ht|].
    split; [|split]; [|discriminate..].
    intros ev' H. now injection H as <-.
  - destruct (screenCheck_alerts c rid rs now1 now2 now3 m s)
      as (added & Ha & Hl & Ht).
    exists added. split; [exact Ha|]. split; [exact Hl|].
    split; [|split; [discriminate|split; [|discriminate]]].
    + apply (Forall_impl _ (P := fun a =>
                 (alert_type a = "screen_track_inactive"%string
                  \/ alert_type a = "screen_pause"%string)
                 /\ alert_timestamp a = now3)); [|exact Ht].
      intros a [[H|H] _]; rewrite H; unfold alert_types; cbn; tauto.
    + intros c' rid' rs' n1 n2 n3 m' H. injection H as _ _ _ _ _ <- _.
      exact Ht.
  - exists []. rewrite app_nil_r.
    split; [unfold microphoneStopped; frame|].
    split; [cbn; lia|]. split; [constructor|].
    split; [discriminate|]. split; [discriminate|reflexivity].
Qed.

(** X1.  The alert log is append-only.  Whatever happens to the
    component (an event it handles, a run of the five-second check of
    the screen track, the microphone recorder stopping on its own), the
    log grows by at most one alert, of one of the five types the
    component records.  An event appends the alerts of [new_alerts]: a
    [tab_switch] or [window_blur] alert while the monitor listens, a
    [screen_sharing_stopped] alert when the track ends with its handler
    installed, and nothing otherwise.  A run of the check appends at
    most a [screen_track_inactive] or a [screen_pause] alert, stamped
    with the time it is recorded at; the microphone appends nothing.
    Whatever follows, the log keeps every entry it had, in order. *)
Theorem alert_log_append_only (s : State) (os : list Occurrence) :
  (forall o, exists added,
      cheatingAlertsRef (occur s o) = (cheatingAlertsRef s ++ added)%list
      /\ length added <= 1
      /\ Forall (fun a => In (alert_type a) alert_types) added
      /\ (forall ev, o = Handled ev -> added = new_alerts ev s)
      /\ (forall c rid rs now1 now2 now3 m,
             o = ScreenChecked c rid rs now1 now2 now3 m ->
             Forall (fun a =>
                       (alert_type a = "screen_track_inactive"%string
                        \/ alert_type a = "screen_pause"%string)
                       /\ alert_timestamp a = now3) added)
      /\ (o = MicrophoneStopped -> added = []))
  /\ exists added,
       cheatingAlertsRef (occurs s os) = (cheatingAlertsRef s ++ added)%list.
Proof.
  split; [intros o; apply occur_alerts|].
  revert s. induction os as [|o os IH]; intros s.
  - exists []. cbn. now rewrite app_nil_r.
  - change (occurs s (o :: os)) with (occurs (occur s o) os).
    destruct (IH (occur s o)) as [added Hadded].
    destruct (occur_alerts o s) as (first & Hfirst & _).
    exists (first ++ added)%list.
    rewrite Hadded, Hfirst. now rewrite app_assoc.
Qed.

Lemma step_tab_count_ok ev s : tab_count_ok s -> tab_count_ok (step s ev).
Proof.
  unfold tab_count_ok. intros Hs.
  destruct (step_alerts ev s) as [Ha Hc].
  rewrite Ha, Hc, Hs, filter_app, length_app. reflexivity.
Qed.

(** X2.  In every state the component reaches, the tab-switch counter
    is the number of [tab_switch] entries of the alert log: window
    blurs and the end of the screen track are logged but not counted. *)
Theorem tab_count_is_derived (evs : list Event) :
  tab_count_ok (run init evs).
Proof.
  apply run_invariant; [intros s ev; apply step_tab_count_ok|].
  reflexivity.
Qed.

(** *** The timer *)

Lemma timer_same_refl s : timer_same s s.
Proof. now repeat split. Qed.

Lemma timer_ok_same s x : timer_same s x -> timer_ok s -> timer_ok x.
Proof.
  unfold timer_same, timer_ok. intros (Hr & Hl & Hc). now rewrite Hr, Hl, Hc.
Qed.

Lemma startScreenRecording_timer c rid ex env s :
  timer_same s (fst (startScreenRecording c rid ex env s)).
Proof.
  destruct (startScreenRecording_frame c rid ex env s).
  now repeat split.
Qed.

(** What an event does to the timer before React renders again: nothing,
    or what [endInterviewManually] does to it. *)
Lemma handle_timer ev s :
  timer_same s (handle ev s) /\
  (interviewComplete s = true -> interviewComplete (handle ev s) = true)
  \/ exists y,
       timer_same s y /\ interviewComplete y = interviewComplete s
       /\ handle ev s = endInterviewManually y.
Proof.
  destruct ev; cbn [Session.handle].
  - left. destruct (startSession_timer_frame props env s) as (H1 & H2 & H3 & _).
    split; [now repeat split|].
    intros Hc. unfold startSession.
    destruct (sessionInitializedRef s); [exact Hc|].
    destruct env as [msg|data q scr]; [exact Hc|].
    cbn [interviewComplete set_loading].
    destruct (response_id data) as [rid|]; [|rewrite <- Hc; frame].
    destruct (truthy (Some rid)); [|rewrite <- Hc; frame].
    match goal with
    | |- context [startScreenRecording ?c ?r ?e ?v ?x] =>
        pose proof (frame_interviewComplete
                      (startScreenRecording_frame c r e v x)) as H;
        destruct (startScreenRecording c r e v x) as [y [m|]]
    end; cbn [fst] in H;
      (destruct (screenPermissionGranted props && _);
       [try destruct (is_validation_message m)|]); cbn; rewrite ?H;
      unfold fetchCurrentQuestion; rewrite <- Hc; frame.
  - left. split; [repeat split; frame|intros Hc; rewrite <- Hc; frame].
  - left. split; [repeat split; frame|intros Hc; rewrite <- Hc; frame].
  - left. unfold appendTranscript.
    split; [repeat split; frame|intros Hc; rewrite <- Hc; frame].
  - left. unfold appendTranscript.
    split; [repeat split; frame|intros Hc; rewrite <- Hc; frame].
  - left. split; [repeat split; frame|intros Hc; rewrite <- Hc; frame].
  - destruct (monitoring s); [|left; split; [apply timer_same_refl|auto]].
    unfold Session.handleVisibilityChange.
    destruct hidden; [|left; split; [apply timer_same_refl|auto]].
    destruct (3 <=? _)%nat.
    + right. eexists. split; [|split; [|reflexivity]];
        unfold recordCheatingAlert; [repeat split|]; frame.
    + left. unfold recordCheatingAlert.
      split; [repeat split; frame|intros Hc; rewrite <- Hc; frame].
  - left. unfold handleBlur, recordCheatingAlert.
    split; [repeat split; frame|intros Hc; rewrite <- Hc; frame].
  - left. unfold toggleRecording, startRecording, stopRecording.
    split; [repeat split; frame|intros Hc; rewrite <- Hc; frame].
  - left. unfold submitAnswer, stopRecording, fetchCurrentQuestion.
    split; [repeat split; frame|].
    intros Hc. frame.
  - right. exists s. split; [apply timer_same_refl|now split].
  - left. unfold restartScreenSharing.
    destruct (responseId s) as [rid|];
      [|split; [apply timer_same_refl|auto]].
    destruct (negb _); [split; [apply timer_same_refl|auto]|].
    match goal with
    | |- context [startScreenRecording ?c ?r ?e ?v ?x] =>
        pose proof (startScreenRecording_frame c r e v x) as H;
        destruct (startScreenRecording c r e v x) as [y [m|]]
    end; cbn [fst] in H; destruct H; cbn in *;
      (split; [repeat split; assumption|congruence]).
  - left. destruct (trackOnended s); [|split; [apply timer_same_refl|auto]].
    unfold videoTrack_onended, stopScreenRecording, recordCheatingAlert.
    split; [repeat split; frame|intros Hc; rewrite <- Hc; frame].
  - left. unfold ondataavailable.
    split; [repeat split; frame|intros Hc; rewrite <- Hc; frame].
  - left. unfold ondataavailable_resume, sendChunk.
    split; [repeat split; frame|intros Hc; rewrite <- Hc; frame].
Qed.

Lemma endInterviewManually_idle y :
  timerIntervalRef y = None -> liveIntervals y = [] ->
  timerIntervalRef (endInterviewManually y) = None
  /\ liveIntervals (endInterviewManually y) = [].
Proof.
  intros Hr Hl.
  unfold Session.endInterviewManually, clearTimer, clearInterval,
    stopScreenRecording.
  destruct y; cbn in *; subst. split; frame.
Qed.

Lemma clearTimer_ok y :
  timer_ok y ->
  timerIntervalRef (clearTimer y) = None /\ liveIntervals (clearTimer y) = [].
Proof.
  unfold timer_ok, clearTimer, clearInterval.
  destruct y; cbn.
  destruct timerIntervalRef0 as [h|]; cbn; [|now split].
  intros [-> _]. cbn. destruct (Nat.eq_dec h h); [now split|congruence].
Qed.

Lemma endInterviewManually_timer_ok y :
  timer_ok y ->
  timer_ok (endInterviewManually y)
  /\ (interviewComplete y = false ->
      interviewComplete (endInterviewManually y) = true ->
      liveIntervals (endInterviewManually y) = []).
Proof.
  intros Hy.
  assert (Hnoop : endInterviewManually y = y ->
            timer_ok (endInterviewManually y)
            /\ (interviewComplete y = false ->
                interviewComplete (endInterviewManually y) = true ->
                liveIntervals (endInterviewManually y) = []))
    by (intros ->; split; [exact Hy|congruence]).
  destruct (responseId y) as [rid|] eqn:Hr;
    [|apply Hnoop; unfold Session.endInterviewManually; now rewrite Hr].
  destruct (truthy (Some rid)) eqn:Ht;
    [|apply Hnoop; unfold Session.endInterviewManually; now rewrite Hr, Ht].
  destruct (interviewComplete y) eqn:Hc;
    [apply Hnoop; unfold Session.endInterviewManually;
     now rewrite Hr, Ht, Hc|].
  clear Hnoop.
  destruct (clearTimer_ok y Hy) as [Hr1 Hl1].
  assert (H : timerIntervalRef (endInterviewManually y) = None
              /\ liveIntervals (endInterviewManually y) = []).
  { rewrite (endInterviewManually_active endResponse _ Hr Ht Hc).
    unfold before_end_request, stopScreenRecording.
    rewrite <- Hr1, <- Hl1. split; frame. }
  destruct H as [H1 H2]. split; [|auto].
  unfold timer_ok. now rewrite H1.
Qed.

Lemma timerEffect_cleanup_ok x :
  timer_ok x ->
  liveIntervals (timerEffect_cleanup x) = []
  /\ timerIntervalRef (timerEffect_cleanup x) = timerIntervalRef x
  /\ interviewComplete (timerEffect_cleanup x) = interviewComplete x
  /\ timeRemaining (timerEffect_cleanup x) = timeRemaining x.
Proof.
  unfold timer_ok, timerEffect_cleanup, clearInterval.
  destruct x; cbn.
  destruct timerIntervalRef0 as [h|]; cbn.
  - intros [-> ->]. cbn. destruct (Nat.eq_dec h h); [now repeat split|congruence].
  - intros ->. destruct timerCleanup0; now repeat split.
Qed.

Lemma timerEffect_timer_ok x :
  timer_ok x ->
  timer_ok (timerEffect x)
  /\ (interviewComplete (timerEffect x) = true ->
      liveIntervals (timerEffect x) = []).
Proof.
  intros Hx.
  destruct (timerEffect_cleanup_ok x Hx) as (Hl & Hr & Hc & Ht).
  unfold Session.timerEffect.
  set (x1 := timerEffect_cleanup x) in *.
  destruct (timer_stopped x1) eqn:Hstop.
  - set (x2 := set_timerCleanup false (clearTimer x1)).
    assert (H2 : timerIntervalRef x2 = None /\ liveIntervals x2 = []).
    { subst x2. unfold clearTimer, clearInterval.
      destruct (timerIntervalRef x1) eqn:E; cbn; rewrite ?E, ?Hl;
        now split. }
    destruct H2 as [Hr2 Hl2].
    assert (Hok2 : timer_ok x2) by (unfold timer_ok; now rewrite Hr2).
    destruct (endInterviewManually_idle x2 Hr2 Hl2) as [He1 He2].
    repeat split_test; split; auto; unfold timer_ok; now rewrite He1.
  - unfold setInterval. cbn. rewrite Hl. cbn.
    split; [unfold timer_ok; cbn; now split|].
    intros Hdone. exfalso.
    unfold timer_stopped in Hstop. rewrite Hdone in Hstop.
    destruct (timeRemaining x1); [|discriminate].
    now rewrite orb_true_r in Hstop.
Qed.

Lemma completeEffect_timer x :
  timer_same x (completeEffect x)
  /\ interviewComplete (completeEffect x) = interviewComplete x.
Proof.
  unfold completeEffect, stopScreenRecording.
  split; [repeat split|]; frame.
Qed.

Lemma render_timer_ok before x :
  timer_ok x ->
  timer_ok (render before x)
  /\ (same_timer_deps before x = false ->
      interviewComplete (render before x) = true ->
      liveIntervals (render before x) = []).
Proof.
  intros Hx. unfold Session.render.
  destruct (timerEffect_timer_ok x Hx) as [Hok Hlive].
  destruct (completeEffect_timer x) as [(Hx1 & Hx2 & Hx3) Hxc].
  destruct (completeEffect_timer (timerEffect x)) as [(Ht1 & Ht2 & Ht3) Htc].
  destruct (same_timer_deps before x), (same_complete_deps before x).
  - split; [exact Hx|discriminate].
  - split; [|discriminate].
    apply (timer_ok_same x); [now repeat split|exact Hx].
  - split; [exact Hok|]. intros _. exact Hlive.
  - split.
    + apply (timer_ok_same (timerEffect x)); [now repeat split|exact Hok].
    + intros _ Hdone. rewrite Ht2. apply Hlive. now rewrite <- Htc.
Qed.

Lemma render_complete_monotone before x :
  interviewComplete x = true -> interviewComplete (render before x) = true.
Proof.
  intros Hc. apply (render_complete endResponse before x Hc).
Qed.

Lemma step_timer_settled ev s : timer_settled s -> timer_settled (step s ev).
Proof.
  intros [Hok Hdone].
  set (x := handle ev s).
  assert (Hx : timer_ok x
               /\ (interviewComplete x = true ->
                   same_timer_deps s x = true -> liveIntervals x = [])).
  { subst x. destruct (handle_timer ev s) as [[Hsame Hmono]|(y & Hsame & Hyc & ->)].
    - split; [now apply (timer_ok_same s)|].
      intros Hc Hd. destruct Hsame as (_ & Hl & _). rewrite Hl.
      apply Hdone. unfold same_timer_deps in Hd.
      apply andb_true_iff in Hd as [Hd _]. apply andb_true_iff in Hd as [_ Hd].
      apply Bool.eqb_prop in Hd. congruence.
    - pose proof (timer_ok_same s y Hsame Hok) as Hy.
      destruct (endInterviewManually_timer_ok y Hy) as [Hey Hel].
      split; [exact Hey|].
      intros Hc _. destruct (interviewComplete y) eqn:Hcy; [|now apply Hel].
      assert (He : endInterviewManually y = y).
      { unfold Session.endInterviewManually.
        destruct (responseId y); [|reflexivity].
        now rewrite Hcy, orb_true_r. }
      rewrite He. destruct Hsame as (_ & Hl & _). rewrite Hl.
      apply Hdone. congruence. }
  destruct Hx as [Hokx Hlx].
  unfold Session.step, Session.settle. fold x.
  set (r1 := render s x).
  destruct (render_timer_ok s x Hokx) as [Hok1 Hl1]. fold r1 in Hok1, Hl1.
  destruct (render_timer_ok x r1 Hok1) as [Hok2 Hl2].
  split; [exact Hok2|].
  intros Hc.
  destruct (same_timer_deps x r1) eqn:Hd2; [|now apply Hl2].
  assert (Hr2 : render x r1 = r1).
  { unfold Session.render.
    now rewrite Hd2, (same_timer_complete_deps _ _ Hd2). }
  rewrite Hr2 in *.
  destruct (same_timer_deps s x) eqn:Hd1; [|now apply Hl1].
  assert (Hr1 : r1 = x).
  { subst r1. unfold Session.render.
    now rewrite Hd1, (same_timer_complete_deps _ _ Hd1). }
  rewrite Hr1 in *. now apply Hlx.
Qed.

(** X3.  In every state the component reaches, at most one countdown
    interval is scheduled, namely the one [timerIntervalRef] holds, so
    the clock never runs at double speed; and once the interview is
    complete, by whatever path, no interval is scheduled any more. *)
Theorem timer_single_and_cancelled (evs : list Event) :
  let s := run init evs in
  timer_ok s
  /\ length (liveIntervals s) <= 1
  /\ (interviewComplete s = true -> liveIntervals s = []).
Proof.
  intros s.
  assert (H : timer_settled s).
  { subst s. apply run_invariant; [intros x ev; apply step_timer_settled|].
    split; [reflexivity|reflexivity]. }
  destruct H as [Hok Hdone].
  split; [exact Hok|]. split; [|exact Hdone].
  unfold timer_ok in Hok.
  destruct (timerIntervalRef s); [destruct Hok as [-> _]|rewrite Hok];
    cbn; lia.
Qed.

(** *** The session identifier *)

Lemma startScreenRecording_ids c rid ex env s :
  responseId (fst (startScreenRecording c rid ex env s)) = responseId s
  /\ sessionInitializedRef (fst (startScreenRecording c rid ex env s))
     = sessionInitializedRef s.
Proof.
  unfold startScreenRecording, startRecorder, requestDisplayStream,
    existingDisplayStream.
  split; frame.
Qed.

Lemma startSession_ids env s :
  (exists data q scr,
      env = StartOk data q scr /\ sessionInitializedRef s = false
      /\ responseId (startSession props env s) = response_id data
      /\ sessionInitializedRef (startSession props env s) = true)
  \/ (responseId (startSession props env s) = responseId s
      /\ sessionInitializedRef (startSession props env s)
         = sessionInitializedRef s).
Proof.
  unfold startSession.
  destruct (sessionInitializedRef s) eqn:Hi; [right; now split|].
  destruct env as [msg|data q scr]; [right; now split|].
  left. exists data, q, scr. split; [reflexivity|]. split; [reflexivity|].
  cbn [responseId sessionInitializedRef set_loading].
  destruct (response_id data) as [rid|] eqn:Hrid; [|split; frame].
  destruct (truthy (Some rid)); [|split; frame].
  match goal with
  | |- context [startScreenRecording ?c ?r ?e ?v ?x] =>
      destruct (startScreenRecording_ids c r e v x) as [H1 H2];
      destruct (startScreenRecording c r e v x) as [y [m|]]
  end; cbn [fst] in H1, H2;
    (destruct (screenPermissionGranted props && _);
     [try destruct (is_validation_message m)|]); cbn; rewrite ?H1, ?H2;
    unfold fetchCurrentQuestion; split; frame.
Qed.

Lemma endInterviewManually_initialized y :
  sessionInitializedRef (endInterviewManually y) = sessionInitializedRef y.
Proof.
  unfold Session.endInterviewManually, clearTimer, clearInterval,
    stopScreenRecording.
  frame.
Qed.

Lemma handle_ids ev s :
  (exists data q scr,
      ev = Mount (StartOk data q scr) /\ sessionInitializedRef s = false
      /\ responseId (handle ev s) = response_id data
      /\ sessionInitializedRef (handle ev s) = true)
  \/ (responseId (handle ev s) = responseId s
      /\ sessionInitializedRef (handle ev s) = sessionInitializedRef s).
Proof.
  destruct ev; cbn [Session.handle].
  - destruct (startSession_ids env s) as [(data & q & scr & -> & H)|H];
      [left; now exists data, q, scr|now right].
  - right. split; frame.
  - right. split; frame.
  - right. unfold appendTranscript. split; frame.
  - right. unfold appendTranscript. split; frame.
  - right. split; frame.
  - right. destruct (monitoring s); [|now split].
    unfold Session.handleVisibilityChange.
    destruct hidden; [|now split].
    destruct (3 <=? _)%nat;
      [rewrite (same_responseId (end_untouched _)),
         endInterviewManually_initialized|];
      unfold recordCheatingAlert; split; frame.
  - right. unfold handleBlur, recordCheatingAlert. split; frame.
  - right. unfold toggleRecording, startRecording, stopRecording. split; frame.
  - right. unfold submitAnswer, stopRecording, fetchCurrentQuestion.
    split; frame.
  - right. split; [apply (same_responseId (end_untouched _))
                  |apply endInterviewManually_initialized].
  - right. unfold restartScreenSharing.
    destruct (responseId s) as [rid|] eqn:Hr; [|now split].
    destruct (negb _); [now split|].
    match goal with
    | |- context [startScreenRecording ?c ?r ?e ?v ?x] =>
        destruct (startScreenRecording_ids c r e v x) as [H1 H2];
        destruct (startScreenRecording c r e v x) as [y [m|]]
    end; cbn [fst] in H1, H2; cbn in *; split; congruence.
  - right. destruct (trackOnended s); [|now split].
    unfold videoTrack_onended, stopScreenRecording, recordCheatingAlert.
    split; frame.
  - right. unfold ondataavailable. split; frame.
  - right. unfold ondataavailable_resume, sendChunk. split; frame.
Qed.

Lemma settle_initialized before x :
  sessionInitializedRef (settle before x) = sessionInitializedRef x.
Proof.
  assert (Ht : forall y, sessionInitializedRef (timerEffect y)
                         = sessionInitializedRef y).
  { intros y. unfold Session.timerEffect.
    assert (Hc : forall z, sessionInitializedRef
                             (set_timerCleanup false
                                (clearTimer (timerEffect_cleanup z)))
                           = sessionInitializedRef z)
      by (intros z; unfold clearTimer, timerEffect_cleanup, clearInterval;
          frame).
    repeat split_test; rewrite ?endInterviewManually_initialized, ?Hc;
      try reflexivity.
    unfold setInterval, timerEffect_cleanup, clearInterval in *.
    match goal with
    | H : (_, _) = (_, _) |- _ => injection H as <- <-
    end.
    frame. }
  assert (Hce : forall y, sessionInitializedRef (completeEffect y)
                          = sessionInitializedRef y)
    by (intros y; unfold completeEffect, stopScreenRecording; frame).
  assert (Hr : forall b y, sessionInitializedRef (render b y)
                           = sessionInitializedRef y).
  { intros b y. unfold Session.render.
    repeat split_test; rewrite ?Hce, ?Ht; reflexivity. }
  unfold Session.settle. now rewrite !Hr.
Qed.

Lemma step_ids ev s :
  (exists data q scr,
      ev = Mount (StartOk data q scr) /\ sessionInitializedRef s = false
      /\ responseId (step s ev) = response_id data
      /\ sessionInitializedRef (step s ev) = true)
  \/ (responseId (step s ev) = responseId s
      /\ sessionInitializedRef (step s ev) = sessionInitializedRef s).
Proof.
  unfold Session.step.
  rewrite (same_responseId (settle_untouched _ _)), settle_initialized.
  apply handle_ids.
Qed.

Lemma run_fresh_ok evs : fresh_ok (run init evs).
Proof.
  apply (run_invariant fresh_ok); [|intros _; reflexivity].
  intros x ev Hx Hi.
  destruct (step_ids ev x) as [(data & q & scr & _ & _ & _ & Ht)|[Hr Hs]];
    [congruence|].
  rewrite Hr. apply Hx. congruence.
Qed.

(** X4.  The session identifier is written once.  Before the session
    has started there is none; the start that succeeds stores the one
    the backend returned; and from then on no event, whatever the
    environment answers, changes or clears it. *)
Theorem responseId_written_once (evs1 evs2 : list Event) :
  let s := run init evs1 in
  (sessionInitializedRef s = false -> responseId s = None)
  /\ (sessionInitializedRef s = true ->
      responseId (run init (evs1 ++ evs2)) = responseId s).
Proof.
  intros s. split.
  - apply run_fresh_ok.
  - intros Hi. rewrite run_app. fold s.
    apply (run_invariant
             (fun x => sessionInitializedRef x = true
                       /\ responseId x = responseId s));
      [|now split].
    intros x ev [Hx Hr].
    destruct (step_ids ev x) as [(data & q & scr & _ & Hf & _)|[Hr' Hs]];
      [congruence|].
    split; congruence.
Qed.

(** *** A manual end that the backend refuses *)

Lemma handle_timeRemaining ev s :
  sessionInitializedRef s = true -> liveIntervals s = [] ->
  timeRemaining (handle ev s) = timeRemaining s.
Proof.
  intros Hi Hl.
  destruct ev; cbn [Session.handle].
  - unfold startSession. now rewrite Hi.
  - frame.
  - frame.
  - unfold appendTranscript. frame.
  - unfold appendTranscript. frame.
  - now rewrite Hl.
  - destruct (monitoring s); [|reflexivity].
    unfold Session.handleVisibilityChange.
    destruct hidden; [|reflexivity].
    destruct (3 <=? _)%nat;
      [rewrite (same_timeRemaining (end_untouched _))|];
      unfold recordCheatingAlert; frame.
  - unfold handleBlur, recordCheatingAlert. frame.
  - unfold toggleRecording, startRecording, stopRecording. frame.
  - unfold submitAnswer, stopRecording, fetchCurrentQuestion. frame.
  - apply (same_timeRemaining (end_untouched _)).
  - unfold restartScreenSharing.
    destruct (responseId s) as [rid|]; [|reflexivity].
    destruct (negb _); [reflexivity|].
    match goal with
    | |- context [startScreenRecording ?c ?r ?e ?v ?x] =>
        pose proof (frame_timeRemaining
                      (startScreenRecording_frame c r e v x)) as H;
        destruct (startScreenRecording c r e v x) as [y [m|]]
    end; cbn [fst] in H; cbn in *; exact H.
  - destruct (trackOnended s); [|reflexivity].
    unfold videoTrack_onended, stopScreenRecording, recordCheatingAlert.
    frame.
  - unfold ondataavailable. frame.
  - unfold ondataavailable_resume, sendChunk. frame.
Qed.

Lemma endInterviewManually_done y :
  interviewComplete y = true -> endInterviewManually y = y.
Proof.
  intros Hc. unfold Session.endInterviewManually.
  destruct (responseId y); [|reflexivity].
  now rewrite Hc, orb_true_r.
Qed.

Lemma handle_complete_monotone ev s :
  interviewComplete s = true -> interviewComplete (handle ev s) = true.
Proof.
  intros Hc.
  destruct (handle_timer ev s) as [[_ Hmono]|(y & _ & Hyc & ->)];
    [now apply Hmono|].
  rewrite endInterviewManually_done; congruence.
Qed.

Lemma endInterviewManually_frozen y t :
  frozen y t -> frozen (endInterviewManually y) t.
Proof.
  intros [Ht Hl Hr Hi].
  destruct (endInterviewManually_idle y Hr Hl) as [Hr' Hl'].
  split; [|exact Hl'|exact Hr'|].
  - now rewrite (same_timeRemaining (end_untouched y)).
  - now rewrite endInterviewManually_initialized.
Qed.

Lemma handle_frozen ev s t : frozen s t -> frozen (handle ev s) t.
Proof.
  intros Hf. pose proof Hf as [Ht Hl Hr Hi].
  assert (Hi' : sessionInitializedRef (handle ev s) = true).
  { destruct (handle_ids ev s) as [(data & q & scr & _ & Hn & _)|[_ Hs]];
      congruence. }
  destruct (handle_timer ev s) as [[(Hr' & Hl' & _) _]|(y & Hsame & _ & He)].
  - split; [|congruence|congruence|exact Hi'].
    now rewrite (handle_timeRemaining ev s Hi Hl).
  - destruct Hsame as (Hry & Hly & _).
    destruct (endInterviewManually_idle y) as [Hr' Hl']; [congruence..|].
    split; [|congruence|congruence|exact Hi'].
    now rewrite (handle_timeRemaining ev s Hi Hl).
Qed.

Lemma timerEffect_frozen x t :
  frozen x t -> timer_stopped x = true -> frozen (timerEffect x) t.
Proof.
  intros Hf Hstop. pose proof Hf as [Ht Hl Hr Hi].
  assert (H1 : timerEffect_cleanup x = x)
    by (unfold timerEffect_cleanup; rewrite Hr; now destruct (timerCleanup x)).
  assert (H2 : clearTimer x = x) by (unfold clearTimer; now rewrite Hr).
  unfold Session.timerEffect. rewrite H1, Hstop, H2.
  assert (Hf2 : frozen (set_timerCleanup false x) t) by (now split).
  repeat split_test; try exact Hf2.
  now apply endInterviewManually_frozen.
Qed.

Lemma completeEffect_frozen x t : frozen x t -> frozen (completeEffect x) t.
Proof.
  intros [Ht Hl Hr Hi].
  destruct (completeEffect_timer x) as [(Hr' & Hl' & _) _].
  split; [|congruence|congruence|].
  - now rewrite (same_timeRemaining (completeEffect_untouched x)).
  - rewrite <- Hi. unfold completeEffect, stopScreenRecording. frame.
Qed.

Lemma render_frozen before x t :
  frozen x t ->
  (same_timer_deps before x = false -> timer_stopped x = true) ->
  frozen (render before x) t.
Proof.
  intros Hf Hstop. unfold Session.render.
  destruct (same_timer_deps before x).
  - destruct (same_complete_deps before x);
      [exact Hf|now apply completeEffect_frozen].
  - pose proof (timerEffect_frozen x t Hf (Hstop eq_refl)) as Hf1.
    destruct (same_complete_deps before x);
      [exact Hf1|now apply completeEffect_frozen].
Qed.

(** The timer effect runs again only if one of its dependencies
    changed; when it can only be [interviewComplete], set to [true],
    the effect finds the timer stopped. *)
Lemma deps_differ_stopped before x :
  timeRemaining x = timeRemaining before ->
  responseId x = responseId before ->
  (interviewComplete before = true -> interviewComplete x = true) ->
  same_timer_deps before x = false -> timer_stopped x = true.
Proof.
  intros Ht Hr Hmono Hd.
  destruct (interviewComplete x) eqn:Hc.
  - unfold timer_stopped. rewrite Hc.
    destruct (timeRemaining x); auto using orb_true_r.
  - destruct (interviewComplete before) eqn:Hb; [now discriminate Hmono|].
    rewrite (same_timer_deps_intro before x) in Hd; congruence.
Qed.

Lemma step_frozen ev s t : frozen s t -> frozen (step s ev) t.
Proof.
  intros Hf.
  pose proof (handle_frozen ev s t Hf) as Hx.
  unfold Session.step, Session.settle.
  set (x := handle ev s) in *.
  assert (Hr : responseId x = responseId s).
  { subst x.
    destruct (handle_ids ev s) as [(data & q & scr & _ & Hn & _)|[Hr _]];
      [|exact Hr].
    destruct Hf. congruence. }
  assert (H1 : frozen (render s x) t).
  { apply render_frozen; [exact Hx|].
    apply deps_differ_stopped; [|exact Hr|apply handle_complete_monotone].
    destruct Hf, Hx. congruence. }
  apply render_frozen; [exact H1|].
  apply deps_differ_stopped.
  - apply (same_timeRemaining (render_untouched endResponse s x)).
  - apply (same_responseId (render_untouched endResponse s x)).
  - apply render_complete_monotone.
Qed.

Lemma refused_end_frozen s t msg :
  counting s t -> sessionInitializedRef s = true ->
  endResponse (end_requests s) = EndFail msg ->
  frozen (step s EndInterview) t
  /\ interviewComplete (step s EndInterview) = false.
Proof.
  intros [Ht Hc Hs (h & Hh & Hl) Hcl] Hi Hfail.
  destruct (responseId s) as [rid|] eqn:Hr; [|discriminate].
  assert (Hok : timer_ok s) by (unfold timer_ok; rewrite Hh; now split).
  destruct (clearTimer_ok s Hok) as [Hr1 Hl1].
  unfold Session.step. cbn [Session.handle].
  set (x := endInterviewManually s).
  assert (Hx : interviewComplete x = false
               /\ timerIntervalRef x = None /\ liveIntervals x = []).
  { subst x. rewrite (endInterviewManually_active endResponse s Hr Hs Hc).
    cbv zeta. rewrite before_end_request_requests, Hfail.
    assert (Hcc : interviewComplete (clearTimer s) = false)
      by (rewrite <- Hc; unfold clearTimer; frame).
    unfold before_end_request, stopScreenRecording.
    rewrite <- Hcc, <- Hr1, <- Hl1. repeat split; frame. }
  destruct Hx as (Hxc & Hxr & Hxl).
  pose proof (end_untouched s) as Hu. fold x in Hu.
  rewrite settle_same_deps.
  - split; [|exact Hxc].
    split; [|exact Hxl|exact Hxr|].
    + now rewrite (same_timeRemaining Hu).
    + subst x. now rewrite endInterviewManually_initialized.
  - apply same_timer_deps_intro;
      [apply (same_timeRemaining Hu)|congruence|apply (same_responseId Hu)].
Qed.

(** X5.  When the candidate ends the interview by hand and the backend
    refuses the request, the countdown that was running is not resumed:
    the interview is not complete, yet through every later sequence of
    events the time shown stays at the value it had and no interval is
    scheduled, so the timer can no longer end the interview. *)
Theorem refused_end_stops_the_clock (evs0 evs : list Event) (t : Z)
    (msg : string) :
  counting (run init evs0) t ->
  endResponse (end_requests (run init evs0)) = EndFail msg ->
  interviewComplete (step (run init evs0) EndInterview) = false
  /\ timeRemaining (run (step (run init evs0) EndInterview) evs) = Some t
  /\ liveIntervals (run (step (run init evs0) EndInterview) evs) = []
  /\ timerIntervalRef (run (step (run init evs0) EndInterview) evs) = None.
Proof.
  intros Hcount Hfail.
  assert (Hi : sessionInitializedRef (run init evs0) = true).
  { destruct (sessionInitializedRef (run init evs0)) eqn:Hi; [reflexivity|].
    pose proof (run_fresh_ok evs0 Hi) as Hn.
    destruct Hcount as [_ _ Hs _ _]. rewrite Hn in Hs. discriminate. }
  destruct (refused_end_frozen _ t msg Hcount Hi Hfail) as [Hf Hc].
  split; [exact Hc|].
  assert (H : frozen (run (step (run init evs0) EndInterview) evs) t).
  { apply (run_invariant (fun x => frozen x t)); [|exact Hf].
    intros x ev. apply step_frozen. }
  destruct H as [Ht Hl Hr _]. now repeat split.
Qed.

(** *** What the effects and the handlers send *)

Lemma extends_refl (P : Output -> Prop) s : extends P s s.
Proof. exists []. split; [now rewrite app_nil_r|constructor]. Qed.

Lemma extends_trans (P : Output -> Prop) s1 s2 s3 :
  extends P s1 s2 -> extends P s2 s3 -> extends P s1 s3.
Proof.
  intros (e1 & H1 & F1) (e2 & H2 & F2).
  exists (e1 ++ e2)%list. split; [now rewrite H2, H1, app_assoc|].
  apply Forall_app. now split.
Qed.

Lemma extends_same (P : Output -> Prop) s s' :
  outputs s' = outputs s -> extends P s s'.
Proof.
  intros H. exists []. split; [now rewrite app_nil_r|constructor].
Qed.

Lemma extends_emit (P : Output -> Prop) o s : P o -> extends P s (emit o s).
Proof.
  intros H. exists [o]. split; [reflexivity|now constructor].
Qed.

Lemma extends_weaken (P Q : Output -> Prop) s s' :
  (forall o, P o -> Q o) -> extends P s s' -> extends Q s s'.
Proof.
  intros HPQ (e & H & F). exists e. split; [exact H|].
  revert F. apply Forall_impl. exact HPQ.
Qed.

Lemma endInterviewManually_extends y :
  extends (end_traffic (responseId y)) y (endInterviewManually y).
Proof.
  destruct (responseId y) as [rid|] eqn:Hr;
    [|unfold Session.endInterviewManually; rewrite Hr; apply extends_refl].
  destruct (truthy (Some rid)) eqn:Ht;
    [|unfold Session.endInterviewManually; rewrite Hr, Ht; apply extends_refl].
  destruct (interviewComplete y) eqn:Hc;
    [rewrite endInterviewManually_done by exact Hc; apply extends_refl|].
  rewrite (endInterviewManually_active endResponse y Hr Ht Hc). cbv zeta.
  assert (H0 : extends (end_traffic (Some rid)) y (before_end_request y)).
  { unfold before_end_request.
    set (y1 := match screenRecorderRef (set_loading true (clearTimer y)) with
               | Some _ => stopScreenRecording (set_loading true (clearTimer y))
               | None => set_loading true (clearTimer y)
               end).
    assert (H1 : outputs y1 = outputs y).
    { subst y1. destruct (screenRecorderRef _);
        rewrite ?stopScreenRecording_outputs; cbn; apply clearTimer_outputs. }
    apply (extends_trans _ y y1); [now apply extends_same|].
    destruct (socketRef y1); [|apply extends_refl].
    apply extends_emit. now left. }
  set (b := before_end_request y) in *.
  assert (H1 : extends (end_traffic (Some rid)) b
                 (emit (Post_end_interview rid) b))
    by (apply extends_emit; right; exists rid; auto).
  destruct (endResponse (end_requests b)).
  - apply (extends_trans _ y b); [exact H0|].
    apply (extends_trans _ b (emit (Post_end_interview rid) b));
      [exact H1|now apply extends_same].
  - apply (extends_trans _ y b); [exact H0|].
    apply (extends_trans _ b (emit (Post_end_interview rid) b));
      [exact H1|].
    exists [Get_response rid]. split; [reflexivity|].
    constructor; [|constructor]. right. exists rid. auto.
Qed.

Lemma timerEffect_extends x :
  extends (end_traffic (responseId x)) x (timerEffect x).
Proof.
  unfold Session.timerEffect.
  set (x1 := timerEffect_cleanup x).
  assert (H1 : outputs x1 = outputs x /\ responseId x1 = responseId x)
    by (subst x1; unfold timerEffect_cleanup, clearInterval; split; frame).
  destruct H1 as [Ho1 Hr1].
  destruct (timer_stopped x1).
  - set (x2 := set_timerCleanup false (clearTimer x1)).
    assert (H2 : outputs x2 = outputs x /\ responseId x2 = responseId x).
    { subst x2. rewrite <- Ho1, <- Hr1.
      unfold clearTimer, clearInterval. split; frame. }
    destruct H2 as [Ho2 Hr2].
    pose proof (endInterviewManually_extends x2) as He. rewrite Hr2 in He.
    pose proof (extends_same (end_traffic (responseId x)) x x2 Ho2) as Hs.
    repeat split_test; try exact Hs.
    now apply (extends_trans _ x x2).
  - apply extends_same. rewrite <- Ho1. unfold setInterval. reflexivity.
Qed.

Lemma render_extends before x :
  extends (end_traffic (responseId x)) x (render before x).
Proof.
  unfold Session.render.
  pose proof (timerEffect_extends x) as Ht.
  destruct (completeEffect_outputs x) as [Ho1 _].
  destruct (completeEffect_outputs (timerEffect x)) as [Ho2 _].
  destruct (same_timer_deps before x), (same_complete_deps before x).
  - apply extends_refl.
  - now apply extends_same.
  - exact Ht.
  - apply (extends_trans _ x (timerEffect x)); [exact Ht|].
    now apply extends_same.
Qed.

(** The effects send nothing but the traffic of [endInterviewManually]. *)
Lemma settle_extends before x :
  extends (end_traffic (responseId x)) x (settle before x).
Proof.
  unfold Session.settle.
  apply (extends_trans _ x (render before x)); [apply render_extends|].
  rewrite <- (same_responseId (render_untouched endResponse before x)).
  apply render_extends.
Qed.


(** *** Answers *)







(** *** The share that ends before any restart *)

Lemma stopScreenRecording_onended s :
  first_onended s -> first_onended (stopScreenRecording s).
Proof.
  unfold first_onended, stopScreenRecording.
  intros [H|H]; repeat split_test; cbn; auto.
Qed.

Lemma endInterviewManually_onended s :
  first_onended s -> first_onended (endInterviewManually s).
Proof.
  intros H.
  assert (Hc : first_onended (clearTimer s))
    by (unfold first_onended, clearTimer, clearInterval in *;
        destruct (timerIntervalRef s); exact H).
  pose proof (stopScreenRecording_onended (set_loading true (clearTimer s)) Hc)
    as Hs.
  unfold Session.endInterviewManually.
  unfold first_onended in *.
  repeat split_test; cbn in *; auto.
Qed.

Lemma startScreenRecording_onended rid ex env s :
  first_onended s ->
  first_onended (fst (startScreenRecording None rid ex env s)).
Proof.
  unfold first_onended, startScreenRecording, startRecorder,
    requestDisplayStream, existingDisplayStream.
  intros H. repeat split_test; cbn; auto.
Qed.

Ltac onended_by H :=
  unfold first_onended in *; repeat split_test; cbn; exact H.

Lemma handle_onended ev s :
  not_restart ev = true -> first_onended s -> first_onended (handle ev s).
Proof.
  intros Hev H.
  destruct ev; try discriminate Hev; cbn [Session.handle].
  - unfold startSession.
    destruct (sessionInitializedRef s); [exact H|].
    destruct env as [msg|data q scr]; [exact H|].
    destruct (response_id data) as [rid|]; [|onended_by H].
    destruct (truthy (Some rid)); [|onended_by H].
    match goal with
    | |- context [startScreenRecording None ?r ?e ?v ?x] =>
        pose proof (startScreenRecording_onended r e v x) as Hs;
        destruct (startScreenRecording None r e v x) as [y [m|]]
    end; cbn [fst] in Hs; unfold first_onended in *;
      (destruct (screenPermissionGranted props && _);
       [try destruct (is_validation_message m)|]); cbn;
      try (apply Hs); unfold fetchCurrentQuestion; repeat split_test; cbn;
      exact H.
  - unfold first_onended in *. destruct (socketRef s); exact H.
  - unfold first_onended in *. destruct (socketRef s); exact H.
  - unfold first_onended, appendTranscript in *.
    destruct (socketRef s); [destruct is_final|]; exact H.
  - unfold first_onended, appendTranscript in *.
    destruct (socketRef s); exact H.
  - unfold first_onended in *. destruct (liveIntervals s); exact H.
  - destruct (monitoring s); [|exact H].
    unfold Session.handleVisibilityChange.
    destruct hidden; [|exact H].
    destruct (3 <=? _)%nat; [apply endInterviewManually_onended|];
      unfold first_onended, recordCheatingAlert in *;
      repeat split_test; exact H.
  - unfold first_onended, handleBlur, recordCheatingAlert in *.
    repeat split_test; exact H.
  - unfold first_onended, toggleRecording, startRecording, stopRecording in *.
    repeat split_test; exact H.
  - unfold first_onended, submitAnswer, stopRecording, fetchCurrentQuestion
      in *.
    repeat split_test; exact H.
  - now apply endInterviewManually_onended.
  - destruct (trackOnended s); [|exact H].
    unfold videoTrack_onended.
    assert (Hs : forall m x, first_onended x ->
                   first_onended (set_error m (stopScreenRecording x))).
    { intros m x Hx. apply stopScreenRecording_onended in Hx. exact Hx. }
    apply Hs. unfold first_onended, recordCheatingAlert in *.
    repeat split_test; exact H.
  - unfold first_onended, ondataavailable in *. repeat split_test; exact H.
  - unfold first_onended, ondataavailable_resume, sendChunk in *.
    repeat split_test; cbn; exact H.
Qed.

Lemma settle_onended before x :
  first_onended x -> first_onended (settle before x).
Proof.
  assert (Ht : forall y, first_onended y -> first_onended (timerEffect y)).
  { intros y Hy. unfold Session.timerEffect.
    assert (H1 : first_onended (timerEffect_cleanup y))
      by (unfold first_onended, timerEffect_cleanup, clearInterval in *;
          repeat split_test; exact Hy).
    assert (H2 : first_onended
                   (set_timerCleanup false (clearTimer (timerEffect_cleanup y))))
      by (unfold first_onended, clearTimer, clearInterval in *;
          repeat split_test; exact H1).
    pose proof (endInterviewManually_onended _ H2) as H3.
    repeat split_test; try assumption.
    unfold setInterval in *.
    match goal with
    | E : (_, _) = (_, _) |- _ => injection E as <- <-
    end.
    exact H1. }
  assert (Hc : forall y, first_onended y -> first_onended (completeEffect y)).
  { intros y Hy. unfold completeEffect.
    pose proof (stopScreenRecording_onended y Hy).
    repeat split_test; assumption. }
  assert (Hr : forall b y, first_onended y -> first_onended (render b y)).
  { intros b y Hy. unfold Session.render.
    repeat split_test; auto. }
  intros Hx. unfold Session.settle. auto.
Qed.

Lemma run_first_onended evs :
  forallb not_restart evs = true -> first_onended (run init evs).
Proof.
  induction evs as [|ev evs IH] using rev_ind; [intros _; now left|].
  rewrite forallb_app. cbn. rewrite andb_true_r.
  intros H. apply andb_true_iff in H as [H1 H2].
  rewrite run_snoc. unfold Session.step.
  apply settle_onended, handle_onended; auto.
Qed.

(** X7.  A share that the candidate stops before any restart is not
    reported to the backend.  The handler on the screen track was
    installed by the session start, whose closure still sees a null
    [responseId]: when the track ends the alert is added to the local
    log and the interview is blocked, but no request is sent. *)
Theorem first_share_stop_unreported (evs : list Event) (now : Z) :
  forallb not_restart evs = true ->
  outputs (step (run init evs) (ScreenTrackEnded now)) = outputs (run init evs)
  /\ (trackOnended (run init evs) <> None ->
      cheatingAlertsRef (step (run init evs) (ScreenTrackEnded now))
      = (cheatingAlertsRef (run init evs) ++ [screen_stopped_alert now])%list
      /\ screenSharingStopped (step (run init evs) (ScreenTrackEnded now))
         = true).
Proof.
  intros Hevs.
  pose proof (run_first_onended evs Hevs) as Hfirst.
  set (s := run init evs) in *.
  unfold Session.step. cbn [Session.handle].
  destruct Hfirst as [Hn|Hn]; rewrite Hn.
  - rewrite (settle_same endResponse). split; [reflexivity|congruence].
  - set (x := videoTrack_onended None now s).
    assert (Hd : same_timer_deps s x = true).
    { apply same_timer_deps_intro; subst x;
        unfold videoTrack_onended, stopScreenRecording, recordCheatingAlert;
        frame. }
    rewrite (settle_same_deps endResponse s x Hd).
    subst x.
    split; [|intros _; split];
      unfold videoTrack_onended, stopScreenRecording, recordCheatingAlert;
      frame.
Qed.

(** *** Which session a request names *)

Ltac refs_close H :=
  let H1 := fresh "H1" in
  let H2 := fresh "H2" in
  let H3 := fresh "H3" in
  destruct H as (H1 & H2 & H3);
  repeat split; cbn;
  [ let r := fresh "r" in
    let Hr := fresh "Hr" in
    intros r Hr;
    first [ apply H1; congruence
          | injection Hr as <-; cbn; first [apply H1; congruence|congruence] ]
  | first [exact H2 | constructor]
  | let c := fresh "c" in
    let Hc := fresh "Hc" in
    intros c Hc;
    first [ discriminate | apply H3; congruence | congruence ] ].

Ltac refs_by H :=
  unfold refs_ok in *; repeat split_test; cbn in *; refs_close H.

Lemma stopScreenRecording_refs rid s :
  refs_ok rid s -> refs_ok rid (stopScreenRecording s).
Proof.
  intros H. unfold stopScreenRecording. refs_by H.
Qed.

Lemma clearTimer_refs rid s : refs_ok rid s -> refs_ok rid (clearTimer s).
Proof.
  intros H. unfold clearTimer, clearInterval. refs_by H.
Qed.

Lemma endInterviewManually_refs rid s :
  refs_ok rid s -> refs_ok rid (endInterviewManually s).
Proof.
  intros H.
  pose proof (clearTimer_refs rid s H) as Hc.
  assert (Hl : refs_ok rid (set_loading true (clearTimer s))) by exact Hc.
  pose proof (stopScreenRecording_refs rid _ Hl) as Hs.
  unfold Session.endInterviewManually.
  destruct (responseId s) as [r|]; [|exact H].
  destruct (negb _ || _); [exact H|].
  cbv zeta.
  destruct (screenRecorderRef (set_loading true (clearTimer s))).
  - revert Hs. generalize (stopScreenRecording (set_loading true (clearTimer s))).
    intros y Hy. unfold refs_ok in *. repeat split_test; exact Hy.
  - revert Hl. generalize (set_loading true (clearTimer s)).
    intros y Hy. unfold refs_ok in *. repeat split_test; exact Hy.
Qed.

Lemma timerEffect_refs rid s : refs_ok rid s -> refs_ok rid (timerEffect s).
Proof.
  intros H. unfold Session.timerEffect.
  assert (H1 : refs_ok rid (timerEffect_cleanup s))
    by (unfold timerEffect_cleanup, clearInterval; refs_by H).
  pose proof (clearTimer_refs rid _ H1) as H2.
  assert (H3 : refs_ok rid
                 (set_timerCleanup false (clearTimer (timerEffect_cleanup s))))
    by exact H2.
  pose proof (endInterviewManually_refs rid _ H3) as H4.
  repeat split_test; try assumption.
  unfold setInterval in *.
  match goal with
  | E : (_, _) = (_, _) |- _ => injection E as <- <-
  end.
  exact H1.
Qed.

Lemma completeEffect_refs rid s :
  refs_ok rid s -> refs_ok rid (completeEffect s).
Proof.
  intros H. pose proof (stopScreenRecording_refs rid s H).
  unfold completeEffect. repeat split_test; assumption.
Qed.

Lemma settle_refs rid before s :
  refs_ok rid s -> refs_ok rid (settle before s).
Proof.
  assert (Hr : forall b y, refs_ok rid y -> refs_ok rid (render b y)).
  { intros b y Hy. unfold Session.render.
    repeat split_test;
      auto using timerEffect_refs, completeEffect_refs. }
  intros H. unfold Session.settle. auto.
Qed.

Lemma refs_ok_none rid s : refs_ok None s -> refs_ok rid s.
Proof.
  intros (H1 & H2 & H3). repeat split.
  - intros r Hr. discriminate (H1 r Hr).
  - eapply Forall_impl; [|exact H2]. cbn. intros; discriminate.
  - intros c Hc. discriminate (H3 c Hc).
Qed.

Lemma end_traffic_carries rid o : end_traffic rid o -> carries rid o.
Proof.
  intros [->|(r & -> & [->| ->])] r' H; cbn in H; congruence.
Qed.

Lemma sends_for_trans rid a b c :
  sends_for rid a b -> sends_for rid b c -> sends_for rid a c.
Proof.
  intros (H1 & _ & _) (H2 & H3 & H4).
  split; [now apply (extends_trans _ a b c)|now split].
Qed.

Lemma sends_for_same rid a b b' :
  sends_for rid a b -> same_ids b b' -> sends_for rid a b'.
Proof.
  intros (H1 & (R1 & R2 & R3) & H3) (S1 & S2 & S3 & S4 & S5).
  split; [|split].
  - apply (extends_trans _ a b b'); [exact H1|now apply extends_same].
  - unfold refs_ok. now rewrite S2, S3, S4.
  - congruence.
Qed.

Lemma sends_for_refl s :
  refs_ok (responseId s) s -> sends_for (responseId s) s s.
Proof.
  intros H. split; [apply extends_refl|now split].
Qed.

Ltac ext_close :=
  unfold extends;
  first [ exists []; split; [cbn; now rewrite app_nil_r|constructor]
        | eexists; split;
          [ cbn; rewrite <- ?app_assoc; reflexivity
          | repeat constructor; unfold carries; cbn; intros; congruence ] ].

Lemma endInterviewManually_sends s :
  refs_ok (responseId s) s ->
  sends_for (responseId s) s (endInterviewManually s).
Proof.
  intros H. split; [|split].
  - apply (extends_weaken (end_traffic (responseId s)));
      [apply end_traffic_carries|apply endInterviewManually_extends].
  - now apply endInterviewManually_refs.
  - apply (same_responseId (end_untouched s)).
Qed.

Lemma settle_sends before s :
  refs_ok (responseId s) s ->
  sends_for (responseId s) s (settle before s).
Proof.
  intros H. split; [|split].
  - apply (extends_weaken (end_traffic (responseId s)));
      [apply end_traffic_carries|apply settle_extends].
  - now apply settle_refs.
  - apply (same_responseId (settle_untouched before s)).
Qed.

Lemma startScreenRecording_sends c resId ex env s :
  refs_ok (Some resId) s -> responseId s = Some resId ->
  c = None \/ c = Some resId ->
  sends_for (Some resId) s (fst (startScreenRecording c resId ex env s)).
Proof.
  intros H Hr Hc.
  split; [|split].
  - unfold startScreenRecording, startRecorder, requestDisplayStream,
      existingDisplayStream.
    repeat split_test; cbn; ext_close.
  - unfold startScreenRecording, startRecorder, requestDisplayStream,
      existingDisplayStream.
    destruct Hc as [->| ->]; refs_by H.
  - now rewrite (proj1 (startScreenRecording_ids c resId ex env s)).
Qed.

Ltac sends_by H :=
  unfold sends_for; split;
  [ repeat split_test; cbn in *; ext_close
  | split; [refs_by H|frame] ].

Lemma Forall_remove_nth (A : Type) (P : A -> Prop) (k : nat) (l : list A) :
  Forall P l -> Forall P (remove_nth k l).
Proof.
  intros H. revert k.
  induction H as [|x l Hx Hl IH]; intros [|k]; cbn; try constructor; auto.
Qed.

Lemma fetchCurrentQuestion_sends rid q s :
  refs_ok (Some rid) s -> responseId s = Some rid ->
  sends_for (Some rid) s (fetchCurrentQuestion rid q s).
Proof.
  intros H Hr. unfold fetchCurrentQuestion.
  split; [|split].
  - destruct q; cbn; ext_close.
  - destruct q; exact H.
  - destruct q; exact Hr.
Qed.

Lemma startSession_sends env s :
  ids_ok s ->
  sends_for (responseId (startSession props env s)) s
    (startSession props env s).
Proof.
  intros (Ho & Hrefs & Hfresh).
  unfold startSession.
  destruct (sessionInitializedRef s) eqn:Hi; [now apply sends_for_refl|].
  rewrite (Hfresh Hi) in Hrefs.
  destruct env as [msg|data q scr].
  - pose proof (refs_ok_none (responseId s) s Hrefs) as H. sends_by H.
  - set (R := response_id data).
    pose proof (refs_ok_none R s Hrefs) as H.
    set (x1 := set_socketRef true _).
    assert (H1 : sends_for R s x1) by (subst x1; sends_by H).
    clearbody x1.
    assert (Hwrap : forall y, sends_for R s y ->
                      sends_for (responseId (set_loading false y)) s
                        (set_loading false y)).
    { intros y Hy. cbn [responseId set_loading].
      destruct Hy as (Y1 & Y2 & Y3). rewrite Y3.
      split; [exact Y1|split; [exact Y2|exact Y3]]. }
    apply Hwrap. subst R.
    destruct (response_id data) as [rid|] eqn:HR; [|exact H1].
    destruct (truthy (Some rid)); [|exact H1].
    destruct H1 as (X1 & X2 & X3).
    pose proof (fetchCurrentQuestion_sends rid q x1 X2 X3) as H2.
    set (x2 := fetchCurrentQuestion rid q x1) in *.
    assert (H12 : sends_for (Some rid) s x2)
      by (apply (sends_for_trans _ s x1 x2);
          [split; [exact X1|split; [exact X2|exact X3]]|exact H2]).
    destruct (screenPermissionGranted props && _); [|exact H12].
    destruct H2 as (_ & Y2 & Y3).
    pose proof (startScreenRecording_sends None rid
                  (existingScreenStream props) scr x2 Y2 Y3 (or_introl eq_refl))
      as H3.
    destruct (startScreenRecording None rid (existingScreenStream props)
                scr x2) as [y [m|]]; cbn [fst] in H3.
    + pose proof (sends_for_trans _ s x2 y H12 H3) as H4.
      destruct (is_validation_message m); [exact H4|].
      apply (sends_for_same _ s y); [exact H4|].
      unfold same_ids. now repeat split.
    + apply (sends_for_trans _ s x2 y H12 H3).
Qed.

Lemma handle_sends ev s :
  ids_ok s -> sends_for (responseId (handle ev s)) s (handle ev s).
Proof.
  intros Hok. pose proof Hok as (Ho & Hrefs & Hfresh).
  destruct ev; [now apply startSession_sends|..];
    match goal with
    | |- sends_for (responseId (handle ?e s)) _ _ =>
        destruct (handle_ids e s) as [(d & q & scr & Hm & _)|[Hsame _]];
        [discriminate Hm|rewrite Hsame; clear Hsame]
    end; cbn [Session.handle].
  - sends_by Hrefs.
  - sends_by Hrefs.
  - unfold appendTranscript. sends_by Hrefs.
  - unfold appendTranscript. sends_by Hrefs.
  - sends_by Hrefs.
  - destruct (monitoring s); [|now apply sends_for_refl].
    unfold Session.handleVisibilityChange.
    destruct hidden; [|now apply sends_for_refl].
    match goal with
    | |- context [endInterviewManually ?x] =>
        assert (Hx : sends_for (responseId s) s x)
          by (unfold recordCheatingAlert; sends_by Hrefs);
        set (y := x) in *
    end.
    destruct (3 <=? _)%nat.
    + apply (sends_for_trans _ s y); [exact Hx|].
      destruct Hx as (_ & X2 & X3). rewrite <- X3 in *.
      now apply endInterviewManually_sends.
    + unfold recordCheatingAlert. sends_by Hrefs.
  - unfold handleBlur, recordCheatingAlert. sends_by Hrefs.
  - unfold toggleRecording, startRecording, stopRecording. sends_by Hrefs.
  - unfold submitAnswer, stopRecording, fetchCurrentQuestion.
    sends_by Hrefs.
  - now apply endInterviewManually_sends.
  - unfold restartScreenSharing.
    assert (Hs : forall rid, responseId s = rid -> refs_ok rid s ->
                   sends_for rid s s)
      by (intros rid Hr H; split; [apply extends_refl|now split]).
    destruct (responseId s) as [rid|] eqn:Hr; [|now apply Hs].
    destruct (negb _); [now apply Hs|]. clear Hs.
    assert (H0 : refs_ok (Some rid) (set_error EmptyString s)) by exact Hrefs.
    pose proof (startScreenRecording_sends (Some rid) rid None env
                  (set_error EmptyString s) H0 Hr (or_intror eq_refl)) as H.
    cbn [responseId set_error] in *. rewrite Hr.
    destruct (startScreenRecording (Some rid) rid None env
                (set_error EmptyString s)) as [y [m|]]; cbn [fst] in H;
      (apply (sends_for_same _ _ y);
       [apply (sends_for_trans _ s (set_error EmptyString s));
        [split; [now apply extends_same|split; [exact H0|exact Hr]]|exact H]
       |unfold same_ids; now repeat split]).
  - destruct (trackOnended s) as [c|] eqn:Hc; [|now apply sends_for_refl].
    assert (Hcl : forall r, c = Some r -> responseId s = Some r)
      by (intros r ->; apply Hrefs; exact Hc).
    unfold videoTrack_onended.
    match goal with
    | |- context [recordCheatingAlert ?a ?b ?d ?n ?st] =>
        set (x := recordCheatingAlert a b d n st)
    end.
    assert (Hx : sends_for (responseId s) s x).
    { subst x. unfold recordCheatingAlert.
      destruct c as [r|]; [specialize (Hcl r eq_refl)|]; sends_by Hrefs. }
    destruct Hx as (X1 & X2 & X3).
    split; [|split].
    + apply (extends_trans _ s x); [exact X1|].
      apply extends_same. unfold stopScreenRecording. frame.
    + apply (stopScreenRecording_refs _ (set_screenSharingStopped true x)).
      exact X2.
    + rewrite <- X3. unfold stopScreenRecording. frame.
  - destruct (screenRecorderRef s) as [r|] eqn:Hrec;
      [|now apply sends_for_refl].
    destruct Hrefs as (R1 & R2 & R3). pose proof (R1 r Hrec) as Hr.
    unfold ondataavailable.
    split; [repeat split_test; cbn; ext_close|].
    split; [|frame].
    repeat split_test; cbn; repeat split; auto.
    apply Forall_app. split; [exact R2|]. now repeat constructor.
  - destruct (nth_error (pending s) k) as [p|] eqn:Hp;
      [|now apply sends_for_refl].
    destruct Hrefs as (R1 & R2 & R3).
    assert (Hpr : responseId s = Some (p_resId p)).
    { apply nth_error_In in Hp. rewrite Forall_forall in R2. now apply R2. }
    pose proof (Forall_remove_nth _ _ k _ R2) as R2'.
    unfold ondataavailable_resume, sendChunk.
    split; [repeat split_test; cbn; ext_close|].
    split; [|frame].
    repeat split_test; cbn; repeat split; auto.
Qed.

Lemma step_ids_ok ev s : ids_ok s -> ids_ok (step s ev).
Proof.
  intros Hok. pose proof Hok as (Ho & Hrefs & Hfresh).
  pose proof (handle_sends ev s Hok) as (X1 & X2 & X3).
  pose proof (handle_ids ev s) as Hids.
  unfold Session.step.
  set (x := handle ev s) in *.
  pose proof (settle_sends s x X2) as (Y1 & Y2 & Y3).
  assert (Hold : Forall (carries (responseId x)) (outputs s)).
  { destruct Hids as [(d & q & scr & _ & Hi & _)|[Hsame _]].
    - eapply Forall_impl; [|exact Ho].
      intros o Hcar r Hr. rewrite (Hfresh Hi) in Hcar.
      discriminate (Hcar r Hr).
    - now rewrite Hsame. }
  split; [|split].
  - rewrite Y3.
    destruct Y1 as (e2 & -> & F2). destruct X1 as (e1 & -> & F1).
    apply Forall_app. split; [apply Forall_app; now split|exact F2].
  - now rewrite Y3.
  - intros Hi. rewrite settle_initialized in Hi. rewrite Y3.
    destruct Hids as [(d & q & scr & _ & _ & _ & Ht)|[Hsame Hs]];
      [congruence|].
    rewrite Hsame. apply Hfresh. congruence.
Qed.

(** X8.  Every request names the session it belongs to.  Whatever the
    events and the answers of the environment, each request or socket
    message in the log that carries a session identifier (questions,
    answers, the end of the interview, alerts, video chunks) carries
    the current [responseId]; so do the recorder, the chunk handlers
    that are still waiting and the handler on the screen track. *)
Theorem requests_name_the_session (evs : list Event) :
  (forall o r,
      In o (outputs (run init evs)) -> carried o = Some r ->
      responseId (run init evs) = Some r)
  /\ refs_ok (responseId (run init evs)) (run init evs).
Proof.
  assert (H : ids_ok (run init evs)).
  { apply run_invariant; [intros x ev; apply step_ids_ok|].
    split; [constructor|]. split; [|intros _; reflexivity].
    repeat split; [discriminate|constructor|discriminate]. }
  destruct H as (Ho & Hrefs & _). split; [|exact Hrefs].
  intros o r Hin. rewrite Forall_forall in Ho. now apply Ho.
Qed.

(** *** Completion and the screen recorder *)














(** *** The transcript *)

Lemma string_app_assoc (a b c : string) :
  ((a ++ b) ++ c = a ++ (b ++ c))%string.
Proof.
  induction a as [|ch a IH]; cbn; [reflexivity|now rewrite IH].
Qed.

Lemma concat_cons_space (p t : string) (ts : list string) :
  String.concat " " ((p ++ " " ++ t)%string :: ts)
  = (p ++ " " ++ String.concat " " (t :: ts))%string.
Proof.
  destruct ts as [|u r]; [reflexivity|].
  cbn [String.concat]. now rewrite !string_app_assoc.
Qed.

(** The transcript after the texts [texts] have been appended to
    [prev], one after the other. *)
Lemma append_all_joined (texts : list string) (prev : string) :
  fold_left
    (fun p t => ((if truthy (Some p) then p ++ " " else EmptyString) ++ t)%string)
    texts prev
  = String.concat " " (drop_empty (prev :: texts)).
Proof.
  revert prev. induction texts as [|t ts IH]; intros prev.
  - destruct prev; reflexivity.
  - cbn [fold_left]. rewrite IH.
    destruct prev as [|ch prev]; [reflexivity|].
    cbn [truthy]. rewrite string_app_assoc.
    change (drop_empty ((String ch prev ++ " " ++ t)%string :: ts))
      with ((String ch prev ++ " " ++ t)%string :: ts).
    change (drop_empty (String ch prev :: t :: ts))
      with (String ch prev :: t :: ts).
    rewrite concat_cons_space. reflexivity.
Qed.

Lemma settle_socketRef before x : socketRef (settle before x) = socketRef x.
Proof.
  assert (He : forall y, socketRef (endInterviewManually y) = socketRef y)
    by (intros y; unfold Session.endInterviewManually, clearTimer,
          clearInterval, stopScreenRecording; frame).
  assert (Ht : forall y, socketRef (timerEffect y) = socketRef y).
  { intros y. unfold Session.timerEffect.
    assert (Hc : forall z, socketRef
                             (set_timerCleanup false
                                (clearTimer (timerEffect_cleanup z)))
                           = socketRef z)
      by (intros z; unfold clearTimer, timerEffect_cleanup, clearInterval;
          frame).
    repeat split_test; rewrite ?He, ?Hc; try reflexivity.
    unfold setInterval, timerEffect_cleanup, clearInterval in *.
    match goal with
    | H : (_, _) = (_, _) |- _ => injection H as <- <-
    end.
    frame. }
  assert (Hce : forall y, socketRef (completeEffect y) = socketRef y)
    by (intros y; unfold completeEffect, stopScreenRecording; frame).
  assert (Hr : forall b y, socketRef (render b y) = socketRef y).
  { intros b y. unfold Session.render.
    repeat split_test; rewrite ?Hce, ?Ht; reflexivity. }
  unfold Session.settle. now rewrite !Hr.
Qed.

Lemma step_transcript_message ev s :
  is_transcript_message ev = true -> socketRef s = true ->
  socketRef (step s ev) = true
  /\ transcript (step s ev)
     = fold_left
         (fun p t =>
            ((if truthy (Some p) then p ++ " " else EmptyString) ++ t)%string)
         (heard ev) (transcript s).
Proof.
  intros Hev Hs. unfold Session.step.
  rewrite settle_socketRef, (same_transcript (settle_untouched _ _)).
  destruct ev; try discriminate Hev; cbn [Session.handle heard]; rewrite Hs.
  - destruct is_final; [|now split]. now split.
  - now split.
Qed.

(** X10.  The transcript is the final texts joined by single spaces.
    While only transcript messages arrive on the socket, the transcript
    is what it was, followed by the texts of the final messages in the
    order of arrival, separated by one space each; leading empty texts
    leave no space behind, and partial texts that are not final leave
    no trace. *)
Theorem transcript_is_joined (s : State) (evs : list Event) :
  socketRef s = true ->
  forallb is_transcript_message evs = true ->
  transcript (run s evs)
  = String.concat " " (drop_empty (transcript s :: flat_map heard evs)).
Proof.
  intros Hs Hevs. rewrite <- append_all_joined.
  revert s Hs Hevs. induction evs as [|ev evs IH]; intros s Hs Hevs.
  - reflexivity.
  - cbn [forallb] in Hevs. apply andb_true_iff in Hevs as [Hev Hevs].
    destruct (step_transcript_message ev s Hev Hs) as [Hs1 Ht1].
    rewrite run_cons, (IH _ Hs1 Hevs), Ht1.
    cbn [flat_map]. now rewrite fold_left_app.
Qed.

End More.

(** *** The clock *)

Lemma string_length_app (a b : string) :
  String.length (a ++ b) = String.length a + String.length b.
Proof.
  induction a as [|c a IH]; cbn; [reflexivity|now rewrite IH].
Qed.

Lemma string_app_inj_tail (x x' y y' : string) :
  (x ++ y)%string = (x' ++ y')%string ->
  String.length y = String.length y' ->
  x = x' /\ y = y'.
Proof.
  intros H Hl.
  assert (Hx : String.length x = String.length x').
  { apply (f_equal String.length) in H.
    rewrite !string_length_app in H. lia. }
  revert x' H Hx. induction x as [|c x IH]; intros [|c' x'] H Hx;
    cbn in *; try discriminate.
  - now split.
  - injection H as -> H. injection Hx as Hx.
    destruct (IH x' H Hx) as [-> ->]. now split.
Qed.

Lemma uint_of_padded (k : nat) (s : string) :
  NilEmpty.uint_of_string (string_of_list_ascii (repeat "0"%char k) ++ s)
  = option_map (Nat.iter k Decimal.D0) (NilEmpty.uint_of_string s).
Proof.
  induction k as [|k IH]; cbn.
  - now destruct (NilEmpty.uint_of_string s).
  - rewrite IH. now destruct (NilEmpty.uint_of_string s).
Qed.

Lemma of_uint_leading_zeros (k : nat) (d : Decimal.uint) :
  Pos.of_uint (Nat.iter k Decimal.D0 d) = Pos.of_uint d.
Proof.
  induction k as [|k IH]; [reflexivity|exact IH].
Qed.

(** A padded number reads back as the number. *)
Lemma padded_value (n : Z) :
  (0 <= n)%Z ->
  option_map Pos.of_uint
    (NilEmpty.uint_of_string (padStart 2 "0" (number_toString n)))
  = Some (Z.to_N n).
Proof.
  intros Hn. unfold padStart. rewrite uint_of_padded.
  assert (H : exists d,
             NilEmpty.uint_of_string (number_toString n) = Some d
             /\ Pos.of_uint d = Z.to_N n).
  { unfold number_toString. destruct n as [|p|p]; [| |lia].
    - exists (Decimal.D0 Decimal.Nil). now split.
    - exists (Pos.to_uint p). cbn [Z.to_int NilZero.string_of_int].
      pose proof (DecimalPos.Unsigned.to_uint_nonnil p) as Hnil.
      split; [|apply DecimalPos.Unsigned.of_to].
      unfold NilZero.string_of_uint.
      destruct (Pos.to_uint p) eqn:E; try congruence;
        rewrite <- E; apply NilEmpty.usu. }
  destruct H as (d & -> & Hd). cbn [option_map].
  now rewrite of_uint_leading_zeros, Hd.
Qed.

Lemma Z_bounded_check (f : Z -> bool) (bound : nat) :
  forallb (fun v => f (Z.of_N v)) (map N.of_nat (seq 0 bound)) = true ->
  forall z, (0 <= z < Z.of_nat bound)%Z -> f z = true.
Proof.
  intros Hall z Hz.
  rewrite <- (Z2N.id z) by lia.
  apply (N_bounded_check (fun v => f (Z.of_N v)) bound Hall). lia.
Qed.

Lemma padded_width (n : Z) :
  (0 <= n < 100)%Z ->
  String.length (padStart 2 "0" (number_toString n)) = 2.
Proof.
  intros Hn.
  apply Nat.eqb_eq.
  apply (Z_bounded_check
           (fun z => String.length (padStart 2 "0" (number_toString z)) =? 2)
           100); [vm_compute; reflexivity|exact Hn].
Qed.

(** X11.  The clock shows the time.  For a whole number of seconds
    that is not negative and that a number holds exactly, two different
    times are never shown as the same text, and below 100 minutes the
    text has the five characters of MM:SS. *)
Theorem clock_shows_the_time (a b : Z) :
  (0 <= a <= max_safe_integer)%Z -> (0 <= b <= max_safe_integer)%Z ->
  (formatTime a = formatTime b -> a = b)
  /\ ((a < 6000)%Z -> String.length (formatTime a) = 5).
Proof.
  intros [Ha _] [Hb _].
  assert (Hrem : forall s, (0 <= s)%Z ->
            Z.rem s 60 = (s mod 60)%Z /\ (0 <= s mod 60 < 60)%Z
            /\ (0 <= s / 60)%Z).
  { intros s Hs. split; [apply Z.rem_mod_nonneg; lia|].
    split; [apply Z.mod_pos_bound; lia|apply Z.div_pos; lia]. }
  split.
  - unfold formatTime. cbv zeta.
    destruct (Hrem a Ha) as (-> & Ra & Da).
    destruct (Hrem b Hb) as (-> & Rb & Db).
    intros H.
    apply string_app_inj_tail in H.
    + destruct H as [Hm Hs].
      injection Hs as Hs.
      pose proof (padded_value (a / 60) Da) as V1.
      pose proof (padded_value (b / 60) Db) as V2.
      pose proof (padded_value (a mod 60) (proj1 Ra)) as V3.
      pose proof (padded_value (b mod 60) (proj1 Rb)) as V4.
      rewrite Hm, V2 in V1. rewrite Hs, V4 in V3.
      injection V1 as V1. injection V3 as V3.
      rewrite (Z.div_mod a 60), (Z.div_mod b 60) by lia.
      apply Z2N.inj in V1; [|lia..]. apply Z2N.inj in V3; [|lia..].
      now rewrite V1, V3.
    + cbn [String.length append].
      rewrite !padded_width by lia. reflexivity.
  - intros Hlt. unfold formatTime. cbv zeta.
    destruct (Hrem a Ha) as (-> & Ra & Da).
    rewrite !string_length_app. cbn [String.length].
    rewrite !padded_width; [reflexivity|lia|].
    split; [exact Da|]. apply Z.div_lt_upper_bound; lia.
Qed.

Lemma clock_shows_the_time_witness :
  (formatTime 599 = formatTime 600 -> 599 = 600)%Z
  /\ ((599 < 6000)%Z -> String.length (formatTime 599) = 5).
Proof.
  apply (clock_shows_the_time 599 600); unfold max_safe_integer; lia.
Defined.

(** *** The periodic check of the screen track *)

(** X12.  The periodic check never reports a paused screen.  The check
    refreshes the time of the last activity just before it compares it
    with the clock, so, unless the clock advances by more than thirty
    seconds between the two readings inside one run of the check, the
    only alert the check can record is the one for a track that has
    ended, whatever the time of the last activity was before. *)
Theorem screen_pause_never_raised (closureComplete : bool)
    (closureResponseId : option string) (readyState : ReadyState)
    (now1 now2 now3 : Z) (m : Monitor) (s : State) :
  (now2 - now1 <= 30000)%Z ->
  let s' := snd (screenCheck closureComplete closureResponseId readyState
                   now1 now2 now3 m s) in
  s' = s
  \/ (readyState = ended
      /\ s' = recordCheatingAlert closureResponseId "screen_track_inactive"
                (Some "Screen track has ended"%string) now3 s).
Proof.
  intros Hclock. unfold screenCheck.
  destruct (screenStreamRef s) as [stream|]; [|now left].
  destruct closureComplete; [now left|].
  destruct (videoTracks stream) as [|videoTrack rest]; [now left|].
  destruct readyState; cbn.
  - left. destruct (30000 <? now2 - now1)%Z eqn:E; [|reflexivity].
    apply Z.ltb_lt in E. lia.
  - right. now split.
Qed.

Lemma screen_pause_never_raised_witness :
  let s := Scenario.started in
  let m := {| lastScreenActivityRef := 0; screenCheckIntervalRef := Some 7 |} in
  let s' := snd (screenCheck false None live 100000 100001 100002 m s) in
  s' = s
  \/ (live = ended
      /\ s' = recordCheatingAlert None "screen_track_inactive"
                (Some "Screen track has ended"%string) 100002%Z s).
Proof.
  intros s m.
  apply (screen_pause_never_raised false None live 100000 100001 100002 m s).
  lia.
Defined.

(** A backend that refuses every request to end the interview. *)
Lemma refused_end_stops_the_clock_witness :
  let refuse : nat -> EndEnv := fun _ => EndFail "Failed to end interview" in
  let s := step refuse Scenario.props
             (run refuse Scenario.props init [Scenario.start 10; SocketConnect])
             EndInterview in
  interviewComplete s = false
  /\ timeRemaining (run refuse Scenario.props s [TimerTick; TimerTick])
     = Some 600%Z
  /\ liveIntervals (run refuse Scenario.props s [TimerTick; TimerTick]) = []
  /\ timerIntervalRef (run refuse Scenario.props s [TimerTick; TimerTick])
     = None.
Proof.
  intros refuse s.
  apply (refused_end_stops_the_clock refuse Scenario.props
           [Scenario.start 10; SocketConnect] [TimerTick; TimerTick] 600%Z
           "Failed to end interview").
  - split; try reflexivity. exists 0. split; reflexivity.
  - reflexivity.
Defined.

Lemma first_share_stop_unreported_witness :
  let s := run Scenario.backend Scenario.props init
             [Scenario.start 10; SocketConnect] in
  outputs (step Scenario.backend Scenario.props s (ScreenTrackEnded 0%Z))
  = outputs s
  /\ (trackOnended s <> None ->
      cheatingAlertsRef
        (step Scenario.backend Scenario.props s (ScreenTrackEnded 0%Z))
      = (cheatingAlertsRef s ++ [screen_stopped_alert 0%Z])%list
      /\ screenSharingStopped
           (step Scenario.backend Scenario.props s (ScreenTrackEnded 0%Z))
         = true).
Proof.
  intros s.
  apply (first_share_stop_unreported Scenario.backend Scenario.props
           [Scenario.start 10; SocketConnect] 0%Z).
  reflexivity.
Defined.




Lemma transcript_is_joined_witness :
  transcript
    (run Scenario.backend Scenario.props Scenario.started
       [PartialTranscript "I" false; PartialTranscript "I have" true;
        TranscriptResult "five years"])
  = "I have five years"%string.
Proof.
  apply (transcript_is_joined Scenario.backend Scenario.props Scenario.started
           [PartialTranscript "I" false; PartialTranscript "I have" true;
            TranscriptResult "five years"]);
    reflexivity.
Defined.

Section Microphone.

Variable endResponse : nat -> EndEnv.
Variable props : Props.

Local Abbreviation handle := (handle endResponse props).
Local Abbreviation step := (step endResponse props).
Local Abbreviation run := (run endResponse props).

(** *** The microphone *)

Local Abbreviation occur := (occur endResponse props).
Local Abbreviation occurs := (occurs endResponse props).

Lemma mic_moves_same s x :
  isRecording x = isRecording s -> mediaRecorderRef x = mediaRecorderRef s ->
  mic_moves s x.
Proof.
  intros H1 H2. left. now split.
Qed.

Lemma mic_moves_then_same s x y :
  isRecording y = isRecording x -> mediaRecorderRef y = mediaRecorderRef x ->
  mic_moves s x -> mic_moves s y.
Proof.
  unfold mic_moves. now intros -> ->.
Qed.

Lemma startScreenRecording_mic c rid ex env s :
  isRecording (fst (startScreenRecording c rid ex env s)) = isRecording s
  /\ mediaRecorderRef (fst (startScreenRecording c rid ex env s))
     = mediaRecorderRef s.
Proof.
  unfold startScreenRecording, startRecorder, requestDisplayStream,
    existingDisplayStream.
  split; frame.
Qed.

Lemma handle_mic ev s : mic_moves s (handle ev s).
Proof.
  assert (Hend : forall y,
             mic_moves y (Session.endInterviewManually endResponse y)).
  { intros y.
    pose proof (endInterviewManually_untouched endResponse y) as Hu.
    apply mic_moves_same;
      [apply (same_isRecording Hu)|apply (same_mediaRecorderRef Hu)]. }
  destruct ev; cbn [Session.handle].
  - unfold startSession.
    destruct (sessionInitializedRef s); [now apply mic_moves_same|].
    destruct env as [msg|data q scr]; [apply mic_moves_same; frame|].
    destruct (response_id data) as [rid|]; [|apply mic_moves_same; frame].
    destruct (truthy (Some rid)); [|apply mic_moves_same; frame].
    match goal with
    | |- context [startScreenRecording ?c ?r ?e ?v ?x] =>
        destruct (startScreenRecording_mic c r e v x) as [H1 H2];
        destruct (startScreenRecording c r e v x) as [y [m|]]
    end; cbn [fst] in H1, H2;
      (destruct (screenPermissionGranted props && _);
       [try destruct (is_validation_message m)|]);
      apply mic_moves_same; cbn; rewrite ?H1, ?H2;
      unfold fetchCurrentQuestion; frame.
  - apply mic_moves_same; frame.
  - apply mic_moves_same; frame.
  - unfold appendTranscript. apply mic_moves_same; frame.
  - unfold appendTranscript. apply mic_moves_same; frame.
  - apply mic_moves_same; frame.
  - destruct (monitoring s); [|now apply mic_moves_same].
    unfold Session.handleVisibilityChange.
    destruct hidden; [|now apply mic_moves_same].
    destruct (3 <=? _)%nat.
    + apply mic_moves_same;
        [rewrite (same_isRecording
                    (endInterviewManually_untouched endResponse _))
        |rewrite (same_mediaRecorderRef
                    (endInterviewManually_untouched endResponse _))];
        unfold recordCheatingAlert; frame.
    + apply mic_moves_same; unfold recordCheatingAlert; frame.
  - unfold handleBlur, recordCheatingAlert. apply mic_moves_same; frame.
  - unfold mic_moves, toggleRecording, startRecording, stopRecording.
    repeat split_test; cbn in *; intuition congruence.
  - unfold mic_moves, submitAnswer, stopRecording, fetchCurrentQuestion.
    repeat split_test; cbn in *; intuition congruence.
  - apply Hend.
  - unfold restartScreenSharing.
    destruct (responseId s) as [rid|]; [|now apply mic_moves_same].
    destruct (negb _); [now apply mic_moves_same|].
    match goal with
    | |- context [startScreenRecording ?c ?r ?e ?v ?x] =>
        destruct (startScreenRecording_mic c r e v x) as [H1 H2];
        destruct (startScreenRecording c r e v x) as [y [m|]]
    end; cbn [fst] in H1, H2; apply mic_moves_same; cbn in *; assumption.
  - destruct (trackOnended s); [|now apply mic_moves_same].
    unfold videoTrack_onended, stopScreenRecording, recordCheatingAlert.
    apply mic_moves_same; frame.
  - unfold ondataavailable. apply mic_moves_same; frame.
  - unfold ondataavailable_resume, sendChunk. apply mic_moves_same; frame.
Qed.

Lemma occur_mic o s : mic_moves s (occur s o).
Proof.
  destruct o as [ev|c rid rs now1 now2 now3 m|]; cbn [SessionExtra.occur].
  - unfold Session.step.
    pose proof (SessionFacts.settle_untouched endResponse s
                  (handle ev s)) as Hu.
    apply (mic_moves_then_same s (handle ev s));
      [apply (same_isRecording Hu)|apply (same_mediaRecorderRef Hu)|].
    apply handle_mic.
  - apply mic_moves_same;
      unfold screenCheck, recordCheatingAlert; frame.
  - unfold mic_moves, microphoneStopped.
    destruct (mediaRecorderRef s) as [[| |]|] eqn:E; cbn;
      rewrite ?E; intuition congruence.
Qed.

Lemma occur_mic_ok o s : mic_ok s -> mic_ok (occur s o).
Proof.
  unfold mic_ok. intros [H1 H2].
  destruct (occur_mic o s) as [[-> ->]|[(_ & -> & ->)|[(_ & _ & -> & ->)
                               |(-> & Hn & ->)]]].
  - now split.
  - split; [reflexivity|now left].
  - split; discriminate.
  - split; [discriminate|]. intros _. now right.
Qed.

Lemma occur_mic_stuck o s : mic_stuck s -> mic_stuck (occur s o).
Proof.
  unfold mic_stuck. intros [H1 H2].
  destruct (occur_mic o s) as [[-> ->]|[(Hf & _)|[(_ & Hn & _)
                               |(_ & Hn & _)]]];
    [now split|congruence..].
Qed.

Lemma occurs_invariant (P : State -> Prop) :
  (forall s o, P s -> P (occur s o)) ->
  forall os s, P s -> P (occurs s os).
Proof.
  intros Hstep os. induction os as [|o os IH]; intros s Hs; [exact Hs|].
  change (occurs s (o :: os)) with (occurs (occur s o) os).
  apply IH. now apply Hstep.
Qed.

(** X19.  The recording indicator can stick.  In every state the
    component reaches, whatever has happened (events, runs of the
    screen check, the microphone recorder stopping on its own), a
    microphone recorder that records is shown as recording, and what is
    shown as recording is a recorder that records or one that has
    stopped.  The second case does not repair itself: when the recorder
    stops on its own while [isRecording] is set, nothing resets the
    flag, [stopRecording] does nothing to a recorder that is inactive,
    and [startRecording] is only reached with the flag off, so from
    then on [isRecording] stays set and the recorder stays inactive
    whatever happens. *)
Theorem recording_indicator_can_stick (os : list Occurrence) :
  let s := occurs init os in
  (mediaRecorderRef s = Some recording -> isRecording s = true)
  /\ (isRecording s = true ->
      mediaRecorderRef s = Some recording
      \/ mediaRecorderRef s = Some inactive)
  /\ (isRecording s = true ->
      forall later,
        let s' := occurs (occur s MicrophoneStopped) later in
        isRecording s' = true /\ mediaRecorderRef s' = Some inactive).
Proof.
  intros s.
  assert (Hok : mic_ok s).
  { apply (occurs_invariant mic_ok); [intros x o; apply occur_mic_ok|].
    split; discriminate. }
  destruct Hok as [H1 H2].
  split; [exact H1|]. split; [exact H2|].
  intros Hrec later s'. subst s'.
  apply (occurs_invariant mic_stuck); [intros x o; apply occur_mic_stuck|].
  unfold mic_stuck. cbn [SessionExtra.occur]. unfold microphoneStopped.
  destruct (H2 Hrec) as [E|E]; rewrite E; cbn; rewrite ?E; now split.
Qed.

End Microphone.

Lemma recording_indicator_can_stick_witness :
  let s :=
    occurs Scenario.backend Scenario.props init
      [Handled (Scenario.start 10); Handled SocketConnect;
       Handled (ToggleRecording true)] in
  isRecording s = true
  /\ forall later,
       let s' :=
         occurs Scenario.backend Scenario.props
           (occur Scenario.backend Scenario.props s MicrophoneStopped)
           later in
       isRecording s' = true /\ mediaRecorderRef s' = Some inactive.
Proof.
  intros s.
  assert (Hrec : isRecording s = true) by (vm_compute; reflexivity).
  split; [exact Hrec|].
  exact (proj2 (proj2
           (recording_indicator_can_stick Scenario.backend Scenario.props
              [Handled (Scenario.start 10); Handled SocketConnect;
               Handled (ToggleRecording true)])) Hrec).
Defined.

(** *** A session that is handed a stream that has ended *)

Lemma mount_asks_for_the_screen (endResponse : nat -> EndEnv) (props : Props)
    (data : StartData) (q : QuestionEnv) (scr : ScreenEnv) (rid : string) :
  screenPermissionGranted props = true ->
  (forall st t rest,
      existingScreenStream props = Some st -> videoTracks st = t :: rest ->
      track_readyState t = ended) ->
  response_id data = Some rid -> truthy (Some rid) = true ->
  In GetDisplayMedia
    (outputs (step endResponse props init (Mount (StartOk data q scr)))).
Proof.
  intros Hperm Hended Hrid Ht.
  unfold Session.step.
  destruct (settle_extends endResponse init
              (handle endResponse props (Mount (StartOk data q scr)) init))
    as (extra & -> & _).
  apply in_or_app. left.
  cbn [Session.handle]. unfold startSession.
  cbn [sessionInitializedRef init]. rewrite Hrid, Ht, Hperm.
  unfold startScreenRecording, existingDisplayStream, requestDisplayStream,
    startRecorder, fetchCurrentQuestion.
  destruct (existingScreenStream props) as [st|] eqn:Hex.
  - destruct (videoTracks st) as [|t rest] eqn:Hv.
    + repeat split_test; cbn in *; try discriminate;
        repeat (try (left; reflexivity); right).
    + rewrite (Hended st t rest eq_refl Hv).
      repeat split_test; cbn in *; try discriminate;
        repeat (try (left; reflexivity); right).
  - repeat split_test; cbn in *; try discriminate;
      repeat (try (left; reflexivity); right).
Qed.

End SessionMore.

(* ------------------------------------------------------------------ *)
(** ** The request helpers *)

Module ApiFacts.
Import Js Api.
Local Open Scope string_scope.
Unset Implicit Arguments.

Lemma lookup_assign (k k' : string) (v : HeaderValue) (obj : Headers) :
  lookup k (assign k' v obj)
  = if String.eqb k' k then Some v else lookup k obj.
Proof.
  induction obj as [|[k0 v0] rest IH]; cbn.
  - reflexivity.
  - destruct (String.eqb k0 k') eqn:E; cbn.
    + apply String.eqb_eq in E. subst k0.
      now destruct (String.eqb k' k).
    + destruct (String.eqb k0 k) eqn:E0; [|exact IH].
      apply String.eqb_eq in E0. subst k0.
      destruct (String.eqb k' k) eqn:E1; [|reflexivity].
      rewrite String.eqb_sym in E1. congruence.
Qed.

Lemma spread_snoc (a b : Headers) (kv : string * HeaderValue) :
  spread a (b ++ [kv])%list = assign (fst kv) (snd kv) (spread a b).
Proof.
  unfold spread. now rewrite fold_left_app.
Qed.

(** In [{ ...a, ...b }] the properties of [b] win. *)
Lemma lookup_spread (k : string) (a b : Headers) :
  lookup k (spread a b)
  = match lookup k (literal b) with
    | Some v => Some v
    | None => lookup k a
    end.
Proof.
  induction b as [|kv b IH] using rev_ind; [reflexivity|].
  unfold literal in *. rewrite !spread_snoc, !lookup_assign.
  destruct (String.eqb (fst kv) k); [reflexivity|exact IH].
Qed.

(** X17.  The headers of [fetchWithAuth].  A property that the spread
    copies from [options.headers] wins over the default of exactly the
    same name (the names are compared as written: [content-type] does
    not replace [Content-Type]).  Otherwise the object carries
    [Content-Type: application/json] unless the method is exactly
    [GET], the API key under both of its names when a key is
    configured, and nothing else.  The spread copies the entries of a
    plain object; from a [Headers] instance it copies nothing, so the
    caller's headers are dropped and only the defaults remain; from an
    array of pairs it copies the indices. *)
Theorem fetchWithAuth_headers (API_KEY : string) (options : RequestInit)
    (k : string) :
  let default :=
    if String.eqb k "Content-Type" then
      if Session.option_eqb String.eqb (method options) (Some "GET")
      then None else Some (Text "application/json")
    else if String.eqb k "API_KEY" || String.eqb k "x-api-key" then
      if Session.truthy (Some API_KEY) then Some (Text API_KEY) else None
    else None in
  lookup k (fetchWithAuth API_KEY options)
  = match headers options with
    | Some (PlainObject entries) =>
        match lookup k (literal (own_properties (PlainObject entries))) with
        | Some v => Some v
        | None => default
        end
    | Some (HeadersInstance _) => default
    | Some (PairArray pairs) =>
        match lookup k (literal (own_properties (PairArray pairs))) with
        | Some v => Some v
        | None => default
        end
    | None => default
    end.
Proof.
  intros default. unfold fetchWithAuth. cbv zeta.
  assert (Hd : forall b,
             lookup k (getApiHeaders API_KEY b)
             = if String.eqb k "Content-Type" then
                 if b then Some (Text "application/json") else None
               else if String.eqb k "API_KEY" || String.eqb k "x-api-key" then
                 if Session.truthy (Some API_KEY) then Some (Text API_KEY)
                 else None
               else None).
  { intros b. unfold getApiHeaders.
    rewrite (String.eqb_sym k "Content-Type"), (String.eqb_sym k "API_KEY"),
      (String.eqb_sym k "x-api-key").
    destruct b, (Session.truthy (Some API_KEY));
      match goal with
      | |- context [lookup k ?h] =>
          let h' := eval vm_compute in h in change h with h'
      end;
      cbn [lookup];
      destruct (String.eqb "Content-Type" k) eqn:E1;
      destruct (String.eqb "API_KEY" k) eqn:E2;
      destruct (String.eqb "x-api-key" k) eqn:E3; cbn [orb];
      try reflexivity; exfalso;
      repeat match goal with
             | E : String.eqb _ k = true |- _ =>
                 apply String.eqb_eq in E; subst k
             end;
      discriminate. }
  assert (Hdef : lookup k
                   (getApiHeaders API_KEY
                      (negb (Session.option_eqb String.eqb (method options)
                               (Some "GET"))))
                 = default).
  { rewrite Hd. subst default.
    now destruct (Session.option_eqb String.eqb (method options) (Some "GET")). }
  destruct (headers options) as [[entries|entries|pairs]|].
  - now rewrite lookup_spread, Hdef.
  - cbn [own_properties spread fold_left]. exact Hdef.
  - now rewrite lookup_spread, Hdef.
  - cbn [spread fold_left]. exact Hdef.
Qed.

(** X18.  What a failed upload throws.  Each of the three uploads
    succeeds exactly when the request resolves with a response that is
    [ok], and throws otherwise.  For a response that is not [ok], the
    message is the [detail] of the body when that is a string that is
    not empty, and the text of the upload when the body cannot be
    read.  The message can be empty: a body whose [detail] is the
    empty array is truthy and its text is the empty string. *)
Theorem upload_failure_message
    (answer : string + Response) :
  Forall
    (fun case : ((string + Response) -> Exc unit) * string =>
       let upload := fst case in
       let unreadable := snd case in
       (upload answer = ret tt
        <-> exists response, answer = inr response /\ ok response = true)
       /\ (forall response d,
              answer = inr response -> ok response = false ->
              json response = Some (BodyObject (Some (DString d))) ->
              d <> "" -> upload answer = throw d)
       /\ (forall response,
              answer = inr response -> ok response = false ->
              json response = None -> upload answer = throw unreadable)
       /\ upload (inr {| ok := false;
                         json := Some (BodyObject (Some (DArray []))) |})
          = throw "")
    [(uploadCandidateImage, "Failed to upload image");
     (uploadScreenRecordingChunk, "Failed to upload chunk");
     (finalizeScreenRecording, "Failed to finalize recording")].
Proof.
  assert (Hthrows : forall u f r, exists msg, throw_failure u f r = throw msg).
  { intros u f r. unfold throw_failure.
    destruct (json r) as [[|[d|]|]|]; cbv iota beta;
      try match goal with
          | |- context [if ?c then _ else _] => destruct c
          end; eexists; reflexivity. }
  assert (Hone : forall u f, detail_truthy (DString u) = true ->
            let upload := fun answer : string + Response =>
              bind answer (fun response =>
                if negb (ok response) then throw_failure u f response
                else ret tt) in
            (upload answer = ret tt
             <-> exists response, answer = inr response /\ ok response = true)
            /\ (forall response d,
                   answer = inr response -> ok response = false ->
                   json response = Some (BodyObject (Some (DString d))) ->
                   d <> "" -> upload answer = throw d)
            /\ (forall response,
                   answer = inr response -> ok response = false ->
                   json response = None -> upload answer = throw u)
            /\ upload (inr {| ok := false;
                              json := Some (BodyObject (Some (DArray []))) |})
               = throw "").
  { intros u f Hu upload. subst upload. cbv beta.
    split; [|split; [|split]].
    - split.
      + destruct answer as [e|response]; cbn; [discriminate|].
        destruct (ok response) eqn:Hok; cbn.
        * intros _. now exists response.
        * intros H. destruct (Hthrows u f response) as [msg Hm].
          rewrite Hm in H. discriminate.
      + intros (response & -> & Hok). cbn. now rewrite Hok.
    - intros response d -> Hok Hj Hd. cbn. rewrite Hok. cbn.
      unfold throw_failure. rewrite Hj. cbn.
      destruct d; [congruence|reflexivity].
    - intros response -> Hok Hj. cbn. rewrite Hok. cbn.
      unfold throw_failure. rewrite Hj. cbv iota beta.
      now rewrite Hu.
    - reflexivity. }
  repeat apply Forall_cons; [| | |apply Forall_nil];
    apply Hone; reflexivity.
Qed.

End ApiFacts.

(* ------------------------------------------------------------------ *)
(** ** The page that starts the interview *)

Module CandidateFacts.
Import Js Candidate SessionFacts.
Unset Implicit Arguments.

Section Facts.

Variable interviewId : string.

Local Abbreviation step := (Candidate.step interviewId).
Local Abbreviation run := (Candidate.run interviewId).
Local Abbreviation handle := (Candidate.handle interviewId).

Lemma render_fields before x :
  started (render before x) = started x
  /\ isOpen (render before x) = isOpen x
  /\ statusPending (render before x) = statusPending x
  /\ responseId (render before x) = responseId x
  /\ loadingStatus (render before x) = loadingStatus x
  /\ statusError (render before x) = statusError x
  /\ screenPermissionGranted (render before x) = screenPermissionGranted x
  /\ capturedBlob (render before x) = capturedBlob x
  /\ filter is_start_request (outputs (render before x))
     = filter is_start_request (outputs x)
  /\ filter is_photo_upload (outputs (render before x))
     = filter is_photo_upload (outputs x).
Proof.
  unfold render, streamCleanup, emit.
  repeat split_test; cbn; rewrite ?filter_app; cbn; rewrite ?app_nil_r;
    repeat split; reflexivity.
Qed.

(** Nothing can happen on a page that shows neither the form nor a
    pending status check. *)
Lemma step_stuck ev s :
  form_shown s = false -> statusPending s = false -> step s ev = s.
Proof.
  intros Hf Hp. unfold Candidate.step.
  assert (He : enabled ev s = false)
    by (destruct ev; cbn [enabled]; rewrite ?Hf, ?Hp; reflexivity).
  now rewrite He.
Qed.

Lemma run_stuck evs s :
  form_shown s = false -> statusPending s = false -> run s evs = s.
Proof.
  intros Hf Hp. induction evs as [|ev evs IH]; [reflexivity|].
  cbn [Candidate.run fold_left]. rewrite (step_stuck ev s Hf Hp). exact IH.
Qed.

Lemma form_shown_inv s :
  form_shown s = true ->
  started s = false /\ loadingStatus s = false
  /\ Session.truthy (Some (statusError s)) = false
  /\ isOpen s <> Some false.
Proof.
  unfold form_shown, screen.
  destruct (started s), (loadingStatus s); try discriminate.
  destruct (Session.truthy (Some (statusError s))); [discriminate|].
  destruct (isOpen s) as [[|]|]; cbn; try discriminate;
    intros _; repeat split; congruence.
Qed.

(** An event that can happen is the status check settling, or is
    triggered from the form. *)
Lemma enabled_inv ev s :
  enabled ev s = true ->
  (exists env, ev = StatusChecked env /\ statusPending s = true)
  \/ ((forall env, ev <> StatusChecked env) /\ form_shown s = true).
Proof.
  destruct ev; cbn [enabled]; intros H;
    try (right; split; [discriminate|];
         repeat (apply andb_true_iff in H as [H ?]); exact H).
  left. now exists env.
Qed.

Lemma handle_kept ev s :
  (forall env, ev <> StatusChecked env) ->
  statusPending (handle ev s) = statusPending s
  /\ isOpen (handle ev s) = isOpen s.
Proof.
  intros Hne.
  destruct ev; try (now exfalso; eapply Hne); cbn [Candidate.handle];
    unfold startCamera, capturePhoto, closeCamera, retake, uploadPhoto,
      requestScreenPermission, handleStart, emit;
    split; frame.
Qed.

Lemma not_blank_trimmed t :
  Session.blank t = false -> trim_string t <> EmptyString.
Proof.
  unfold Session.blank, trim_string.
  destruct (trim (lit t)); [discriminate|]. cbn. discriminate.
Qed.

Lemma render_named before x :
  Forall named (outputs x) -> Forall named (outputs (render before x)).
Proof.
  intros H. unfold render, streamCleanup, emit.
  repeat split_test; cbn; rewrite ?Forall_app; repeat split;
    try assumption; repeat constructor.
Qed.

Lemma handle_named ev s :
  enabled ev s = true -> Forall named (outputs s) ->
  Forall named (outputs (handle ev s)).
Proof.
  intros He H.
  destruct ev; cbn [Candidate.handle];
    unfold checkInterviewStatus, startCamera, capturePhoto, closeCamera,
      retake, uploadPhoto, requestScreenPermission, emit;
    try (repeat split_test; cbn; rewrite ?Forall_app; repeat split;
         try assumption; repeat constructor; fail).
  cbn [enabled] in He.
  apply andb_true_iff in He as [_ He]. apply negb_true_iff in He.
  apply orb_false_iff in He as [He _]. apply orb_false_iff in He as [He _].
  apply orb_false_iff in He as [He _]. apply orb_false_iff in He as [Hn Hm].
  pose proof (not_blank_trimmed _ Hn). pose proof (not_blank_trimmed _ Hm).
  unfold handleStart, emit.
  repeat split_test; cbn; rewrite ?Forall_app; repeat split;
    try assumption; repeat constructor; assumption.
Qed.

Lemma handle_photo ev s :
  enabled ev s = true -> (forall env, ev <> StatusChecked env) ->
  responseId s = None -> filter is_photo_upload (outputs s) = [] ->
  (started (handle ev s) = false ->
   responseId (handle ev s) = None
   /\ filter is_photo_upload (outputs (handle ev s)) = [])
  /\ length (filter is_photo_upload (outputs (handle ev s))) <= 1.
Proof.
  intros He Hne Hr Ho.
  destruct ev; try (now exfalso; eapply Hne); cbn [Candidate.handle].
  8: { cbn [enabled] in He. rewrite Hr in He. cbn in He.
       rewrite orb_true_r, andb_false_r in He. discriminate. }
  all: unfold startCamera, capturePhoto, closeCamera, retake,
         requestScreenPermission, handleStart, emit.
  all: repeat split_test; cbn; rewrite ?filter_app, ?Ho, ?Hr; cbn;
         (split; [intros; try discriminate; now split|lia]).
Qed.

Lemma stopTracks_ended d : all_ended (stopTracks d).
Proof.
  unfold all_ended, stopTracks. cbn.
  induction (Session.videoTracks (stream d)); constructor; auto.
Qed.

Lemma render_granted before x : granted_ok x -> granted_ok (render before x).
Proof.
  unfold granted_ok. intros H.
  destruct (render_fields before x) as (_ & _ & _ & _ & _ & _ & -> & _).
  intros Hg. destruct (H Hg) as (d & t & rest & Hd & Ht & Hm & Ha).
  unfold render, streamCleanup, emit.
  repeat split_test; cbn; rewrite ?Hd; cbn;
    try (exists d, t, rest; now repeat split).
  all: eexists (stopTracks d), _, _; cbn; rewrite Ht; cbn;
    repeat split; cbn; first [reflexivity|exact Hm|exact Ha].
Qed.

Lemma handle_granted ev s : granted_ok s -> granted_ok (handle ev s).
Proof.
  unfold granted_ok. intros H.
  destruct ev; cbn [Candidate.handle];
    unfold checkInterviewStatus, startCamera, capturePhoto, closeCamera,
      retake, uploadPhoto, handleStart, emit;
    try (repeat split_test; cbn; exact H).
  unfold requestScreenPermission, emit.
  repeat split_test; cbn; try exact H.
  intros _. eexists _, _, _. repeat split; try eassumption.
  - match goal with
    | E : negb (Session.option_eqb _ ?x _) = false |- ?x = _ =>
        apply negb_false_iff in E; destruct x as [surface|];
        [cbn in E; apply String.eqb_eq in E; now subst|discriminate]
    end.
  - match goal with
    | E : (_ =? 0) = false |- _ => apply Nat.eqb_neq in E; lia
    end.
Qed.

(** The start is the only event that renders the session. *)
Lemma handle_started ev s :
  enabled ev s = true -> started s = false ->
  started (handle ev s) = true ->
  (exists env, ev = Start env)
  /\ screenPermissionGranted s = true
  /\ capturedBlob s <> None
  /\ capturedBlob (handle ev s) = capturedBlob s
  /\ screenShareStream (handle ev s) = screenShareStream s.
Proof.
  intros He Hs.
  destruct ev; cbn [Candidate.handle];
    unfold checkInterviewStatus, startCamera, capturePhoto, closeCamera,
      retake, uploadPhoto, requestScreenPermission, emit;
    try (repeat split_test; cbn; congruence).
  cbn [enabled] in He.
  apply andb_true_iff in He as [_ He]. apply negb_true_iff in He.
  apply orb_false_iff in He as [He Hg]. apply orb_false_iff in He as [_ Hc].
  apply negb_false_iff in Hg, Hc.
  intros Hdone. split; [now exists env|]. split; [exact Hg|].
  split; [destruct (capturedBlob s); [discriminate|discriminate Hc]|].
  unfold handleStart, emit. split; frame.
Qed.

Lemma step_page_ok ev s : page_ok s -> page_ok (step s ev).
Proof.
  intros Hok. unfold Candidate.step.
  destruct (enabled ev s) eqn:He; [|exact Hok].
  destruct Hok as [Hpend Hclosed Hphoto Hgranted Hstarted Hnamed].
  pose proof (render_fields s (handle ev s))
    as (R1 & R2 & R3 & R4 & R5 & R6 & R7 & R8 & R9 & R10).
  assert (Hnamed' : Forall named (outputs (render s (handle ev s))))
    by (apply render_named, handle_named; assumption).
  assert (Hgranted' : granted_ok (render s (handle ev s)))
    by (apply render_granted, handle_granted; assumption).
  destruct (enabled_inv ev s He) as [(env & -> & Hp)|[Hne Hf]].
  - destruct (Hpend Hp) as (Hl & Hs & Ho & _).
    destruct Hphoto as [Hfresh _]. destruct (Hfresh Hs) as [Hr _].
    assert (Hx : started (handle (StatusChecked env) s) = false
                 /\ statusPending (handle (StatusChecked env) s) = false
                 /\ responseId (handle (StatusChecked env) s) = None
                 /\ outputs (handle (StatusChecked env) s)
                    = [Fetch_list_interviews]).
    { cbn [Candidate.handle]. unfold checkInterviewStatus, emit.
      repeat split; repeat split_test; cbn; rewrite ?Ho;
        first [reflexivity|assumption]. }
    destruct Hx as (X1 & X2 & X3 & X4).
    split; try assumption; unfold pending_ok, closed_ok, photo_ok, started_ok.
    + intros H. congruence.
    + intros _. rewrite R1, R9, X4. now split.
    + rewrite R1, R4, R10, X4. split; [now split|cbn; lia].
    + intros H. congruence.
  - destruct (form_shown_inv s Hf) as (Hs & Hl & _ & Hopen).
    assert (Hp : statusPending s = false).
    { destruct (statusPending s) eqn:E; [|reflexivity].
      destruct (Hpend E) as (Hl' & _). congruence. }
    destruct (handle_kept ev s Hne) as [K1 K2].
    destruct Hphoto as [Hfresh _]. destruct (Hfresh Hs) as [Hr Ho].
    destruct (handle_photo ev s He Hne Hr Ho) as [P1 P2].
    split; try assumption; unfold pending_ok, closed_ok, photo_ok, started_ok.
    + intros H. congruence.
    + intros H. exfalso. apply Hopen. congruence.
    + rewrite R1, R4, R10. now split.
    + intros Hdone. rewrite R1 in Hdone.
      destruct (handle_started ev s He Hs Hdone)
        as (_ & Hg & Hc & Hc' & Hstream).
      rewrite R3, R7, R8, K1, Hc'.
      split; [exact Hp|].
      assert (Hgx : screenPermissionGranted (handle ev s) = true).
      { destruct ev; cbn [Candidate.handle] in *;
          unfold checkInterviewStatus, startCamera, capturePhoto,
            closeCamera, retake, uploadPhoto, requestScreenPermission,
            handleStart, emit in *;
          revert Hdone; repeat split_test; cbn in *; congruence. }
      split; [exact Hgx|]. split; [exact Hc|].
      destruct (Hgranted Hg) as (d & t & rest & Hd & _).
      exists (stopTracks d). split; [|apply stopTracks_ended].
      unfold render.
      assert (Hdeps : same_stream_deps s (handle ev s) = false)
        by (unfold same_stream_deps; rewrite Hs, Hdone; cbn;
            now rewrite andb_false_r).
      rewrite Hdeps. unfold streamCleanup. rewrite Hd, Hs. cbn.
      destruct (cameraStream s); cbn; now rewrite Hstream, Hd.
Qed.

Lemma run_page_ok evs : page_ok (run init evs).
Proof.
  induction evs as [|ev evs IH] using rev_ind.
  - split; try (intros H; discriminate H); cbn.
    + intros _. now repeat split.
    + split; [now split|cbn; lia].
    + constructor.
  - unfold Candidate.run. rewrite fold_left_app. cbn.
    apply step_page_ok. exact IH.
Qed.

Lemma closed_is_stuck s :
  page_ok s -> isOpen s = Some false ->
  form_shown s = false /\ statusPending s = false.
Proof.
  intros Hok Hc. split.
  - unfold form_shown, screen. rewrite Hc. cbn.
    destruct (started s), (loadingStatus s); try reflexivity.
    now rewrite orb_true_r.
  - destruct (statusPending s) eqn:E; [|reflexivity].
    destruct (page_pending s Hok E) as (_ & _ & _ & Hn). congruence.
Qed.

(** X13.  A closed interview is never started.  When the status check
    finds the interview closed, the page sends no request to start it
    and never renders the session, and no later event changes the
    page. *)
Theorem closed_interview_is_never_started (evs evs' : list Event) :
  isOpen (run init evs) = Some false ->
  started (run init evs) = false
  /\ filter is_start_request (outputs (run init evs)) = []
  /\ run (run init evs) evs' = run init evs.
Proof.
  intros Hc. pose proof (run_page_ok evs) as Hok.
  destruct (page_closed _ Hok Hc) as [Hs Ho].
  destruct (closed_is_stuck _ Hok Hc) as [Hf Hp].
  split; [exact Hs|]. split; [exact Ho|]. now apply run_stuck.
Qed.

(** X14.  A refused camera locks the candidate out.  [startCamera]
    reports the refusal in [statusError], the variable that also makes
    the page show "Interview Closed": after the refusal the form is
    gone and no event changes the page any more, so the interview
    cannot be started. *)
Theorem camera_refusal_locks_the_page (evs evs' : list Event) :
  enabled (EnableCamera false) (run init evs) = true ->
  screen (step (run init evs) (EnableCamera false)) = ShowClosed
  /\ started (step (run init evs) (EnableCamera false)) = false
  /\ run (step (run init evs) (EnableCamera false)) evs'
     = step (run init evs) (EnableCamera false).
Proof.
  intros He. pose proof (run_page_ok evs) as Hok.
  set (s := run init evs) in *.
  destruct (enabled_inv _ _ He) as [(env & Hev & _)|[_ Hf]];
    [discriminate Hev|].
  destruct (form_shown_inv s Hf) as (Hs & Hl & _ & _).
  assert (Hp : statusPending s = false).
  { destruct (statusPending s) eqn:E; [|reflexivity].
    destruct (page_pending s Hok E) as (Hl' & _). congruence. }
  unfold Candidate.step. rewrite He. cbn [Candidate.handle].
  assert (Hr : render s (startCamera false s) = startCamera false s).
  { unfold render, same_stream_deps, startCamera. cbn.
    now rewrite !eqb_reflx. }
  rewrite Hr.
  assert (Hscreen : screen (startCamera false s) = ShowClosed)
    by (unfold screen, startCamera; cbn; now rewrite Hs, Hl).
  split; [exact Hscreen|]. split; [exact Hs|].
  apply run_stuck; [|exact Hp].
  unfold form_shown. now rewrite Hscreen.
Qed.

(** X16.  What the start sends.  Every request to start the interview
    carries a name and an email that are not empty.  The photo is
    sent at most once, and only by the start: as long as the session
    is not rendered there is no [responseId], so the button that
    uploads the photo is never enabled. *)
Theorem start_sends_names_and_photo (evs : list Event) (uploadOk : bool) :
  Forall named (outputs (run init evs))
  /\ length (filter is_photo_upload (outputs (run init evs))) <= 1
  /\ enabled (UploadPhoto uploadOk) (run init evs) = false
  /\ (started (run init evs) = false ->
      responseId (run init evs) = None
      /\ filter is_photo_upload (outputs (run init evs)) = []).
Proof.
  pose proof (run_page_ok evs) as Hok.
  set (s := run init evs) in *.
  destruct (page_photo s Hok) as [Hfresh Hone].
  split; [apply (page_named s Hok)|]. split; [exact Hone|].
  split; [|exact Hfresh].
  cbn [enabled].
  destruct (form_shown s) eqn:Hf; [|reflexivity].
  destruct (form_shown_inv s Hf) as (Hs & _).
  destruct (Hfresh Hs) as [Hr _]. rewrite Hr. cbn.
  now rewrite orb_true_r, andb_false_r.
Qed.

(** X15.  The shared screen is stopped when the interview starts.
    The stream the page holds passed both tests (the whole screen is
    shared, with audio), but the clean-up of the stream effect, which
    runs with the values of the render before the start, stops its
    tracks at the moment the session is rendered.  The session is
    handed the stream with the permission flag set, finds the track
    ended, and asks for the screen again. *)
Theorem shared_screen_is_stopped_at_the_start (evs : list Event) :
  started (run init evs) = true ->
  exists d,
    screenShareStream (run init evs) = Some d
    /\ all_ended d
    /\ (exists t rest,
           Session.videoTracks (stream d) = t :: rest
           /\ Session.track_displaySurface t = Some "monitor"%string
           /\ 0 < audioTracks d)
    /\ sessionProps (run init evs)
       = {| Session.screenPermissionGranted := true;
            Session.existingScreenStream := Some (stream d) |}
    /\ forall endResponse data q scr rid,
         Session.response_id data = Some rid ->
         Session.truthy (Some rid) = true ->
         In Session.GetDisplayMedia
           (Session.outputs
              (Session.step endResponse (sessionProps (run init evs))
                 Session.init
                 (Session.Mount (Session.StartOk data q scr)))).
Proof.
  intros Hs. pose proof (run_page_ok evs) as Hok.
  set (s := run init evs) in *.
  destruct (page_started s Hok Hs) as (_ & Hg & _ & d & Hd & Hended).
  destruct (page_granted s Hok Hg) as (d' & t & rest & Hd' & Ht & Hm & Ha).
  assert (d' = d) by congruence. subst d'.
  exists d. split; [exact Hd|]. split; [exact Hended|].
  split; [now exists t, rest|].
  assert (Hprops : sessionProps s
                   = {| Session.screenPermissionGranted := true;
                        Session.existingScreenStream := Some (stream d) |})
    by (unfold sessionProps; now rewrite Hg, Hd).
  split; [exact Hprops|].
  intros endResponse data q scr rid Hrid Htruthy.
  apply (SessionMore.mount_asks_for_the_screen endResponse (sessionProps s)
           data q scr rid); try assumption.
  rewrite Hprops. cbn. intros st t0 rest0 [= <-] Hv.
  unfold all_ended in Hended. rewrite Hv in Hended.
  apply (Forall_inv Hended).
Qed.

End Facts.

Lemma closed_interview_is_never_started_witness :
  let evs := [StatusChecked (StatusOk (Some [CandidateScenario.interview false]))] in
  started (run "iv-1" init evs) = false
  /\ filter is_start_request (outputs (run "iv-1" init evs)) = []
  /\ run "iv-1" (run "iv-1" init evs) [SetName "Ada"] = run "iv-1" init evs.
Proof.
  intros evs.
  apply (closed_interview_is_never_started "iv-1" evs [SetName "Ada"]).
  reflexivity.
Defined.

Lemma camera_refusal_locks_the_page_witness :
  let s := step "iv-1"
             (run "iv-1" init
                [StatusChecked (StatusOk (Some [CandidateScenario.interview true]))])
             (EnableCamera false) in
  screen s = ShowClosed /\ started s = false
  /\ run "iv-1" s [SetName "Ada"] = s.
Proof.
  intros s.
  apply (camera_refusal_locks_the_page "iv-1"
           [StatusChecked (StatusOk (Some [CandidateScenario.interview true]))]
           [SetName "Ada"]).
  reflexivity.
Defined.

Lemma shared_screen_is_stopped_at_the_start_witness :
  exists d,
    screenShareStream (run "iv-1" init CandidateScenario.visit) = Some d
    /\ all_ended d.
Proof.
  destruct (shared_screen_is_stopped_at_the_start "iv-1"
              CandidateScenario.visit eq_refl) as (d & Hd & He & _).
  exists d. now split.
Defined.

End CandidateFacts.
